(** * Analysis and policy-evaluation pipeline of alpha-omega (oaf)

    A shallow embedding of [omega/oaf/omega/analyze.py] (class
    [AnalysisRunner]) and [omega/oaf/frontend/oaffe/utils/policy.py]
    (function [refresh_policies]), with the properties the specification
    states about them.

    Python text is [string], the UTF-8 encoding of its characters; a dictionary that is iterated in insertion
    order ([**kwargs]) is an association list with unique keys; the Policy
    table, keyed by its unique identifier, is a [gmap]; the
    PolicyEvaluationResult table is a list of rows.  Code that logs, spawns
    processes, writes to the store or raises is written in a state and
    exception monad over an explicit world. *)

From Stdlib Require Import ZArith Lia Ascii String.
From stdpp Require Import base list strings gmap.

#[local] Set Warnings "-register-all".

Local Open Scope string_scope.
Local Open Scope Z_scope.
Local Open Scope list_scope.

(** ** Python strings *)

Module Str.

(** [str.lower] on the ASCII letters; every other byte is left as it is.
    ([str.lower] also changes letters outside ASCII.  Of those, U+212A
    becomes [k] and U+0130 becomes [i] followed by U+0307; no other gives
    an ASCII character, and none gives white space.  So whether the
    lower-cased text, stripped, is empty or is one of the words [pass],
    [fail] and [failed] is decided here as it is there.) *)
Definition lower_ascii (c : ascii) : ascii :=
  let n := nat_of_ascii c in
  if (Nat.leb 65 n && Nat.leb n 90)%bool then ascii_of_nat (n + 32) else c.

Fixpoint lower (s : string) : string :=
  match s with
  | EmptyString => EmptyString
  | String c r => String (lower_ascii c) (lower r)
  end.

(** The characters [str.isspace] accepts, which [str.strip] and
    [str.rstrip] remove.  In ASCII: tab, line feed, vertical tab, form
    feed, carriage return, the four separators 0x1c..0x1f, and the space. *)
Definition is_space (c : ascii) : bool :=
  let n := nat_of_ascii c in
  ((Nat.leb 9 n && Nat.leb n 13) || (Nat.leb 28 n && Nat.leb n 32))%bool.

(** Outside ASCII, on two bytes: U+0085 and U+00A0. *)
Definition is_space2 (c1 c2 : ascii) : bool :=
  let n1 := nat_of_ascii c1 in
  let n2 := nat_of_ascii c2 in
  (Nat.eqb n1 194 && (Nat.eqb n2 133 || Nat.eqb n2 160))%bool.

(** On three bytes: U+1680, U+2000..U+200A, U+2028, U+2029, U+202F, U+205F
    and U+3000. *)
Definition is_space3 (c1 c2 c3 : ascii) : bool :=
  let n1 := nat_of_ascii c1 in
  let n2 := nat_of_ascii c2 in
  let n3 := nat_of_ascii c3 in
  ((Nat.eqb n1 225 && Nat.eqb n2 154 && Nat.eqb n3 128) ||
   (Nat.eqb n1 226 && Nat.eqb n2 128 &&
    ((Nat.leb 128 n3 && Nat.leb n3 138) || Nat.eqb n3 168 || Nat.eqb n3 169 ||
     Nat.eqb n3 175)) ||
   (Nat.eqb n1 226 && Nat.eqb n2 129 && Nat.eqb n3 159) ||
   (Nat.eqb n1 227 && Nat.eqb n2 128 && Nat.eqb n3 128))%bool.

(** [str.lstrip]: the text without the white space it starts with. *)
Fixpoint lstrip (s : string) : string :=
  match s with
  | EmptyString => EmptyString
  | String c1 r1 =>
      if is_space c1 then lstrip r1
      else
        match r1 with
        | EmptyString => s
        | String c2 r2 =>
            if is_space2 c1 c2 then lstrip r2
            else
              match r2 with
              | EmptyString => s
              | String c3 r3 => if is_space3 c1 c2 c3 then lstrip r3 else s
              end
        end
  end.

(** [str.rstrip]: the text up to the white space it ends with, which is the
    longest end of the text that is white space only. *)
Fixpoint rstrip (s : string) : string :=
  match s with
  | EmptyString => EmptyString
  | String c r => if String.eqb (lstrip s) "" then EmptyString else String c (rstrip r)
  end.

Definition strip (s : string) : string := rstrip (lstrip s).

(** [s.startswith(p)] *)
Fixpoint startswith (p s : string) : bool :=
  match p with
  | EmptyString => true
  | String c p' =>
      match s with
      | EmptyString => false
      | String d s' => (Ascii.eqb c d && startswith p' s')%bool
      end
  end.

Fixpoint endswith_char (c : ascii) (s : string) : bool :=
  match s with
  | EmptyString => false
  | String d EmptyString => Ascii.eqb c d
  | String _ r => endswith_char c r
  end.

(** The line feed, written [\n] in Python. *)
Definition nl : string := String (ascii_of_nat 10) EmptyString.

(** [os.path.join(a, b)] of posixpath, for two components. *)
Definition path_join (a b : string) : string :=
  if startswith "/" b then b
  else if (String.eqb a "" || endswith_char "/" a)%bool then a +:+ b
  else a +:+ "/" +:+ b.

(** [os.path.basename]: what follows the last slash. *)
Fixpoint basename (p : string) : string :=
  match p with
  | EmptyString => EmptyString
  | String c r =>
      if existsb (Ascii.eqb "/") (list_ascii_of_string r) then basename r
      else if Ascii.eqb c "/" then r else p
  end.

(** [fnmatch.fnmatch(name, pat)] for patterns without an opening bracket:
    [*] stands for any run of characters, [?] for any one character, every
    other character for itself.  (In a pattern with [[] the matcher reads a
    character class, which this function does not.)  The locator's theorems
    hold for any matcher; this one is used where a concrete run is
    evaluated, on patterns without brackets. *)
Fixpoint fnmatch_wild_pat (pat : string) : string -> bool :=
  match pat with
  | EmptyString => fun name => String.eqb name ""
  | String p pat' =>
      if Ascii.eqb p "*" then
        fix star (name : string) : bool :=
          (fnmatch_wild_pat pat' name ||
           match name with
           | EmptyString => false
           | String _ name' => star name'
           end)%bool
      else if Ascii.eqb p "?" then
        fun name =>
          match name with
          | EmptyString => false
          | String _ name' => fnmatch_wild_pat pat' name'
          end
      else
        fun name =>
          match name with
          | EmptyString => false
          | String c name' => (Ascii.eqb c p && fnmatch_wild_pat pat' name')%bool
          end
  end.

Definition fnmatch_wild (name pat : string) : bool := fnmatch_wild_pat pat name.

End Str.

(** ** Exceptions, logging and the world monad *)

Inductive exn_class :=
| RuntimeError | AttributeError | ValueError | OSError
| TimeoutExpired | MultipleObjectsReturned | TypeError.

Record exn := Exn { exn_cls : exn_class; exn_msg : string }.

Inductive result (A : Type) :=
| Ok (a : A)
| Raise (e : exn).
Arguments Ok {A} a.
Arguments Raise {A} e.

(** A computation over a world [W]: it returns or raises, and leaves a world. *)
Definition M (W A : Type) : Type := W -> result A * W.

Definition ret {W A} (a : A) : M W A := fun w => (Ok a, w).

Definition bind {W A B} (m : M W A) (k : A -> M W B) : M W B :=
  fun w =>
    match m w with
    | (Ok a, w') => k a w'
    | (Raise e, w') => (Raise e, w')
    end.

Definition raise {W A} (e : exn) : M W A := fun w => (Raise e, w).

(** [try: body  except <classes>: handler] *)
Definition try_except {W A} (body : M W A) (catches : exn -> bool)
    (handler : exn -> M W A) : M W A :=
  fun w =>
    match body w with
    | (Raise e, w') => if catches e then handler e w' else (Raise e, w')
    | r => r
    end.

(** [for x in xs: body x] *)
Fixpoint for_each {W A} (xs : list A) (body : A -> M W unit) : M W unit :=
  match xs with
  | [] => ret tt
  | x :: rest => bind (body x) (fun _ => for_each rest body)
  end.

Declare Scope py_scope.
Delimit Scope py_scope with py.
Notation "x <- m ;; k" := (bind m (fun x => k))
  (at level 100, m at next level, right associativity) : py_scope.
Notation "m ;;; k" := (bind m (fun _ => k))
  (at level 100, right associativity) : py_scope.

(** Python values that reach the command line and the log. *)
Inductive pyval :=
| PNone
| PStr (s : string).

Definition truthy (v : pyval) : bool :=
  match v with
  | PNone => false
  | PStr s => negb (String.eqb s "")
  end.

(** [str(v)] and the f-string rendering [{v}]. *)
Definition py_str (v : pyval) : string :=
  match v with
  | PNone => "None"
  | PStr s => s
  end.

Inductive level := DEBUG | INFO | WARNING | ERROR | FATAL.

Inductive logarg :=
| LVal (v : pyval)
| LInt (z : Z)
| LCmd (cmd : list string).

(** A call [logging.<level>(fmt, *args)]. *)
Record log_record := Log { log_level : level; log_fmt : string; log_args : list logarg }.

Definition log {W} (append : log_record -> W -> W) (lv : level) (fmt : string)
    (args : list logarg) : M W unit :=
  fun w => (Ok tt, append (Log lv fmt args) w).

(** ** Dates: [datetime], [timedelta] and [strftime] *)

Module Datetime.

(** A naive [datetime] is its count of microseconds since 1970-01-01T00:00:00. *)
Definition datetime := Z.

Definition usec_per_day : Z := 86400 * 1000000.

(** [timedelta(days=d)] *)
Definition timedelta_days (d : Z) : Z := d * usec_per_day.

(** Year, month and day of a count of days since 1970-01-01 (proleptic
    Gregorian calendar, as [datetime] keeps it). *)
Definition civil_of_days (days : Z) : Z * Z * Z :=
  let z := days + 719468 in
  let era := z / 146097 in
  let doe := z - era * 146097 in
  let yoe := (doe - doe / 1460 + doe / 36524 - doe / 146096) / 365 in
  let doy := doe - (365 * yoe + yoe / 4 - yoe / 100) in
  let mp := (5 * doy + 2) / 153 in
  let d := doy - (153 * mp + 2) / 5 + 1 in
  let m := if mp <? 10 then mp + 3 else mp - 9 in
  let y := yoe + era * 400 + (if m <=? 2 then 1 else 0) in
  (y, m, d).

Definition digit (n : Z) : ascii := ascii_of_nat (48 + Z.to_nat (n mod 10)).

(** [n] in decimal, zero-padded to [width] digits. *)
Fixpoint pad_dec (width : nat) (n : Z) : string :=
  match width with
  | O => ""
  | S w => pad_dec w (n / 10) +:+ String (digit n) ""
  end.

(** [datetime.strftime(t, "%Y-%m-%dT%H:%M:%S.%fZ")] *)
Definition strftime_iso (t : datetime) : string :=
  let '(y, m, d) := civil_of_days (t / usec_per_day) in
  let us := t mod usec_per_day in
  let secs := us / 1000000 in
  pad_dec 4 y +:+ "-" +:+ pad_dec 2 m +:+ "-" +:+ pad_dec 2 d +:+ "T" +:+
  pad_dec 2 (secs / 3600) +:+ ":" +:+ pad_dec 2 (secs / 60 mod 60) +:+ ":" +:+
  pad_dec 2 (secs mod 60) +:+ "." +:+ pad_dec 6 (us mod 1000000) +:+ "Z".

End Datetime.

(** ** [analyze.py]: the analysis runner *)

Module Analyze.

(** The work directory: the files of a directory and its subdirectories by
    name, in the order [os.scandir] lists them. *)
Inductive dir :=
| Dir (files : list string) (subdirs : list (string * dir)).

(** [os.walk(top)], top-down: the directory itself, then each subdirectory
    in turn.  Each entry is the directory's path and its file names. *)
Fixpoint walk (top : string) (d : dir) : list (string * list string) :=
  match d with
  | Dir files subdirs =>
      (top, files) ::
      (fix walk_subdirs (l : list (string * dir)) : list (string * list string) :=
         match l with
         | [] => []
         | (name, sub) :: rest => walk (Str.path_join top name) sub ++ walk_subdirs rest
         end) subdirs
  end.

(** [filename in files] *)
Definition py_in (filename : string) (files : list string) : bool :=
  existsb (String.eqb filename) files.

(** The inner loop of the first walk: the first [file] of the directory
    with [fnmatch.fnmatch(file, filename)]. *)
Fixpoint first_fnmatch (fnmatch : string -> string -> bool) (filename : string)
    (files : list string) : option string :=
  match files with
  | [] => None
  | file :: rest =>
      if fnmatch file filename then Some file else first_fnmatch fnmatch filename rest
  end.

(** The first [for root, _, files in os.walk(...)] loop of
    [find_output_file]: in each directory an exact name first, then the
    glob match. *)
Fixpoint first_walk (fnmatch : string -> string -> bool) (filename : string)
    (entries : list (string * list string)) : option string :=
  match entries with
  | [] => None
  | (root, files) :: rest =>
      if py_in filename files then Some (Str.path_join root filename)
      else
        match first_fnmatch fnmatch filename files with
        | Some file => Some (Str.path_join root file)
        | None => first_walk fnmatch filename rest
        end
  end.

(** The second loop: exact names only. *)
Fixpoint second_walk (filename : string) (entries : list (string * list string))
    : option string :=
  match entries with
  | [] => None
  | (root, files) :: rest =>
      if py_in filename files then Some (Str.path_join root filename)
      else second_walk filename rest
  end.

(** [find_output_file]: [None] is Python's [None]. *)
Definition find_output_file (fnmatch : string -> string -> bool)
    (work_directory_name : string) (tree : dir) (filename : string) : option string :=
  match first_walk fnmatch filename (walk work_directory_name tree) with
  | Some path => Some path
  | None => second_walk filename (walk work_directory_name tree)
  end.

(** [find_output_file] with its trailing second loop removed. *)
Definition find_output_file_one_walk (fnmatch : string -> string -> bool)
    (work_directory_name : string) (tree : dir) (filename : string) : option string :=
  first_walk fnmatch filename (walk work_directory_name tree).

(** *** Keyword arguments *)

(** [**kwargs]: a dict, in insertion order, its keys unique. *)
Definition kwargs := list (string * pyval).

Fixpoint dict_lookup (key : string) (d : kwargs) : option pyval :=
  match d with
  | [] => None
  | (k, v) :: rest => if String.eqb k key then Some v else dict_lookup key rest
  end.

(** [key in d] *)
Definition dict_mem (key : string) (d : kwargs) : bool :=
  match dict_lookup key d with Some _ => true | None => false end.

(** [d.get(key)]: [None] when the key is absent. *)
Definition dict_get (key : string) (d : kwargs) : pyval :=
  match dict_lookup key d with Some v => v | None => PNone end.

(** [d[key] = v]: in place when the key is there, appended otherwise. *)
Fixpoint dict_set (key : string) (v : pyval) (d : kwargs) : kwargs :=
  match d with
  | [] => [(key, v)]
  | (k, v') :: rest =>
      if String.eqb k key then (k, v) :: rest else (k, v') :: dict_set key v rest
  end.

(** What the flag loop appends for a value: the empty string for [None],
    [str(value)] otherwise. *)
Definition flag_value (value : pyval) : string :=
  match value with
  | PNone => ""
  | _ => py_str value
  end.

(** One turn of [for key, value in kwargs.items()]: the flag, then its value. *)
Definition flag_pair (kv : string * pyval) : list string :=
  [ "--" +:+ fst kv; flag_value (snd kv) ].

Fixpoint flag_loop (cmd : list string) (items : kwargs) : list string :=
  match items with
  | [] => cmd
  | kv :: rest => flag_loop (cmd ++ flag_pair kv) rest
  end.

(** The command line [_execute_assertion] builds, and the [kwargs] it leaves,
    when [datetime.now()] gives [now]. *)
Definition assertion_command (now : Datetime.datetime) (kw : kwargs)
    : kwargs * list string :=
  let cmd := ["python"; "oaf.py"; "--verbose"; "generate"] in
  let '(kw, cmd) :=
    if negb (dict_mem "expiration" kw) then
      (dict_set "expiration"
         (PStr (Datetime.strftime_iso (now + Datetime.timedelta_days (2 * 365)))) kw,
       cmd)
    else (kw, cmd ++ ["--expiration=" +:+ py_str (dict_get "expiration" kw)]) in
  let cmd :=
    if truthy (dict_get "signer" kw)
    then cmd ++ ["--signer=" +:+ py_str (dict_get "signer" kw)]
    else cmd in
  (kw, flag_loop cmd kw).

(** *** The runner and what surrounds it *)

(** The fields of [AnalysisRunner] the methods read. *)
Record runner := Runner {
  docker_container : string;
  package_url : string;
  repository : string;
  signer : pyval;
  work_directory_name : string;
  env : gmap string string
}.

Inductive stream := Stdout | Stderr.

(** A container run: what it writes, line by line, on which stream, and its
    exit code. *)
Record process := Process {
  proc_output : list (stream * string);
  proc_exit : Z
}.

(** What [subprocess.run(cmd, check=False, capture_output=True)] does: it
    raises (the program cannot be started, ...) or completes. *)
Inductive completed :=
| RunRaised (e : exn)
| Completed (returncode : Z) (stdout stderr : string).

(** A call of [subprocess.run]: its command line and environment.  The call
    starts a process unless it raises before there is one. *)
Record spawn := Spawn { spawn_cmd : list string; spawn_env : gmap string string }.

(** The machine around a run.  [assertion_cli n] and [clock n] answer the
    call made when [n] calls of the assertion generator were made before.
    [w_spawned] below holds these calls, in order, whether they raised or
    completed. *)
Record host := Host {
  fnmatch : string -> string -> bool;
  tree : dir;
  environ : gmap string string;
  container : list string -> process;
  assertion_cli : nat -> spawn -> completed;
  clock : nat -> Datetime.datetime
}.

Record world := World {
  w_log : list log_record;
  w_files : list (string * string);
  w_docker_cmdline : pyval;
  w_spawned : list spawn
}.

Definition append_log (r : log_record) (w : world) : world :=
  World (w_log w ++ [r]) (w_files w) (w_docker_cmdline w) (w_spawned w).

Definition logging := @log world append_log.

(** [open(path, "w").write(text)] *)
Definition write_file (path text : string) : M world unit :=
  fun w => (Ok tt, World (w_log w) (w_files w ++ [(path, text)]) (w_docker_cmdline w) (w_spawned w)).

Definition set_docker_cmdline (text : string) : M world unit :=
  fun w => (Ok tt, World (w_log w) (w_files w) (PStr text) (w_spawned w)).

(** [shlex.quote] and [shlex.join] *)
Definition shlex_safe (c : ascii) : bool :=
  let n := nat_of_ascii c in
  ((Nat.leb 48 n && Nat.leb n 57) || (Nat.leb 65 n && Nat.leb n 90) ||
   (Nat.leb 97 n && Nat.leb n 122) ||
   existsb (Ascii.eqb c) (list_ascii_of_string "_@%+=:,./-"))%bool.

Definition dquote : string := String (ascii_of_nat 34) "".

Fixpoint shlex_escape (s : string) : string :=
  match s with
  | EmptyString => EmptyString
  | String c r =>
      if Ascii.eqb c "'" then "'" +:+ dquote +:+ "'" +:+ dquote +:+ "'" +:+ shlex_escape r
      else String c (shlex_escape r)
  end.

Definition shlex_quote (s : string) : string :=
  if String.eqb s "" then "''"
  else if forallb shlex_safe (list_ascii_of_string s) then s
  else "'" +:+ shlex_escape s +:+ "'".

Definition shlex_join (cmd : list string) : string :=
  String.concat " " (map shlex_quote cmd).

(** [l.index(x)]: [None] stands for [ValueError]. *)
Fixpoint py_index (x : string) (l : list string) : option nat :=
  match l with
  | [] => None
  | y :: rest => if String.eqb y x then Some O else option_map S (py_index x rest)
  end.

(** [l.insert(i, x)] *)
Definition py_insert (i : nat) (x : string) (l : list string) : list string :=
  take i l ++ x :: drop i l.

(** [execute_docker_container].  The process is opened with
    [stdout=PIPE, stderr=STDOUT]: both streams arrive on [res.stdout], and
    the attribute [res.stderr] is [None]. *)
Definition execute_docker_container (h : host) (self : runner) : M world unit :=
  (logging INFO "Running Omega analysis toolchain" [] ;;;
   let cmd := ["docker"; "run"; "--rm"; "-t"; "-v";
               work_directory_name self +:+ ":/opt/export";
               "--env-file"; ".env"; docker_container self; package_url self] in
   cmd <- match environ h !! "OMEGA_DOCKER_CPUS" with
          | Some cpus =>
              if negb (String.eqb cpus "") then
                match py_index "-t" cmd with
                | Some i => ret (py_insert i ("--cpus=" +:+ cpus) cmd)
                | None => raise (Exn ValueError "'-t' is not in list")
                end
              else ret cmd
          | None => ret cmd
          end ;;
   set_docker_cmdline (shlex_join cmd) ;;;
   write_file (work_directory_name self +:+ "/top-execute-cmd.txt") (shlex_join cmd) ;;;
   logging DEBUG "Running command: %s" [LCmd cmd] ;;;
   let res := container h cmd in
   let res_stdout := map snd (proc_output res) in
   let res_stderr := PNone in
   for_each res_stdout (fun line => logging DEBUG (Str.rstrip line) []) ;;;
   if negb (proc_exit res =? 0) then
     raise (Exn RuntimeError ("Error running docker container: " +:+ py_str res_stderr))
   else ret tt)%py.

(** [subprocess.run(cmd, check=False, capture_output=True, env=_env)] *)
Definition subprocess_run (h : host) (cmd : list string) (_env : gmap string string)
    : M world (Z * string * string) :=
  fun w =>
    let sp := Spawn cmd _env in
    let w' := World (w_log w) (w_files w) (w_docker_cmdline w) (w_spawned w ++ [sp]) in
    match assertion_cli h (length (w_spawned w)) sp with
    | RunRaised e => (Raise e, w')
    | Completed returncode stdout stderr => (Ok (returncode, stdout, stderr), w')
    end.

(** [datetime.now()] *)
Definition datetime_now (h : host) : M world Datetime.datetime :=
  fun w => (Ok (clock h (length (w_spawned w))), w).

(** [_execute_assertion]: executes a single assertion. *)
Definition _execute_assertion (h : host) (self : runner) (kw : kwargs) : M world unit :=
  (logging INFO "Running assertion %s" [LVal (dict_get "assertion" kw)] ;;;
   now <- datetime_now h ;;
   let '(kw, cmd) := assertion_command now kw in
   logging DEBUG "Running command: %s" [LCmd cmd] ;;;
   let _env := env self ∪ environ h in
   res <- subprocess_run h cmd _env ;;
   let '(returncode, stdout, stderr) := res in
   if negb (returncode =? 0) then
     logging DEBUG "Error Code: %d" [LInt returncode] ;;;
     logging DEBUG ("Output:" +:+ Str.nl +:+ "%s") [LVal (PStr stdout)] ;;;
     logging DEBUG ("Error:" +:+ Str.nl +:+ "%s") [LVal (PStr stderr)]
   else ret tt)%py.

(** [except Exception]: every class of [exn_class] derives from it. *)
Definition is_Exception (e : exn) : bool := true.

(** [_execute_assertion_noexcept] *)
Definition _execute_assertion_noexcept (h : host) (self : runner) (kw : kwargs)
    : M world unit :=
  try_except
    (if (dict_mem "input-file" kw && negb (truthy (dict_get "input-file" kw)))%bool then
       logging WARNING "Skipping assertion because input file is not set." []
     else _execute_assertion h self kw)
    is_Exception
    (fun msg => logging ERROR "Error executing assertion: %s" [LVal (PStr (exn_msg msg))]).

(** The value [find_output_file] hands to [**kwargs]. *)
Definition located (h : host) (self : runner) (filename : string) : pyval :=
  match find_output_file (fnmatch h) (work_directory_name self) (tree h) filename with
  | Some path => PStr path
  | None => PNone
  end.

(** [execute_assertions]: execute all assertions. *)
Definition execute_assertions (h : host) (self : runner) : M world unit :=
  (_execute_assertion_noexcept h self
     [("assertion", PStr "SecurityScorecard"); ("subject", PStr (package_url self));
      ("repository", PStr (repository self)); ("signer", signer self)] ;;;
   _execute_assertion_noexcept h self
     [("assertion", PStr "SecurityAdvisory"); ("subject", PStr (package_url self));
      ("repository", PStr (repository self)); ("signer", signer self)] ;;;
   _execute_assertion_noexcept h self
     [("assertion", PStr "Reproducible"); ("subject", PStr (package_url self));
      ("repository", PStr (repository self)); ("signer", signer self)] ;;;
   for_each ["tool-semgrep.sarif"; "tool-devskim.sarif";
             "tool-codeql-basic.javascript.sarif"; "tool-snyk-code.sarif"]
     (fun _filename =>
        _execute_assertion_noexcept h self
          [("assertion", PStr "SecurityToolFinding"); ("subject", PStr (package_url self));
           ("input-file", located h self _filename);
           ("repository", PStr (repository self)); ("signer", signer self);
           ("extra-args", PStr "include_evidence=false")]) ;;;
   _execute_assertion_noexcept h self
     [("assertion", PStr "ProgrammingLanguage"); ("subject", PStr (package_url self));
      ("input-file", located h self "tool-application-inspector.json");
      ("repository", PStr (repository self)); ("signer", signer self)] ;;;
   _execute_assertion_noexcept h self
     [("assertion", PStr "Characteristic"); ("subject", PStr (package_url self));
      ("input-file", located h self "tool-application-inspector.json");
      ("repository", PStr (repository self)); ("signer", signer self)] ;;;
   _execute_assertion_noexcept h self
     [("assertion", PStr "CryptoImplementation"); ("subject", PStr (package_url self));
      ("input-file", located h self "tool-oss-detect-cryptography.txt");
      ("repository", PStr (repository self)); ("signer", signer self)] ;;;
   _execute_assertion_noexcept h self
     [("assertion", PStr "ClamAV"); ("subject", PStr (package_url self));
      ("input-file", located h self "tool-clamscan.txt");
      ("repository", PStr (repository self)); ("signer", signer self)] ;;;
   _execute_assertion_noexcept h self
     [("assertion", PStr "Metadata"); ("subject", PStr (package_url self));
      ("input-file", located h self "tool-metadata-native.json");
      ("repository", PStr (repository self)); ("signer", signer self)])%py.

End Analyze.

(** ** [policy.py]: the policy refresher *)

Module Policy.

Inductive subject_type :=
| SUBJECT_TYPE_PACKAGE_URL
| SUBJECT_TYPE_OTHER (code : string).

(** A row of the Subject table. *)
Record subject := Subject {
  subject_pk : nat;
  identifier : string;
  s_type : subject_type
}.

(** A row of the Assertion table; [content] is the text
    [json.dumps(assertion.content, indent=2)] gives. *)
Record assertion := Assertion {
  uuid : string;
  a_subject : nat;
  content : string
}.

(** [PolicyEvaluationResult.Status] *)
Inductive status := PASSED | FAILED | INDETERMINATE | UNKNOWN.

(** A row of the PolicyEvaluationResult table: the policy by its unique
    identifier, the subject by its key. *)
Record evaluation := Evaluation {
  e_policy : string;
  e_subject : nat;
  e_status : status;
  e_evaluated_by : string
}.

(** One object of the evaluator's JSON array: [policy_identifier] and
    [policy_name] are strings, [state] is a string or is missing. *)
Record verdict := Verdict {
  policy_identifier : string;
  policy_name : string;
  state : option string
}.

(** The calls made on the object managers, in order. *)
Inductive db_call :=
| GetOrCreatePolicy (identifier : string)
| DeleteResults (subject : nat)
| UpdateOrCreateResult (row : evaluation).

Inductive fs_event :=
| MkTemp (d : string)
| WriteFile (path text : string)
| Cleanup (d : string).

(** JSON values by the name of their Python type: the scalars that are not
    strings; the values without a method [get], which are not objects; the
    values without a method [lower], which are not strings. *)
Inductive scalar := NoneType | py_bool | py_int | py_float.

Inductive no_get := GetScalar (a : scalar) | GetList | GetStr.

Inductive no_lower := LowerScalar (a : scalar) | LowerList | LowerDict.

Definition scalar_name (a : scalar) : string :=
  match a with
  | NoneType => "NoneType" | py_bool => "bool" | py_int => "int" | py_float => "float"
  end.

Definition no_get_name (t : no_get) : string :=
  match t with
  | GetScalar a => scalar_name a | GetList => "list" | GetStr => "str"
  end.

Definition no_lower_name (t : no_lower) : string :=
  match t with
  | LowerScalar a => scalar_name a | LowerList => "list" | LowerDict => "dict"
  end.

(** The first item of the output that the loop cannot handle: an item that
    is not an object, or an object whose [state] is there but is not a
    string ([null], a number, ...).  [policy_identifier] and [policy_name]
    are taken to be strings. *)
Inductive misfit :=
| NotAnObject (t : no_get)
| StateNotString (policy_identifier policy_name : string) (t : no_lower).

(** What [json.loads] makes of a text, as the loop over [results] meets it:
    it raises; it gives an array of verdicts; it gives a scalar, over which
    the loop cannot run; or it gives verdicts followed by an item the loop
    cannot handle (an array with such an item; an object or a string that
    is not empty, whose keys or characters are strings). *)
Inductive parse :=
| Unparsable (msg : string)
| Parsed (results : list verdict)
| NotIterable (a : scalar)
| Illtyped (results : list verdict) (next : misfit).

(** The evaluator's standard output: its text, and how it parses. *)
Record output := Output {
  out_text : string;
  out_json : parse
}.

(** What [subprocess.run(..., timeout=60*60*2)] does: it runs out of time,
    it returns the completed process, or it raises something else (the
    program or the directory is missing, the command is refused, ...). *)
Inductive finished :=
| Expired
| Returned (returncode : Z) (stdout : output) (stderr : string)
| Failed (e : exn).

Record call := Call {
  call_cmd : list string;
  call_cwd : string;
  call_timeout : Z
}.

(** The machine around a refresh.  [evaluator n] and [mkdtemp n] answer the
    call made when [n] evaluations have been started before. *)
Record host := Host {
  sys_executable : string;
  resolved_cwd : string;
  mkdtemp : nat -> string;
  evaluator : nat -> call -> finished
}.

Record world := World {
  w_log : list log_record;
  w_subjects : list subject;
  w_assertions : list assertion;
  w_policies : gmap string string;
  w_results : list evaluation;
  w_db : list db_call;
  w_fs : list fs_event;
  w_calls : list call
}.

Definition append_log (r : log_record) (w : world) : world :=
  World (w_log w ++ [r]) (w_subjects w) (w_assertions w) (w_policies w) (w_results w)
        (w_db w) (w_fs w) (w_calls w).

Definition logging := @log world append_log.

Definition fs (ev : fs_event) : M world unit :=
  fun w =>
    (Ok tt, World (w_log w) (w_subjects w) (w_assertions w) (w_policies w) (w_results w)
                  (w_db w) (w_fs w ++ [ev]) (w_calls w)).

(** [Subject.objects.all()] *)
Definition Subject_objects_all : M world (list subject) :=
  fun w => (Ok (w_subjects w), w).

(** [Assertion.objects.filter(subject=subject)] *)
Definition Assertion_objects_filter (s : subject) : M world (list assertion) :=
  fun w => (Ok (filter (fun a => a_subject a = subject_pk s) (w_assertions w)), w).

(** [Policy.objects.get_or_create(identifier=..., defaults={"name": ...})]:
    the name is set only when the policy is created. *)
Definition Policy_get_or_create (identifier name : string) : M world string :=
  fun w =>
    let policies :=
      match w_policies w !! identifier with
      | Some _ => w_policies w
      | None => <[identifier := name]> (w_policies w)
      end in
    (Ok identifier,
     World (w_log w) (w_subjects w) (w_assertions w) policies (w_results w)
           (w_db w ++ [GetOrCreatePolicy identifier]) (w_fs w) (w_calls w)).

#[global] Instance status_eq_dec : EqDecision status.
Proof. solve_decision. Defined.

#[global] Instance evaluation_eq_dec : EqDecision evaluation.
Proof. solve_decision. Defined.

(** [PolicyEvaluationResult.objects.filter(subject=subject).delete()] *)
Definition Results_delete (s : subject) : M world unit :=
  fun w =>
    (Ok tt,
     World (w_log w) (w_subjects w) (w_assertions w) (w_policies w)
           (filter (fun r => e_subject r ≠ subject_pk s) (w_results w))
           (w_db w ++ [DeleteResults (subject_pk s)]) (w_fs w) (w_calls w)).

(** [PolicyEvaluationResult.objects.update_or_create(policy=..., subject=...,
    status=..., evaluated_by=...)]: all four fields are the lookup and there
    are no defaults, so a row that is found is saved as it is, and a row
    that is not found is created; two rows found raise. *)
Definition Results_update_or_create (row : evaluation) : M world unit :=
  fun w =>
    let w' := World (w_log w) (w_subjects w) (w_assertions w) (w_policies w) (w_results w)
                    (w_db w ++ [UpdateOrCreateResult row]) (w_fs w) (w_calls w) in
    match filter (fun r => r = row) (w_results w) with
    | [] =>
        (Ok tt,
         World (w_log w) (w_subjects w) (w_assertions w) (w_policies w)
               (w_results w ++ [row]) (w_db w') (w_fs w) (w_calls w))
    | [_] => (Ok tt, w')
    | _ => (Raise (Exn MultipleObjectsReturned
                       "get() returned more than one PolicyEvaluationResult"), w')
    end.

(** [subprocess.run(cmd, cwd=..., capture_output=True, timeout=...)] *)
Definition subprocess_run (h : host) (c : call) : M world (Z * output * string) :=
  fun w =>
    let w' := World (w_log w) (w_subjects w) (w_assertions w) (w_policies w) (w_results w)
                    (w_db w) (w_fs w) (w_calls w ++ [c]) in
    match evaluator h (length (w_calls w)) c with
    | Expired => (Raise (Exn TimeoutExpired "Command timed out after 7200 seconds"), w')
    | Returned returncode stdout stderr => (Ok (returncode, stdout, stderr), w')
    | Failed e => (Raise e, w')
    end.

(** [with TemporaryDirectory() as tmpdir: body]: the directory is removed on
    every way out of the body. *)
Definition with_TemporaryDirectory {A} (h : host) (body : string -> M world A)
    : M world A :=
  fun w =>
    let tmpdir := mkdtemp h (length (w_calls w)) in
    match fs (MkTemp tmpdir) w with
    | (_, w1) =>
        match body tmpdir w1 with
        | (r, w2) => (r, snd (fs (Cleanup tmpdir) w2))
        end
    end.

(** Lines 70 to 78: the evaluator's [state], lower-cased and stripped, as a
    [PolicyEvaluationResult.Status].  A missing [state] reads as [""].  A
    [state] that is there but is not a string does not get here: [.lower()]
    raises, see [upsert_misfit]. *)
Definition normalize_status (state : option string) : status :=
  let _status := Str.strip (Str.lower (default "" state)) in
  if String.eqb _status "pass" then PASSED
  else if (String.eqb _status "fail" || String.eqb _status "failed")%bool then FAILED
  else if negb (String.eqb _status "") then INDETERMINATE
  else UNKNOWN.

Definition status_name (s : status) : string :=
  match s with
  | PASSED => "PASSED" | FAILED => "FAILED"
  | INDETERMINATE => "INDETERMINATE" | UNKNOWN => "UNKNOWN"
  end.

Definition evaluated_by : string := "org.openssf.alpha-omega.oaf".

(** The body of [for result in results], with the flag [already_cleared]
    carried from one turn to the next. *)
Fixpoint upsert_results (s : subject) (clear_first already_cleared : bool)
    (results : list verdict) : M world unit :=
  match results with
  | [] => ret tt
  | result :: rest =>
      (policy <- Policy_get_or_create (policy_identifier result) (policy_name result) ;;
       let status := normalize_status (state result) in
       logging DEBUG "Policy %s for %s is %s"
         [LVal (PStr policy); LVal (PStr (identifier s)); LVal (PStr (status_name status))] ;;;
       already_cleared <-
         (if (clear_first && negb already_cleared)%bool
          then (Results_delete s ;;; ret true)
          else ret already_cleared) ;;
       Results_update_or_create (Evaluation policy (subject_pk s) status evaluated_by) ;;;
       upsert_results s clear_first already_cleared rest)%py
  end.

(** The turn of the loop for an item it cannot handle: [result.get] fails on
    an item that is not an object, before anything is stored; [.lower()]
    fails on a [state] that is not a string, after the policy was looked
    up and before any result is deleted or written. *)
Definition upsert_misfit (next : misfit) : M world unit :=
  match next with
  | NotAnObject t =>
      raise (Exn AttributeError
               ("'" +:+ no_get_name t +:+ "' object has no attribute 'get'"))
  | StateNotString policy_identifier policy_name t =>
      (_ <- Policy_get_or_create policy_identifier policy_name ;;
       raise (Exn AttributeError
                ("'" +:+ no_lower_name t +:+ "' object has no attribute 'lower'")))%py
  end.

(** [res.<attr>] in the timeout handler: [res] is what it was before the
    [try], since [subprocess.run] raised instead of returning. *)
Definition getattr {A} (res : option (Z * output * string)) (attr : string)
    (proj : Z * output * string -> A) : M world A :=
  match res with
  | None => raise (Exn AttributeError
                     ("'NoneType' object has no attribute '" +:+ attr +:+ "'"))
  | Some r => ret (proj r)
  end.

Definition is_TimeoutExpired (e : exn) : bool :=
  match exn_cls e with TimeoutExpired => true | _ => false end.

(** [refresh_policies(subject, clear_first)] for a given subject. *)
Definition refresh_policies_subject (h : host) (s : subject) (clear_first : bool)
    : M world unit :=
  (logging DEBUG "Refreshing policies for %s" [LVal (PStr (identifier s))] ;;;
   match s_type s with
   | SUBJECT_TYPE_OTHER code =>
       logging WARNING "Invalid subject type: %s" [LVal (PStr code)]
   | SUBJECT_TYPE_PACKAGE_URL =>
       with_TemporaryDirectory h (fun tmpdir =>
         assertions <- Assertion_objects_filter s ;;
         for_each assertions (fun a =>
           fs (WriteFile (Str.path_join tmpdir (uuid a +:+ ".json")) (content a))) ;;;
         let res : option (Z * output * string) := None in
         try_except
           (res <- subprocess_run h
                     (Call [sys_executable h; "oaf.py"; "--verbose"; "consume";
                            "--repository"; "flatdir:" +:+ tmpdir;
                            "--subject"; identifier s]
                           (Str.path_join (resolved_cwd h) "../../../omega/oaf/omega")
                           (60 * 60 * 2)) ;;
            let '(returncode, stdout, stderr) := res in
            if returncode =? 0 then
              match out_json stdout with
              | Unparsable msg =>
                  logging WARNING "Error parsing oaf output: %s" [LVal (PStr msg)]
              | Parsed results => upsert_results s clear_first false results
              | NotIterable a =>
                  raise (Exn TypeError ("'" +:+ scalar_name a +:+ "' object is not iterable"))
              | Illtyped results next =>
                  upsert_results s clear_first false results ;;;
                  upsert_misfit next
              end
            else
              logging WARNING "Error evaluating assertion, return code: %d" [LInt returncode] ;;;
              logging WARNING "STDOUT: %s" [LVal (PStr (out_text stdout))] ;;;
              logging WARNING "STDERR: %s" [LVal (PStr stderr)])
           is_TimeoutExpired
           (fun _ =>
              logging WARNING "Timeout evaluating assertion" [] ;;;
              out <- getattr res "stdout" (fun r => out_text (snd (fst r))) ;;
              logging WARNING "STDOUT: %s" [LVal (PStr out)] ;;;
              err <- getattr res "stderr" snd ;;
              logging WARNING "STDERR: %s" [LVal (PStr err)]))
   end)%py.

(** [refresh_policies]: re-evaluates policies; with no subject, for every
    subject in turn. *)
Definition refresh_policies (h : host) (s : option subject) (clear_first : bool)
    : M world unit :=
  match s with
  | None =>
      (logging DEBUG "Refreshing policies for all subjects" [] ;;;
       subjects <- Subject_objects_all ;;
       for_each subjects (fun subject => refresh_policies_subject h subject clear_first))%py
  | Some subject => refresh_policies_subject h subject clear_first
  end.

End Policy.

(** ** [analyze.py]: the run as a whole, and the runner's life cycle *)

Module Run.
Import Analyze.


End Run.

(** ** [analyze.py]: making the runner and letting it go *)

Module Setup.

(** The arguments of [AnalysisRunner(...)]. *)
Record arguments := Args {
  arg_package_url : string;
  arg_docker_container : string;
  arg_repository : string;
  arg_signer : pyval;
  arg_work_directory : pyval
}.

(** [self.work_directory]: the path that was given, or a
    [tempfile.TemporaryDirectory] with its name. *)
Inductive work_dir :=
| GivenPath (path : string)
| TemporaryDirectory (name : string).

(** The object [__init__] leaves: the fields the methods read,
    [work_directory] and [docker_cmdline]. *)
Record instance := Instance {
  fields : Analyze.runner;
  work_directory : work_dir;
  docker_cmdline : pyval
}.

(** The calls that leave the class, in the order they are made. *)
Inductive os_call :=
| IsCommandAvailable (command : list string)
| IsFile (path : string)
| DotenvValues (path : string)
| GetPackageUrlWithVersion (package_url : string)
| NewTemporaryDirectory (prefix : string)
| MakeDirs (name : string)
| ListDir (name : string)
| Cleanup (name : string).

(** The machine around the class: what each call answers.  [os.path.isfile]
    does not raise; the others return or raise.  [py_repr] is [repr] on a
    string. *)
Record host := Host {
  is_command_available : list string -> result bool;
  isfile : string -> bool;
  dotenv_values : string -> result (gmap string string);
  get_package_url_with_version : string -> result string;
  mkdtemp : string -> result string;
  makedirs : string -> result unit;
  listdir : string -> result (list string);
  cleanup : string -> result unit;
  py_repr : string -> string
}.

Record world := World {
  w_log : list log_record;
  w_calls : list os_call
}.

Definition append_log (r : log_record) (w : world) : world :=
  World (w_log w ++ [r]) (w_calls w).

Definition logging := @log world append_log.

(** A call that leaves the class, and its answer. *)
Definition call {A} (c : os_call) (answer : result A) : M world A :=
  fun w => (answer, World (w_log w) (w_calls w ++ [c])).

(** [repr] of a list of strings, as the f-string renders [{command}]. *)
Definition py_repr_list (h : host) (l : list string) : string :=
  "[" +:+ String.concat ", " (map (py_repr h) l) +:+ "]".

Definition required_commands (docker_container : string) : list (list string) :=
  [["python"; "-V"];
   ["dotnet"; "--info"];
   ["RecursiveExtractor"; "--help"];
   ["docker"; "--help"];
   ["docker"; "image"; "inspect"; docker_container];
   ["oss-find-source"; "--help"]].

(** [self.work_directory_name], and [_wd]: the path itself, or the name of
    the temporary directory. *)
Definition name_of (d : work_dir) : string :=
  match d with
  | GivenPath path => path
  | TemporaryDirectory name => name
  end.

(** [__init__]: [EnvironmentError] is [OSError]. *)
Definition __init__ (h : host) (a : arguments) : M world instance :=
  (let docker_cmdline := PNone in
   for_each (required_commands (arg_docker_container a)) (fun command =>
     available <- call (IsCommandAvailable command) (is_command_available h command) ;;
     if negb available then
       raise (Exn OSError ("Required command " +:+ py_repr_list h command +:+
                           " is not available."))
     else ret tt) ;;;
   is_file <- call (IsFile ".env") (Ok (isfile h ".env")) ;;
   if negb is_file then raise (Exn OSError "Missing .env file.") else
   env <- call (DotenvValues ".env") (dotenv_values h ".env") ;;
   package_url <- call (GetPackageUrlWithVersion (arg_package_url a))
                       (get_package_url_with_version h (arg_package_url a)) ;;
   work_directory <-
     (if truthy (arg_work_directory a)
      then ret (GivenPath (py_str (arg_work_directory a)))
      else name <- call (NewTemporaryDirectory "omega-") (mkdtemp h "omega-") ;;
           ret (TemporaryDirectory name)) ;;
   let work_directory_name := name_of work_directory in
   logging DEBUG "Output (work) directory: %s" [LVal (PStr work_directory_name)] ;;;
   call (MakeDirs work_directory_name) (makedirs h work_directory_name) ;;;
   let _wd := name_of work_directory in
   entries <- call (ListDir _wd) (listdir h _wd) ;;
   match entries with
   | _ :: _ =>
       logging FATAL "Output directory (%s) must be empty." [LVal (PStr work_directory_name)] ;;;
       raise (Exn OSError "Output directory must be empty.")
   | [] =>
       ret (Instance (Analyze.Runner (arg_docker_container a) package_url (arg_repository a)
                                     (arg_signer a) work_directory_name env)
                     work_directory docker_cmdline)
   end)%py.

Definition __enter__ (self : instance) : instance := self.

(** [__exit__]: clean up after ourselves. *)
Definition __exit__ (h : host) (self : instance) : M world unit :=
  match work_directory self with
  | TemporaryDirectory name =>
      try_except (call (Cleanup name) (cleanup h name))
        Analyze.is_Exception
        (fun _ =>
           logging WARNING "We were unable to clean up the directory: %s"
             [LVal (PStr (Analyze.work_directory_name (fields self)))])
  | GivenPath _ => ret tt
  end.

(** [with AnalysisRunner(...) as runner: body].  [__exit__] returns [None]:
    what the body raised is raised again after it, unless it raises
    itself. *)
Definition with_AnalysisRunner {A} (h : host) (a : arguments)
    (body : instance -> M world A) : M world A :=
  (self <- __init__ h a ;;
   fun w =>
     match body (__enter__ self) w with
     | (r, w1) =>
         match __exit__ h self w1 with
         | (Ok _, w2) => (r, w2)
         | (Raise e, w2) => (Raise e, w2)
         end
     end)%py.

End Setup.

(** ** Statements about the locator *)

Module LocatorSpec.
Import Analyze.

(** Some directory of the tree holds a file named exactly [filename]. *)
Definition exact_match_in_tree (top : string) (t : dir) (filename : string) : Prop :=
  ∃ root files, (root, files) ∈ walk top t ∧ filename ∈ files.

(** The tree-wide reading of the preference: whenever some directory holds
    the exact name, the exact name of one such directory is what is
    returned. *)
Definition exact_preferred_tree_wide (fnmatch : string -> string -> bool)
    (top : string) (t : dir) (filename : string) : Prop :=
  exact_match_in_tree top t filename →
  ∃ root files,
    (root, files) ∈ walk top t ∧ filename ∈ files ∧
    find_output_file fnmatch top t filename = Some (Str.path_join root filename).

(** No file of the directory entries matches, by name or by pattern. *)
Definition no_match (fnmatch : string -> string -> bool) (filename : string)
    (entries : list (string * list string)) : Prop :=
  ∀ root files file,
    (root, files) ∈ entries → file ∈ files →
    file ≠ filename ∧ fnmatch file filename = false.

(** A work directory with a scanner's report in [a] and, in [b], a file
    whose name is the pattern itself. *)
Definition sarif_tree : dir :=
  Dir [] [("a", Dir ["tool-x.sarif"] []); ("b", Dir ["*.sarif"] [])].

End LocatorSpec.

(** ** Statements about the assertion invoker *)

Module InvokerSpec.
Import Analyze.

Definition base_command : list string := ["python"; "oaf.py"; "--verbose"; "generate"].

(** The key is bound by this entry of the dictionary, and by none before it. *)
Definition binds (kw : kwargs) (k1 : kwargs) (key : string) (v : pyval) (k2 : kwargs)
    : Prop :=
  kw = k1 ++ (key, v) :: k2 ∧ key ∉ map fst k1.

(** The [--signer=...] argument written before the flag loop. *)
Definition inline_signer (kw : kwargs) : list string :=
  if truthy (dict_get "signer" kw) then ["--signer=" +:+ py_str (dict_get "signer" kw)]
  else [].

(** The [--expiration=...] argument written before the flag loop, when
    [expiration] is supplied. *)
Definition inline_expiration (kw : kwargs) : list string :=
  match dict_lookup "expiration" kw with
  | Some v => ["--expiration=" +:+ py_str v]
  | None => []
  end.

(** The default, which the flag loop meets last, when it is not. *)
Definition default_expiration (now : Datetime.datetime) (kw : kwargs) : list string :=
  match dict_lookup "expiration" kw with
  | Some _ => []
  | None => ["--expiration"; Datetime.strftime_iso (now + Datetime.timedelta_days (2 * 365))]
  end.

(** The arguments of the flag loop. *)
Definition flags (items : kwargs) : list string := flat_map flag_pair items.

Definition has_equals (s : string) : bool :=
  existsb (Ascii.eqb "=") (list_ascii_of_string s).

(** Keyword arguments as the runner passes them: no key holds [=], and no
    value looks like a flag. *)
Definition tidy_item (kv : string * pyval) : Prop :=
  has_equals (fst kv) = false ∧ Str.startswith "--" (flag_value (snd kv)) = false.

Definition tidy (kw : kwargs) : Prop :=
  NoDup (map fst kw) ∧ Forall tidy_item kw.

(** An argument that passes the option [key]: the flag itself, or the flag
    with [=value] attached. *)
Definition passes (key arg : string) : bool :=
  (String.eqb arg ("--" +:+ key) || Str.startswith ("--" +:+ key +:+ "=") arg)%bool.

(** How many arguments of the command line pass the option [key]. *)
Definition emissions (key : string) (cmd : list string) : nat :=
  length (List.filter (passes key) cmd).

(** The call is skipped: it carries an [input-file] that is not set. *)
Definition skipped (kw : kwargs) : bool :=
  (dict_mem "input-file" kw && negb (truthy (dict_get "input-file" kw)))%bool.

(** The call of the generator an attempt makes when [n] were made before
    it. *)
Definition invocation (h : host) (self : runner) (n : nat) (kw : kwargs) : spawn :=
  Spawn (snd (assertion_command (clock h n) kw)) (env self ∪ environ h).

(** What is logged once the process is over. *)
Definition outcome_log (c : completed) : list log_record :=
  match c with
  | RunRaised e => [Log ERROR "Error executing assertion: %s" [LVal (PStr (exn_msg e))]]
  | Completed returncode stdout stderr =>
      if negb (returncode =? 0) then
        [Log DEBUG "Error Code: %d" [LInt returncode];
         Log DEBUG ("Output:" +:+ Str.nl +:+ "%s") [LVal (PStr stdout)];
         Log DEBUG ("Error:" +:+ Str.nl +:+ "%s") [LVal (PStr stderr)]]
      else []
  end.

Definition skip_record : log_record :=
  Log WARNING "Skipping assertion because input file is not set." [].

(** The record that opens an attempt: the assertion is announced, or
    skipped. *)
Definition attempt_marker (r : log_record) : bool :=
  (String.eqb (log_fmt r) "Running assertion %s" ||
   String.eqb (log_fmt r) (log_fmt skip_record))%bool.

(** The log records and the generator calls of one attempt. *)
Definition attempt_log (h : host) (self : runner) (n : nat) (kw : kwargs)
    : list log_record :=
  if skipped kw then [skip_record]
  else
    [Log INFO "Running assertion %s" [LVal (dict_get "assertion" kw)];
     Log DEBUG "Running command: %s" [LCmd (spawn_cmd (invocation h self n kw))]]
    ++ outcome_log (assertion_cli h n (invocation h self n kw)).

Definition attempt_spawns (h : host) (self : runner) (n : nat) (kw : kwargs)
    : list spawn :=
  if skipped kw then [] else [invocation h self n kw].

(** The world an attempt leaves. *)
Definition attempt (h : host) (self : runner) (kw : kwargs) (w : world) : world :=
  World (w_log w ++ attempt_log h self (length (w_spawned w)) kw)
        (w_files w) (w_docker_cmdline w)
        (w_spawned w ++ attempt_spawns h self (length (w_spawned w)) kw).

(** The log records and the generator calls of a list of attempts made in
    turn, the first when [n] calls were made before. *)
Fixpoint attempts (h : host) (self : runner) (n : nat) (kws : list kwargs)
    : list log_record * list spawn :=
  match kws with
  | [] => ([], [])
  | kw :: rest =>
      let sp := attempt_spawns h self n kw in
      let tr := attempts h self (n + length sp)%nat rest in
      (attempt_log h self n kw ++ fst tr, sp ++ snd tr)
  end.

(** A dimension without an input artifact, and one with. *)
Definition plain_dimension (self : runner) (name : string) : kwargs :=
  [("assertion", PStr name); ("subject", PStr (package_url self));
   ("repository", PStr (repository self)); ("signer", signer self)].

Definition artifact_dimension (h : host) (self : runner) (name filename : string)
    : kwargs :=
  [("assertion", PStr name); ("subject", PStr (package_url self));
   ("input-file", located h self filename);
   ("repository", PStr (repository self)); ("signer", signer self)].

Definition sarif_dimension (h : host) (self : runner) (filename : string) : kwargs :=
  [("assertion", PStr "SecurityToolFinding"); ("subject", PStr (package_url self));
   ("input-file", located h self filename);
   ("repository", PStr (repository self)); ("signer", signer self);
   ("extra-args", PStr "include_evidence=false")].

(** The twelve calls of [execute_assertions], in the order of the source:
    nine dimensions, the static-analysis one once per artifact. *)
Definition declared (h : host) (self : runner) : list kwargs :=
  [ plain_dimension self "SecurityScorecard";
    plain_dimension self "SecurityAdvisory";
    plain_dimension self "Reproducible";
    sarif_dimension h self "tool-semgrep.sarif";
    sarif_dimension h self "tool-devskim.sarif";
    sarif_dimension h self "tool-codeql-basic.javascript.sarif";
    sarif_dimension h self "tool-snyk-code.sarif";
    artifact_dimension h self "ProgrammingLanguage" "tool-application-inspector.json";
    artifact_dimension h self "Characteristic" "tool-application-inspector.json";
    artifact_dimension h self "CryptoImplementation" "tool-oss-detect-cryptography.txt";
    artifact_dimension h self "ClamAV" "tool-clamscan.txt";
    artifact_dimension h self "Metadata" "tool-metadata-native.json" ].

(** The same machine with another assertion generator. *)
Definition with_assertion_cli (h : host) (cli : nat -> spawn -> completed) : host :=
  Host (fnmatch h) (tree h) (environ h) (container h) cli (clock h).

(** [needle in hay] for strings. *)
Fixpoint contains (needle hay : string) : bool :=
  (Str.startswith needle hay ||
   match hay with
   | EmptyString => false
   | String _ rest => contains needle rest
   end)%bool.

Definition empty_world : world := World [] [] PNone [].

(** A runner and a machine for concrete runs: an empty work directory but
    for one report, a generator that cannot be started for the second call
    and fails for the third. *)
Definition sample_runner : runner :=
  Runner "openssf/omega-toolshed:latest" "pkg:npm/left-pad@1.3.0" "dir:/assertions"
         (PStr "alice") "/w" ∅.

Definition sample_host : host :=
  Host Str.fnmatch_wild
       (Dir ["tool-clamscan.txt"] [])
       ∅
       (fun _ => Process [(Stdout, "scanning" +:+ Str.nl); (Stderr, "fatal: image pull failed" +:+ Str.nl)] 1)
       (fun n _ =>
          match n with
          | 1%nat => RunRaised (Exn OSError "[Errno 2] No such file or directory: 'python'")
          | 2%nat => Completed 2 "" "usage"
          | _ => Completed 0 "" ""
          end)
       (fun _ => 19723 * Datetime.usec_per_day).

End InvokerSpec.

(** ** Statements about the policy refresher *)

Module RefresherSpec.
Import Policy.

(** The text is white space only: a run of the characters [str.isspace]
    accepts, each on one, two or three bytes. *)
Fixpoint blank (s : string) : bool :=
  match s with
  | EmptyString => true
  | String c1 r1 =>
      ((Str.is_space c1 && blank r1) ||
       match r1 with
       | EmptyString => false
       | String c2 r2 =>
           (Str.is_space2 c1 c2 && blank r2) ||
           match r2 with
           | EmptyString => false
           | String c3 r3 => Str.is_space3 c1 c2 c3 && blank r3
           end
       end)%bool
  end.

(** The same, as a derivation. *)
Inductive white : string -> Prop :=
| white_nil : white ""
| white_1 c r : Str.is_space c = true -> white r -> white (String c r)
| white_2 c1 c2 r :
    Str.is_space2 c1 c2 = true -> white r -> white (String c1 (String c2 r))
| white_3 c1 c2 c3 r :
    Str.is_space3 c1 c2 c3 = true -> white r ->
    white (String c1 (String c2 (String c3 r))).

(** An ASCII character that is not white space. *)
Definition plain_char (c : ascii) : bool :=
  (negb (Str.is_space c) && Nat.ltb (nat_of_ascii c) 128)%bool.

(** U+00A0 (no-break space) and U+0085 (next line), in UTF-8. *)
Definition nbsp : string := String (ascii_of_nat 194) (String (ascii_of_nat 160) "").
Definition nel : string := String (ascii_of_nat 194) (String (ascii_of_nat 133) "").

(** The row a verdict is stored as. *)
Definition row_of (s : subject) (v : verdict) : evaluation :=
  Evaluation (policy_identifier v) (subject_pk s) (normalize_status (state v)) evaluated_by.

(** The rows of a subject, and the rows of the others. *)
Definition results_of (s : subject) (table : list evaluation) : list evaluation :=
  filter (fun r => e_subject r = subject_pk s) table.

Definition cleared (s : subject) (table : list evaluation) : list evaluation :=
  filter (fun r => e_subject r ≠ subject_pk s) table.

(** The rows of a (policy, subject) pair. *)
Definition results_of_pair (policy : string) (s : subject) (table : list evaluation)
    : list evaluation :=
  filter (fun r => e_policy r = policy ∧ e_subject r = subject_pk s) table.

(** A row enters the table unless it is there. *)
Definition insert_new (table : list evaluation) (row : evaluation) : list evaluation :=
  if decide (row ∈ table) then table else table ++ [row].

Definition upsert_all (table rows : list evaluation) : list evaluation :=
  fold_left insert_new rows table.

(** The calls on the object managers for a list of verdicts, once nothing
    is left to clear. *)
Definition upsert_calls (s : subject) (vs : list verdict) : list db_call :=
  flat_map (fun v => [GetOrCreatePolicy (policy_identifier v);
                      UpdateOrCreateResult (row_of s v)]) vs.

(** What is logged for a verdict. *)
Definition verdict_log (s : subject) (v : verdict) : log_record :=
  Log DEBUG "Policy %s for %s is %s"
    [LVal (PStr (policy_identifier v)); LVal (PStr (identifier s));
     LVal (PStr (status_name (normalize_status (state v))))].

(** The Policy table after [get_or_create] for each verdict in turn. *)
Definition policies_after (policies : gmap string string) (vs : list verdict)
    : gmap string string :=
  fold_left
    (fun m v =>
       match m !! policy_identifier v with
       | Some _ => m
       | None => <[policy_identifier v := policy_name v]> m
       end) vs policies.

(** The evaluator call for a subject when [n] calls were made before. *)
Definition evaluation_call (h : host) (s : subject) (n : nat) : call :=
  Call [sys_executable h; "oaf.py"; "--verbose"; "consume";
        "--repository"; "flatdir:" +:+ mkdtemp h n; "--subject"; identifier s]
       (Str.path_join (resolved_cwd h) "../../../omega/oaf/omega")
       (60 * 60 * 2).

(** The files written for a subject into its temporary directory. *)
Definition subject_files (s : subject) (tmpdir : string) (w : world) : list fs_event :=
  map (fun a => WriteFile (Str.path_join tmpdir (uuid a +:+ ".json")) (content a))
      (filter (fun a => a_subject a = subject_pk s) (w_assertions w)).

(** The world when the evaluator has been called for a subject. *)
Definition evaluated (h : host) (s : subject) (w : world) : world :=
  World (w_log w ++ [Log DEBUG "Refreshing policies for %s" [LVal (PStr (identifier s))]])
        (w_subjects w) (w_assertions w) (w_policies w) (w_results w) (w_db w)
        (w_fs w ++ MkTemp (mkdtemp h (length (w_calls w)))
                :: subject_files s (mkdtemp h (length (w_calls w))) w)
        (w_calls w ++ [evaluation_call h s (length (w_calls w))]).

(** The world when the temporary directory has been removed. *)
Definition cleaned (tmpdir : string) (w : world) : world :=
  World (w_log w) (w_subjects w) (w_assertions w) (w_policies w) (w_results w) (w_db w)
        (w_fs w ++ [Cleanup tmpdir]) (w_calls w).

Definition log_more (records : list log_record) (w : world) : world :=
  World (w_log w ++ records) (w_subjects w) (w_assertions w) (w_policies w) (w_results w)
        (w_db w) (w_fs w) (w_calls w).

(** No (policy, subject) pair is stored with two statuses. *)
Definition one_status_per_pair (table : list evaluation) : Prop :=
  ∀ r1 r2, r1 ∈ table → r2 ∈ table →
    e_policy r1 = e_policy r2 → e_subject r1 = e_subject r2 → e_status r1 = e_status r2.

(** Every row stored for the pair has this status. *)
Definition pair_has_status (policy : string) (s : subject) (st : status)
    (table : list evaluation) : Prop :=
  ∀ r, r ∈ results_of_pair policy s table → e_status r = st.

(** Two subjects, the first one slow to evaluate. *)
Definition slow : subject := Subject 1 "pkg:npm/slow@1.0.0" SUBJECT_TYPE_PACKAGE_URL.
Definition leftpad : subject := Subject 2 "pkg:npm/left-pad@1.3.0" SUBJECT_TYPE_PACKAGE_URL.

Definition verdict_a (st : string) : verdict := Verdict "policy.a" "Policy A" (Some st).
Definition verdict_b (st : string) : verdict := Verdict "policy.b" "Policy B" (Some st).

(** An evaluator that runs out of time on [slow] and answers [answer] for
    any other subject. *)
Definition sample_evaluator (answer : list verdict) : host :=
  Host "/usr/bin/python3" "/srv/oaf/frontend"
       (fun _ => "/tmp/tmpq1w2e3")
       (fun _ c =>
          if String.eqb (List.last (call_cmd c) "") (identifier slow) then Expired
          else Returned 0 (Output "[...]" (Parsed answer)) "").

Definition sample_world (stored : list evaluation) : world :=
  World [] [slow; leftpad]
        [Assertion "0a1b" 1 "{}"; Assertion "2c3d" 2 "{}"]
        ∅ stored [] [] [].

(** Three rows stored for [leftpad] by earlier passes. *)
Definition three_rows : list evaluation :=
  [Evaluation "policy.a" 2 PASSED evaluated_by;
   Evaluation "policy.b" 2 PASSED evaluated_by;
   Evaluation "policy.c" 2 UNKNOWN evaluated_by].

End RefresherSpec.

(** ** Statements about whole passes of the refresher *)

Module PassSpec.
Import Policy RefresherSpec.

(** The results table after the upsert loop of a pass. *)
Definition pass_table (clear_first : bool) (s : subject) (vs : list verdict)
    (table : list evaluation) : list evaluation :=
  match vs with
  | [] => table
  | _ => upsert_all (if clear_first then cleared s table else table) (map (row_of s) vs)
  end.

(** The calls on the object managers in the upsert loop of a pass. *)
Definition pass_calls (clear_first : bool) (s : subject) (vs : list verdict)
    : list db_call :=
  match vs with
  | [] => []
  | v :: rest =>
      if clear_first
      then [GetOrCreatePolicy (policy_identifier v); DeleteResults (subject_pk s);
            UpdateOrCreateResult (row_of s v)] ++ upsert_calls s rest
      else upsert_calls s vs
  end.

(** The temporary directory of a pass from its creation to its removal. *)
Definition pass_files (h : host) (s : subject) (w : world) : list fs_event :=
  MkTemp (mkdtemp h (length (w_calls w)))
  :: subject_files s (mkdtemp h (length (w_calls w))) w
  ++ [Cleanup (mkdtemp h (length (w_calls w)))].

(** The evaluator calls of a fan-out over the subjects, the first one made
    when [n] calls were made before: one per package-URL subject. *)
Fixpoint fanout_calls (h : host) (n : nat) (subjects : list subject) : list call :=
  match subjects with
  | [] => []
  | s :: rest =>
      match s_type s with
      | SUBJECT_TYPE_PACKAGE_URL => evaluation_call h s n :: fanout_calls h (S n) rest
      | SUBJECT_TYPE_OTHER _ => fanout_calls h n rest
      end
  end.

(** Two worlds with the same Subject and Assertion tables, the same files
    and the same evaluator calls. *)
Definition same_outside (w w' : world) : Prop :=
  w_fs w' = w_fs w ∧ w_calls w' = w_calls w ∧
  w_subjects w' = w_subjects w ∧ w_assertions w' = w_assertions w.

(** The name the first verdict about a policy gives it. *)
Fixpoint first_name (identifier : string) (vs : list verdict) : option string :=
  match vs with
  | [] => None
  | v :: rest =>
      if String.eqb (policy_identifier v) identifier then Some (policy_name v)
      else first_name identifier rest
  end.

(** The evaluator gave no verdict: it failed, its output does not parse, or
    it is an empty array. *)
Definition no_verdicts (answer : finished) : Prop :=
  match answer with
  | Expired | Failed _ => False
  | Returned returncode stdout _ =>
      returncode ≠ 0 ∨ (∃ msg, out_json stdout = Unparsable msg) ∨ out_json stdout = Parsed []
  end.

(** The evaluator call returned a completed process, and its output, when
    the exit code is 0, does not parse or is an array of verdicts. *)
Definition completes (answer : finished) : Prop :=
  match answer with
  | Expired | Failed _ => False
  | Returned returncode stdout _ =>
      returncode ≠ 0 ∨
      match out_json stdout with
      | Unparsable _ | Parsed _ => True
      | NotIterable _ | Illtyped _ _ => False
      end
  end.

(** The world a subject's pass leaves when the evaluator returns verdicts. *)
Definition passed (h : host) (s : subject) (clear_first : bool) (vs : list verdict)
    (w : world) : world :=
  World (w_log w ++ Log DEBUG "Refreshing policies for %s" [LVal (PStr (identifier s))]
                 :: map (verdict_log s) vs)
        (w_subjects w) (w_assertions w)
        (policies_after (w_policies w) vs)
        (pass_table clear_first s vs (w_results w))
        (w_db w ++ pass_calls clear_first s vs)
        (w_fs w ++ pass_files h s w)
        (w_calls w ++ [evaluation_call h s (length (w_calls w))]).

Definition is_delete (c : db_call) : bool :=
  match c with DeleteResults _ => true | _ => false end.

(** A subject that is not a package URL, and an evaluator that answers
    [answer] to every call. *)
Definition github_subject : subject :=
  Subject 3 "https://github.com/ossf/alpha-omega" (SUBJECT_TYPE_OTHER "github_url").

Definition answering (answer : finished) : host :=
  Host "/usr/bin/python3" "/srv/oaf/frontend" (fun _ => "/tmp/tmpq1w2e3") (fun _ _ => answer).

Definition verdicts_ab : list verdict := [verdict_a "fail"; verdict_b "PASS "].

Definition mixed_world : world :=
  World [] [leftpad; github_subject; slow]
        [Assertion "0a1b" 1 "{}"; Assertion "2c3d" 2 "{}"; Assertion "4e5f" 2 "[]"]
        {[ "policy.a" := "Old name" ]} three_rows [] [] [].

(** What every pass for a subject keeps of the store: the rows of the other
    subjects, in their order, and every policy with its name. *)
Definition store_kept (s : subject) (w w' : world) : Prop :=
  cleared s (w_results w') = cleared s (w_results w) ∧
  (∀ k name, w_policies w !! k = Some name → w_policies w' !! k = Some name).

(** The keys of the package-URL subjects of the Subject table. *)
Fixpoint package_url_keys (subjects : list subject) : list nat :=
  match subjects with
  | [] => []
  | s :: rest =>
      match s_type s with
      | SUBJECT_TYPE_PACKAGE_URL => subject_pk s :: package_url_keys rest
      | SUBJECT_TYPE_OTHER _ => package_url_keys rest
      end
  end.

(** The rows of the subjects whose key is not among [keys]. *)
Definition rows_outside (keys : list nat) (table : list evaluation) : list evaluation :=
  filter (fun r => e_subject r ∉ keys) table.

End PassSpec.

(** ** Statements about the analysis run *)

Module RunSpec.
Import Analyze InvokerSpec.

(** The command line of the container: the CPU limit, when the environment
    sets one that is not empty, stands right before [-t]. *)
Definition docker_command (environ : gmap string string) (self : runner) : list string :=
  ["docker"; "run"; "--rm"] ++
  match environ !! "OMEGA_DOCKER_CPUS" with
  | Some cpus => if String.eqb cpus "" then [] else ["--cpus=" +:+ cpus]
  | None => []
  end ++
  ["-t"; "-v"; work_directory_name self +:+ ":/opt/export"; "--env-file"; ".env";
   docker_container self; package_url self].



(** A name without a slash. *)
Definition plain (name : string) : bool :=
  negb (existsb (Ascii.eqb "/") (list_ascii_of_string name)).

(** Every file and directory name of the tree is plain. *)
Fixpoint plain_names (d : dir) : bool :=
  match d with
  | Dir files subdirs =>
      (forallb plain files &&
       (fix plain_subdirs (l : list (string * dir)) : bool :=
          match l with
          | [] => true
          | (name, sub) :: rest => plain name && plain_names sub && plain_subdirs rest
          end) subdirs)%bool
  end.

(** A pattern without wildcard characters. *)
Fixpoint literal (pat : string) : bool :=
  match pat with
  | EmptyString => true
  | String c rest => (negb (Ascii.eqb c "*") && negb (Ascii.eqb c "?") && literal rest)%bool
  end.

(** A machine with a CPU limit whose container succeeds. *)
Definition limited_host : host :=
  Host Str.fnmatch_wild
       (Dir [] [("out", Dir ["tool-clamscan.txt"; "notes.md"] [])])
       {[ "OMEGA_DOCKER_CPUS" := "2" ]}
       (fun _ => Process [(Stdout, "done" +:+ Str.nl)] 0)
       (fun _ _ => Completed 0 "" "")
       (fun _ => 19723 * Datetime.usec_per_day).

(** The artifacts [execute_assertions] looks for, one per call that takes
    an input file, in the order of the calls. *)
Definition artifact_names : list string :=
  ["tool-semgrep.sarif"; "tool-devskim.sarif"; "tool-codeql-basic.javascript.sarif";
   "tool-snyk-code.sarif"; "tool-application-inspector.json";
   "tool-application-inspector.json"; "tool-oss-detect-cryptography.txt";
   "tool-clamscan.txt"; "tool-metadata-native.json"].

(** The artifact is found, under a path that is not empty. *)
Definition found (h : host) (self : runner) (filename : string) : bool :=
  truthy (located h self filename).

(** The variable as the generator sees it: the value of [.env] when it has
    one, the value of the process environment otherwise. *)
Definition generator_variable (h : host) (self : runner) (k : string) : option string :=
  match env self !! k with
  | Some v => Some v
  | None => environ h !! k
  end.

(** A runner without a signer, as the script makes it when [--signer] is
    not given. *)
Definition unsigned_runner : runner :=
  Runner "openssf/omega-toolshed:latest" "pkg:npm/left-pad@1.3.0" "dir:/assertions"
         PNone "/w" {[ "GITHUB_TOKEN" := "from-dotenv" ]}.

End RunSpec.

(** ** Statements about the runner's life cycle *)

Module SetupSpec.
Import Setup.

(** One turn of the loop over the required commands. *)
Definition check (h : host) (command : list string) : M world unit :=
  (available <- call (IsCommandAvailable command) (is_command_available h command) ;;
   if negb available then
     raise (Exn OSError ("Required command " +:+ py_repr_list h command +:+
                         " is not available."))
   else ret tt)%py.

(** What has to be in order before a work directory is looked at: the
    required commands, the [.env] file and the package URL. *)
Definition preconditions (h : host) (a : arguments) : Prop :=
  Forall (fun c => is_command_available h c = Ok true)
         (required_commands (arg_docker_container a)) ∧
  isfile h ".env" = true ∧
  (∃ env, dotenv_values h ".env" = Ok env) ∧
  (∃ package_url, get_package_url_with_version h (arg_package_url a) = Ok package_url).

(** The constructor gets to the end and leaves [self]. *)
Definition ready (h : host) (a : arguments) (self : instance) : Prop :=
  Forall (fun c => is_command_available h c = Ok true)
         (required_commands (arg_docker_container a)) ∧
  isfile h ".env" = true ∧
  (if truthy (arg_work_directory a)
   then work_directory self = GivenPath (py_str (arg_work_directory a))
   else ∃ name, mkdtemp h "omega-" = Ok name ∧ work_directory self = TemporaryDirectory name) ∧
  makedirs h (name_of (work_directory self)) = Ok tt ∧
  listdir h (name_of (work_directory self)) = Ok [] ∧
  ∃ env package_url,
    dotenv_values h ".env" = Ok env ∧
    get_package_url_with_version h (arg_package_url a) = Ok package_url ∧
    self = Instance (Analyze.Runner (arg_docker_container a) package_url (arg_repository a)
                                    (arg_signer a) (name_of (work_directory self)) env)
                    (work_directory self) PNone.

(** The calls of a constructor that gets to the end. *)
Definition init_calls (a : arguments) (d : work_dir) : list os_call :=
  map IsCommandAvailable (required_commands (arg_docker_container a)) ++
  [IsFile ".env"; DotenvValues ".env"; GetPackageUrlWithVersion (arg_package_url a)] ++
  match d with
  | GivenPath _ => []
  | TemporaryDirectory _ => [NewTemporaryDirectory "omega-"]
  end ++
  [MakeDirs (name_of d); ListDir (name_of d)].

(** The world such a constructor leaves. *)
Definition set_up (a : arguments) (self : instance) (w : world) : world :=
  World (w_log w ++ [Log DEBUG "Output (work) directory: %s"
                       [LVal (PStr (name_of (work_directory self)))]])
        (w_calls w ++ init_calls a (work_directory self)).

(** The calls that make or remove a directory. *)
Definition touches_disk (c : os_call) : bool :=
  match c with
  | NewTemporaryDirectory _ | MakeDirs _ | Cleanup _ => true
  | _ => false
  end.

(** What [__exit__] asks for. *)
Definition exit_calls (self : instance) : list os_call :=
  match work_directory self with
  | GivenPath _ => []
  | TemporaryDirectory name => [Cleanup name]
  end.

(** A machine where every command but those of [missing] is there, [.env]
    is a file when [dotenv] says so, and the work directory holds
    [entries]. *)
Definition machine (missing : list string) (dotenv : bool) (entries : list string) : host :=
  Host (fun command =>
          Ok (negb (existsb (String.eqb (List.hd "" command)) missing)))
       (fun _ => dotenv)
       (fun _ => Ok {[ "GITHUB_TOKEN" := "from-dotenv" ]})
       (fun package_url => Ok (package_url +:+ "@1.3.0"))
       (fun prefix => Ok ("/tmp/" +:+ prefix +:+ "k3j2x9"))
       (fun _ => Ok tt)
       (fun _ => Ok entries)
       (fun _ => Raise (Exn OSError "[Errno 16] Device or resource busy"))
       (fun s => "'" +:+ s +:+ "'").

Definition sample_arguments (work_directory : pyval) : arguments :=
  Args "pkg:npm/left-pad" "openssf/omega-toolshed:latest" "dir:/assertions"
       (PStr "alice") work_directory.

Definition empty_world : world := World [] [].

End SetupSpec.

(** * Properties *)

#[local] Arguments String.append !s1 s2 : simpl nomatch.

(** ** The monad *)

Lemma bind_ret_l {W A B} (a : A) (k : A -> M W B) w : bind (ret a) k w = k a w.
Proof. reflexivity. Qed.

Lemma bind_assoc {W A B C} (m : M W A) (k : A -> M W B) (k' : B -> M W C) w :
  bind (bind m k) k' w = bind m (fun a => bind (k a) k') w.
Proof. unfold bind. destruct (m w) as [[a|e] w']; reflexivity. Qed.

(** ** The output file locator *)

Module LocatorFacts.
Import Analyze LocatorSpec.

Section Locator.
Variable fnmatch : string -> string -> bool.

Lemma py_in_spec filename files : py_in filename files = true ↔ filename ∈ files.
Proof.
  unfold py_in. rewrite existsb_exists. split.
  - intros (x & Hin & Heq). apply String.eqb_eq in Heq. subst x.
    by apply list_elem_of_In.
  - intros Hin. exists filename. split; [by apply list_elem_of_In | apply String.eqb_refl].
Qed.

Lemma py_in_false filename files : py_in filename files = false ↔ filename ∉ files.
Proof.
  rewrite <- py_in_spec. destruct (py_in filename files); split; congruence.
Qed.

(** The inner loop returns the first file the pattern accepts. *)
Lemma first_fnmatch_Some filename files file :
  first_fnmatch fnmatch filename files = Some file →
  ∃ l1 l2, files = l1 ++ file :: l2 ∧ fnmatch file filename = true ∧
           ∀ g, g ∈ l1 → fnmatch g filename = false.
Proof.
  induction files as [|f rest IH]; simpl; [discriminate|].
  destruct (fnmatch f filename) eqn:Hf.
  - intros [= ->]. exists [], rest. split; [done|]. split; [done|].
    intros g Hg. by apply elem_of_nil in Hg.
  - intros H. destruct (IH H) as (l1 & l2 & -> & Hm & Hl1).
    exists (f :: l1), l2. split; [done|]. split; [done|].
    intros g Hg. apply elem_of_cons in Hg as [->|Hg]; auto.
Qed.

Lemma first_fnmatch_None filename files :
  first_fnmatch fnmatch filename files = None →
  ∀ g, g ∈ files → fnmatch g filename = false.
Proof.
  induction files as [|f rest IH]; simpl; intros H g Hg.
  - by apply elem_of_nil in Hg.
  - destruct (fnmatch f filename) eqn:Hf; [discriminate|].
    apply elem_of_cons in Hg as [->|Hg]; auto.
Qed.

(** When the first loop finds nothing, no directory holds the exact name,
    so the second loop finds nothing either. *)
Lemma first_walk_None_second filename entries :
  first_walk fnmatch filename entries = None → second_walk filename entries = None.
Proof.
  induction entries as [|[root files] rest IH]; simpl; [done|].
  destruct (py_in filename files); [discriminate|].
  destruct (first_fnmatch fnmatch filename files); [discriminate|]. exact IH.
Qed.

Lemma first_walk_None filename entries :
  first_walk fnmatch filename entries = None → no_match fnmatch filename entries.
Proof.
  induction entries as [|[root files] rest IH]; simpl; intros H r fs f Hin Hf.
  - by apply elem_of_nil in Hin.
  - destruct (py_in filename files) eqn:Hex; [discriminate|].
    destruct (first_fnmatch fnmatch filename files) eqn:Hg; [discriminate|].
    apply elem_of_cons in Hin as [[= -> ->]|Hin].
    + split; [|by eapply first_fnmatch_None].
      apply py_in_false in Hex. intros ->. contradiction.
    + by eapply IH.
Qed.

Lemma first_walk_Some filename entries path :
  first_walk fnmatch filename entries = Some path →
  ∃ before root files after,
    entries = before ++ (root, files) :: after ∧
    no_match fnmatch filename before ∧
    ((filename ∈ files ∧ path = Str.path_join root filename) ∨
     ((filename ∉ files) ∧
      ∃ l1 file l2, files = l1 ++ file :: l2 ∧ fnmatch file filename = true ∧
                    (∀ g, g ∈ l1 → fnmatch g filename = false) ∧
                    path = Str.path_join root file)).
Proof.
  induction entries as [|[root files] rest IH]; simpl; [discriminate|].
  destruct (py_in filename files) eqn:Hex.
  - intros [= <-]. exists [], root, files, rest. split; [done|]. split.
    + intros r fs f Hin. by apply elem_of_nil in Hin.
    + left. split; [by apply py_in_spec | done].
  - destruct (first_fnmatch fnmatch filename files) as [file|] eqn:Hg.
    + intros [= <-]. exists [], root, files, rest. split; [done|]. split.
      * intros r fs f Hin. by apply elem_of_nil in Hin.
      * right. split; [by apply py_in_false|].
        destruct (first_fnmatch_Some _ _ _ Hg) as (l1 & l2 & -> & Hm & Hl1).
        by exists l1, file, l2.
    + intros H. destruct (IH H) as (before & r & fs & after & -> & Hno & Hres).
      exists ((root, files) :: before), r, fs, after. split; [done|]. split; [|done].
      intros r' fs' f Hin Hf. apply elem_of_cons in Hin as [[= -> ->]|Hin].
      * split; [|by eapply first_fnmatch_None].
        apply py_in_false in Hex. intros ->. contradiction.
      * by eapply Hno.
Qed.

(** Both loops walk the same tree, so the first loop alone decides. *)
Lemma find_output_file_first_walk top t filename :
  find_output_file fnmatch top t filename = first_walk fnmatch filename (walk top t).
Proof.
  unfold find_output_file.
  destruct (first_walk fnmatch filename (walk top t)) eqn:H; [done|].
  by apply first_walk_None_second.
Qed.

(** C9: the second tree walk of [find_output_file] never decides the
    result: over the same tree, for every matcher and every query, the
    function returns what it returns with that walk removed. *)
Theorem find_output_file_second_walk_dead top t filename :
  find_output_file fnmatch top t filename
  = find_output_file_one_walk fnmatch top t filename.
Proof. unfold find_output_file_one_walk. apply find_output_file_first_walk. Qed.

(** C2, as amended: the result comes from the first directory, in walk
    order, that holds an exact or a pattern match; from that directory the
    exact name is taken when it is there, its first pattern match
    otherwise; and [None] is returned exactly when no file of the tree
    matches either way. *)
Theorem find_output_file_first_matching_directory top t filename :
  match find_output_file fnmatch top t filename with
  | Some path =>
      ∃ before root files after,
        walk top t = before ++ (root, files) :: after ∧
        no_match fnmatch filename before ∧
        ((filename ∈ files ∧ path = Str.path_join root filename) ∨
         ((filename ∉ files) ∧
          ∃ l1 file l2, files = l1 ++ file :: l2 ∧ fnmatch file filename = true ∧
                        (∀ g, g ∈ l1 → fnmatch g filename = false) ∧
                        path = Str.path_join root file))
  | None => no_match fnmatch filename (walk top t)
  end.
Proof.
  rewrite find_output_file_first_walk.
  destruct (first_walk fnmatch filename (walk top t)) as [path|] eqn:H.
  - by apply first_walk_Some.
  - by apply first_walk_None.
Qed.

End Locator.

(** C2, as stated, fails: with a report in the first directory and a file
    named like the pattern in the second, the pattern match of the first
    directory is returned although an exact match exists in the tree. *)
Lemma find_output_file_not_exact_tree_wide :
  find_output_file Str.fnmatch_wild "/w" sarif_tree "*.sarif" = Some "/w/a/tool-x.sarif"
  ∧ Str.basename "/w/a/tool-x.sarif" ≠ "*.sarif"
  ∧ ¬ exact_preferred_tree_wide Str.fnmatch_wild "/w" sarif_tree "*.sarif".
Proof.
  split; [reflexivity|]. split; [discriminate|].
  intros Hpref. destruct Hpref as (root & files & Hin & Hq & Hres).
  - exists "/w/b", ["*.sarif"]. split; [|by apply list_elem_of_singleton].
    change (walk "/w" sarif_tree)
      with [("/w", @nil string); ("/w/a", ["tool-x.sarif"]); ("/w/b", ["*.sarif"])].
    rewrite !elem_of_cons. auto.
  - assert (Hfind : find_output_file Str.fnmatch_wild "/w" sarif_tree "*.sarif"
                    = Some "/w/a/tool-x.sarif") by reflexivity.
    rewrite Hfind in Hres. injection Hres as Hres.
    change (walk "/w" sarif_tree)
      with [("/w", @nil string); ("/w/a", ["tool-x.sarif"]); ("/w/b", ["*.sarif"])] in Hin.
    repeat (apply elem_of_cons in Hin as [Hin|Hin];
            [injection Hin as -> ->; try (by apply elem_of_nil in Hq);
             try (apply list_elem_of_singleton in Hq; discriminate Hq);
             try discriminate Hres|]).
    by apply elem_of_nil in Hin.
Qed.

(** The three lookups of the specification's test list. *)
Example find_output_file_exact :
  find_output_file Str.fnmatch_wild "/w" (Dir ["a.json"; "b.txt"] []) "a.json"
  = Some "/w/a.json".
Proof. reflexivity. Qed.

Example find_output_file_glob :
  find_output_file Str.fnmatch_wild "/w" (Dir [] [("out", Dir ["tool-x.sarif"] [])]) "*.sarif"
  = Some "/w/out/tool-x.sarif".
Proof. reflexivity. Qed.

Example find_output_file_missing :
  find_output_file Str.fnmatch_wild "/w" (Dir ["a.json"; "b.txt"] []) "missing.txt" = None.
Proof. reflexivity. Qed.

End LocatorFacts.

(** ** The assertion generator invoker *)

Module InvokerFacts.
Import Analyze InvokerSpec.

(** *** Dictionaries *)

Lemma dict_lookup_None key (d : kwargs) : dict_lookup key d = None ↔ key ∉ map fst d.
Proof.
  induction d as [|[k v] rest IH]; simpl.
  - split; [intros _ H; by apply elem_of_nil in H | done].
  - destruct (String.eqb_spec k key) as [->|Hne].
    + split; [discriminate|]. intros H. exfalso. apply H, elem_of_cons. by left.
    + rewrite IH, elem_of_cons. split; [intros H [H'|H']; [congruence|done] | tauto].
Qed.

Lemma dict_lookup_binds kw k1 key v k2 :
  binds kw k1 key v k2 → dict_lookup key kw = Some v.
Proof.
  intros [-> Hk1]. induction k1 as [|[k v'] rest IH]; simpl.
  - by rewrite String.eqb_refl.
  - simpl in Hk1. rewrite elem_of_cons in Hk1.
    destruct (String.eqb_spec k key) as [->|Hne]; [tauto|]. apply IH. tauto.
Qed.

Lemma dict_set_absent key v (d : kwargs) :
  dict_lookup key d = None → dict_set key v d = d ++ [(key, v)].
Proof.
  induction d as [|[k v'] rest IH]; simpl; [done|].
  destruct (String.eqb k key); [discriminate|]. intros H. by rewrite IH.
Qed.

Lemma dict_lookup_set_other key k v (d : kwargs) :
  k ≠ key → dict_lookup k (dict_set key v d) = dict_lookup k d.
Proof.
  intros Hne. induction d as [|[k' v'] rest IH]; simpl.
  - destruct (String.eqb_spec key k); [congruence|done].
  - destruct (String.eqb_spec k' key) as [->|Hk]; simpl.
    + destruct (String.eqb_spec key k); [congruence|done].
    + destruct (String.eqb_spec k' k); [done|]. exact IH.
Qed.

(** *** The command line *)

Lemma flag_loop_flags cmd items : flag_loop cmd items = cmd ++ flags items.
Proof.
  revert cmd. induction items as [|kv rest IH]; intros cmd; simpl.
  - by rewrite app_nil_r.
  - rewrite IH. unfold flags. simpl. by rewrite <- app_assoc.
Qed.

Lemma flags_app k1 k2 : flags (k1 ++ k2) = flags k1 ++ flags k2.
Proof. unfold flags. apply flat_map_app. Qed.

(** The command line when [expiration] is among the keyword arguments. *)
Lemma command_with_expiration now kw v :
  dict_lookup "expiration" kw = Some v →
  snd (assertion_command now kw)
  = base_command ++ ["--expiration=" +:+ py_str v] ++ inline_signer kw ++ flags kw.
Proof.
  intros H. unfold assertion_command, dict_mem, inline_signer, dict_get. rewrite !H.
  simpl negb. cbv iota.
  destruct (truthy _); simpl; rewrite flag_loop_flags; reflexivity.
Qed.

(** The command line when it is not: the default closes the flag loop. *)
Lemma command_without_expiration now kw :
  dict_lookup "expiration" kw = None →
  snd (assertion_command now kw)
  = base_command ++ inline_signer kw ++ flags kw ++
    ["--expiration"; Datetime.strftime_iso (now + Datetime.timedelta_days (2 * 365))].
Proof.
  intros H. unfold assertion_command, dict_mem, inline_signer. rewrite H. simpl negb.
  cbv iota. unfold dict_get. rewrite dict_lookup_set_other by discriminate.
  rewrite (dict_set_absent _ _ _ H).
  destruct (truthy _); simpl; rewrite flag_loop_flags, flags_app; reflexivity.
Qed.

(** The command line in one piece. *)
Lemma command_shape now kw :
  snd (assertion_command now kw)
  = base_command ++ inline_expiration kw ++ inline_signer kw ++ flags kw ++
    default_expiration now kw.
Proof.
  unfold inline_expiration, default_expiration.
  destruct (dict_lookup "expiration" kw) as [v|] eqn:He.
  - rewrite (command_with_expiration _ _ _ He), app_nil_r. reflexivity.
  - rewrite (command_without_expiration _ _ He). reflexivity.
Qed.

(** *** Counting the arguments that pass an option *)

Lemma emissions_app key l1 l2 :
  emissions key (l1 ++ l2) = (emissions key l1 + emissions key l2)%nat.
Proof. unfold emissions. by rewrite List.filter_app, length_app. Qed.

Lemma passes_flag key : passes key ("--" +:+ key) = true.
Proof. unfold passes. by rewrite String.eqb_refl. Qed.

Lemma prefix_app_l a b : Str.startswith a (a +:+ b) = true.
Proof.
  induction a as [|c a IH]; cbn [Str.startswith String.append]; [done|].
  by rewrite Ascii.eqb_refl, IH.
Qed.

Lemma prefix_dashes a b : Str.startswith ("--" +:+ a) b = true → Str.startswith "--" b = true.
Proof.
  destruct b as [|c1 [|c2 b]]; cbn [Str.startswith String.append andb]; try done.
  destruct (Ascii.eqb "-" c1), (Ascii.eqb "-" c2); cbn [andb]; done.
Qed.

(** An argument that passes an option starts with two dashes. *)
Lemma passes_dashes key arg : passes key arg = true → Str.startswith "--" arg = true.
Proof.
  unfold passes. intros [H|H]%orb_true_iff.
  - apply String.eqb_eq in H. subst arg. apply (prefix_app_l "--" key).
  - by apply prefix_dashes in H.
Qed.

Lemma prefix_equals a b : Str.startswith (a +:+ "=") b = true → has_equals b = true.
Proof.
  revert b. induction a as [|c a IH]; intros [|d b]; cbn [Str.startswith String.append]; try done.
  - unfold has_equals. cbn [list_ascii_of_string existsb].
    destruct (Ascii.eqb "=" d); done.
  - intros [_ H]%andb_true_iff. apply IH in H.
    unfold has_equals in *. cbn [list_ascii_of_string existsb]. rewrite H. apply orb_true_r.
Qed.

(** A flag passes another option only if its key holds [=]. *)
Lemma passes_other_flag key k :
  k ≠ key → has_equals k = false → passes key ("--" +:+ k) = false.
Proof.
  intros Hne Hk. unfold passes. apply orb_false_iff. split.
  - apply String.eqb_neq. simpl. congruence.
  - cbn [Str.startswith String.append]. rewrite !Ascii.eqb_refl. cbn [andb].
    destruct (Str.startswith (key +:+ "=") k) eqn:Hp; [|done].
    apply prefix_equals in Hp. congruence.
Qed.

Lemma passes_value key v :
  Str.startswith "--" (flag_value v) = false → passes key (flag_value v) = false.
Proof.
  intros Hv. destruct (passes key _) eqn:Hp; [|done]. apply passes_dashes in Hp.
  congruence.
Qed.

Lemma emissions_flags_other key items :
  Forall tidy_item items → key ∉ map fst items → emissions key (flags items) = 0%nat.
Proof.
  induction 1 as [|[k v] rest [Hk Hv] _ IH]; [done|].
  cbn [map fst]. rewrite elem_of_cons. intros Hnot.
  change (flags ((k, v) :: rest)) with (flag_pair (k, v) ++ flags rest).
  rewrite emissions_app, IH by tauto. unfold emissions, flag_pair.
  cbn [fst snd List.filter] in *.
  rewrite passes_other_flag by (intuition congruence).
  by rewrite passes_value.
Qed.

(** The flag and its value count once. *)
Lemma emissions_flag_pair key v :
  Str.startswith "--" (flag_value v) = false → emissions key (flag_pair (key, v)) = 1%nat.
Proof.
  intros Hv. unfold emissions, flag_pair. cbn [fst snd List.filter].
  by rewrite passes_flag, passes_value.
Qed.

Lemma digit_not_dash n : Datetime.digit n ≠ "-"%char.
Proof.
  unfold Datetime.digit. intros H. apply (f_equal nat_of_ascii) in H.
  assert (Hn : 0 <= n mod 10 < 10) by (apply Z.mod_pos_bound; lia).
  assert (Hm : (Z.to_nat (n mod 10) < 10)%nat) by lia.
  rewrite nat_ascii_embedding in H by lia.
  change (nat_of_ascii "-") with 45%nat in H. lia.
Qed.

(** The default expiration is a date: it does not look like a flag. *)
Lemma strftime_iso_not_flag t : Str.startswith "--" (Datetime.strftime_iso t) = false.
Proof.
  unfold Datetime.strftime_iso. destruct (Datetime.civil_of_days _) as [[y m] d].
  cbn [Datetime.pad_dec String.append Str.startswith].
  by rewrite (proj2 (Ascii.eqb_neq _ _)) by (intros e; symmetry in e; by apply digit_not_dash in e).
Qed.

Lemma tidy_binds kw k1 key v k2 :
  tidy kw → binds kw k1 key v k2 →
  Forall tidy_item k1 ∧ Forall tidy_item k2 ∧ (key ∉ map fst k1) ∧ (key ∉ map fst k2) ∧
  Str.startswith "--" (flag_value v) = false.
Proof.
  intros [Hnd Hall] [-> Hk1]. apply Forall_app in Hall as [H1 H2].
  apply Forall_cons in H2 as [[_ Hv] H2]. rewrite map_app in Hnd. simpl in Hnd.
  apply NoDup_app in Hnd as (_ & _ & Hnd). apply NoDup_cons in Hnd as [Hk2 _].
  done.
Qed.

Lemma emissions_inline_signer_expiration kw :
  emissions "expiration" (inline_signer kw) = 0%nat.
Proof. unfold inline_signer. destruct (truthy _); reflexivity. Qed.

Lemma emissions_inline_expiration_signer kw :
  emissions "signer" (inline_expiration kw) = 0%nat.
Proof. unfold inline_expiration. destruct (dict_lookup _ _); reflexivity. Qed.

Lemma emissions_default_expiration_signer now kw :
  emissions "signer" (default_expiration now kw) = 0%nat.
Proof.
  unfold default_expiration. destruct (dict_lookup _ _); [reflexivity|].
  assert (Hd : passes "signer" (Datetime.strftime_iso (now + Datetime.timedelta_days (2 * 365)))
               = false).
  { destruct (passes _ _) eqn:Hp; [|done]. apply passes_dashes in Hp.
    by rewrite strftime_iso_not_flag in Hp. }
  unfold emissions. cbn [List.filter]. rewrite Hd. reflexivity.
Qed.

Lemma inline_signer_binds kw k1 s k2 :
  binds kw k1 "signer" (PStr s) k2 → s ≠ "" → inline_signer kw = ["--signer=" +:+ s].
Proof.
  intros Hb Hs. unfold inline_signer, dict_get. rewrite (dict_lookup_binds _ _ _ _ _ Hb).
  cbn [truthy py_str]. by destruct (String.eqb_spec s "").
Qed.

Lemma emissions_inline key value : emissions key ["--" +:+ key +:+ "=" +:+ value] = 1%nat.
Proof.
  unfold emissions, passes. cbn [List.filter].
  assert (H : Str.startswith ("--" +:+ key +:+ "=") ("--" +:+ key +:+ "=" +:+ value) = true).
  { cbn [Str.startswith String.append]. rewrite !Ascii.eqb_refl. cbn [andb].
    induction key as [|c key IH]; cbn [Str.startswith String.append].
    - by rewrite Ascii.eqb_refl.
    - by rewrite Ascii.eqb_refl, IH. }
  rewrite H, orb_true_r. reflexivity.
Qed.

(** C10: on the command line [_execute_assertion] builds, a signer that is
    set and not empty is written as [--signer=<value>] and again, by the
    flag loop, as [--signer] followed by the value; an [expiration] that is
    supplied is written as [--expiration=<value>] and again by the flag
    loop; an [expiration] that is omitted is written once, by the flag loop
    only, with the time of the call plus [2 * 365] days as its value.  For
    keyword arguments that are [tidy] these are all the arguments that pass
    the option: two, two and one. *)
Theorem signer_and_expiration_emitted now kw :
  let cmd := snd (assertion_command now kw) in
  (∀ k1 s k2, binds kw k1 "signer" (PStr s) k2 → s ≠ "" →
     cmd = base_command ++ inline_expiration kw ++ ["--signer=" +:+ s] ++ flags k1 ++
           ["--signer"; s] ++ flags k2 ++ default_expiration now kw
     ∧ (tidy kw → emissions "signer" cmd = 2%nat)) ∧
  (∀ k1 v k2, binds kw k1 "expiration" v k2 →
     cmd = base_command ++ ["--expiration=" +:+ py_str v] ++ inline_signer kw ++ flags k1 ++
           ["--expiration"; flag_value v] ++ flags k2
     ∧ (tidy kw → emissions "expiration" cmd = 2%nat)) ∧
  ("expiration" ∉ map fst kw →
     cmd = base_command ++ inline_signer kw ++ flags kw ++
           ["--expiration"; Datetime.strftime_iso (now + Datetime.timedelta_days (2 * 365))]
     ∧ (tidy kw → emissions "expiration" cmd = 1%nat)).
Proof.
  intros cmd. subst cmd. split; [|split].
  - intros k1 s k2 Hb Hs.
    assert (Hcmd : snd (assertion_command now kw)
                   = base_command ++ inline_expiration kw ++ ["--signer=" +:+ s] ++ flags k1 ++
                     ["--signer"; s] ++ flags k2 ++ default_expiration now kw).
    { rewrite command_shape, (inline_signer_binds _ _ _ _ Hb Hs).
      destruct Hb as [-> _]. rewrite flags_app. cbn [flags flat_map flag_pair fst snd flag_value py_str].
      rewrite <- !app_assoc. reflexivity. }
    split; [exact Hcmd|]. intros Ht. rewrite Hcmd.
    destruct (tidy_binds _ _ _ _ _ Ht Hb) as (H1 & H2 & Hk1 & Hk2 & Hv).
    rewrite !emissions_app, emissions_inline_expiration_signer,
      emissions_default_expiration_signer, !emissions_flags_other by done.
    change ["--signer=" +:+ s] with ["--" +:+ "signer" +:+ "=" +:+ s].
    rewrite (emissions_inline "signer" s).
    change ["--signer"; s] with (flag_pair ("signer", PStr s)).
    rewrite emissions_flag_pair by done. reflexivity.
  - intros k1 v k2 Hb.
    assert (Hcmd : snd (assertion_command now kw)
                   = base_command ++ ["--expiration=" +:+ py_str v] ++ inline_signer kw ++
                     flags k1 ++ ["--expiration"; flag_value v] ++ flags k2).
    { rewrite (command_with_expiration _ _ _ (dict_lookup_binds _ _ _ _ _ Hb)).
      destruct Hb as [-> _]. rewrite flags_app. reflexivity. }
    split; [exact Hcmd|]. intros Ht. rewrite Hcmd.
    destruct (tidy_binds _ _ _ _ _ Ht Hb) as (H1 & H2 & Hk1 & Hk2 & Hv).
    rewrite !emissions_app, emissions_inline_signer_expiration,
      !emissions_flags_other by done.
    change ["--expiration=" +:+ py_str v] with ["--" +:+ "expiration" +:+ "=" +:+ py_str v].
    rewrite (emissions_inline "expiration" (py_str v)).
    change ["--expiration"; flag_value v] with (flag_pair ("expiration", v)).
    rewrite emissions_flag_pair by done. reflexivity.
  - intros Hk. apply dict_lookup_None in Hk as He.
    split; [by apply command_without_expiration|]. intros [_ Ht].
    rewrite (command_without_expiration _ _ He).
    rewrite !emissions_app, emissions_inline_signer_expiration,
      emissions_flags_other by done.
    change ["--expiration"; Datetime.strftime_iso (now + Datetime.timedelta_days (2 * 365))]
      with (flag_pair ("expiration",
                       PStr (Datetime.strftime_iso (now + Datetime.timedelta_days (2 * 365))))).
    rewrite emissions_flag_pair by apply strftime_iso_not_flag. reflexivity.
Qed.

(** A command line of the runner: signer twice, default expiration once. *)
Example scorecard_command :
  snd (assertion_command (19723 * Datetime.usec_per_day)
         (plain_dimension sample_runner "SecurityScorecard"))
  = ["python"; "oaf.py"; "--verbose"; "generate"; "--signer=alice";
     "--assertion"; "SecurityScorecard"; "--subject"; "pkg:npm/left-pad@1.3.0";
     "--repository"; "dir:/assertions"; "--signer"; "alice";
     "--expiration"; "2025-12-31T00:00:00.000000Z"]
  ∧ tidy (plain_dimension sample_runner "SecurityScorecard").
Proof.
  split; [reflexivity|]. split.
  - cbn. repeat constructor; rewrite ?elem_of_cons, ?elem_of_nil; intuition discriminate.
  - repeat constructor.
Qed.

(** *** Attempts *)

(** One call of [_execute_assertion_noexcept] never raises, whatever the
    generator does, and leaves the world of [attempt]. *)
Lemma execute_assertion_noexcept_attempt h self kw w :
  _execute_assertion_noexcept h self kw w = (Ok tt, attempt h self kw w).
Proof.
  unfold _execute_assertion_noexcept, try_except, attempt, attempt_log, attempt_spawns.
  fold (skipped kw). destruct (skipped kw).
  - unfold logging, log, append_log, skip_record. cbn. by rewrite app_nil_r.
  - unfold _execute_assertion, invocation, bind, logging, log, datetime_now,
      subprocess_run, append_log. cbn.
    destruct (assertion_command (clock h (length (w_spawned w))) kw) as [kw' cmd].
    cbn. destruct (assertion_cli h _ _) as [e|returncode stdout stderr]; cbn.
    + by rewrite <- !app_assoc.
    + destruct (returncode =? 0); cbn; by rewrite <- !app_assoc, ?app_nil_r.
Qed.

(** A list of calls made in turn. *)
Lemma for_each_attempts {A} h self (mk : A → kwargs) (xs : list A) w :
  for_each xs (fun x => _execute_assertion_noexcept h self (mk x)) w
  = (Ok tt,
     let tr := attempts h self (length (w_spawned w)) (map mk xs) in
     World (w_log w ++ fst tr) (w_files w) (w_docker_cmdline w) (w_spawned w ++ snd tr)).
Proof.
  revert w. induction xs as [|x rest IH]; intros w.
  - cbn. rewrite !app_nil_r. by destruct w.
  - cbn [for_each map attempts]. unfold bind.
    rewrite execute_assertion_noexcept_attempt, IH. unfold attempt. cbn.
    by rewrite length_app, <- !app_assoc.
Qed.

Lemma bind_noexcept {B} h self kw (k : unit → M world B) w :
  bind (_execute_assertion_noexcept h self kw) k w = k tt (attempt h self kw w).
Proof. unfold bind. by rewrite execute_assertion_noexcept_attempt. Qed.

(** [execute_assertions] makes the calls of [declared], in order. *)
Lemma execute_assertions_for_each h self w :
  execute_assertions h self w
  = for_each (declared h self) (_execute_assertion_noexcept h self) w.
Proof.
  unfold execute_assertions, declared. cbn [for_each].
  repeat (first [rewrite bind_noexcept | rewrite bind_assoc | rewrite bind_ret_l]; cbv beta).
  rewrite execute_assertion_noexcept_attempt. reflexivity.
Qed.

(** The processes started do not depend on what the generator answers. *)
Lemma attempts_spawns_independent h self cli n kws :
  snd (attempts (with_assertion_cli h cli) self n kws) = snd (attempts h self n kws).
Proof.
  revert n. induction kws as [|kw rest IH]; intros n; [done|].
  cbn [attempts snd]. by rewrite IH.
Qed.

(** Each attempt is opened once. *)
Lemma attempts_markers h self n kws :
  length (List.filter attempt_marker (fst (attempts h self n kws))) = length kws.
Proof.
  revert n. induction kws as [|kw rest IH]; intros n; [done|].
  cbn [attempts fst]. rewrite List.filter_app, length_app, IH. cbn [length]. f_equal.
  unfold attempt_log. destruct (skipped kw); [reflexivity|].
  destruct (assertion_cli h n _) as [e|returncode stdout stderr]; [reflexivity|].
  cbn [outcome_log]. destruct (negb (returncode =? 0)); reflexivity.
Qed.

(** C4: [execute_assertions] never raises and makes the twelve declared
    calls (nine dimensions, the static-analysis one once per artifact) in
    the declared order, each once: its log and its processes are those of
    the twelve attempts in turn, whatever the generator does, be it an
    exception (logged as an error) or a non-zero exit (logged); twelve
    attempts are opened in the log; and the processes started are the same
    under any other generator. *)
Theorem execute_assertions_attempts_all h self w :
  execute_assertions h self w
  = (Ok tt,
     let tr := attempts h self (length (w_spawned w)) (declared h self) in
     World (w_log w ++ fst tr) (w_files w) (w_docker_cmdline w) (w_spawned w ++ snd tr))
  ∧ map (dict_get "assertion") (declared h self)
    = map PStr ["SecurityScorecard"; "SecurityAdvisory"; "Reproducible";
                "SecurityToolFinding"; "SecurityToolFinding"; "SecurityToolFinding";
                "SecurityToolFinding"; "ProgrammingLanguage"; "Characteristic";
                "CryptoImplementation"; "ClamAV"; "Metadata"]
  ∧ length (List.filter attempt_marker
              (fst (attempts h self (length (w_spawned w)) (declared h self)))) = 12%nat
  ∧ ∀ cli,
      w_spawned (snd (execute_assertions (with_assertion_cli h cli) self w))
      = w_spawned (snd (execute_assertions h self w)).
Proof.
  assert (Hrun : ∀ h',
    execute_assertions h' self w
    = (Ok tt,
       let tr := attempts h' self (length (w_spawned w)) (declared h' self) in
       World (w_log w ++ fst tr) (w_files w) (w_docker_cmdline w) (w_spawned w ++ snd tr))).
  { intros h'. rewrite execute_assertions_for_each.
    pose proof (for_each_attempts h' self (fun kw => kw) (declared h' self) w) as H.
    rewrite map_id in H. exact H. }
  split; [apply Hrun|]. split; [reflexivity|]. split; [by rewrite attempts_markers|].
  intros cli. rewrite !Hrun. cbn [snd w_spawned].
  by rewrite attempts_spawns_independent.
Qed.

(** C5: a call whose [input-file] is what the locator returned for an
    artifact it did not find starts no process and logs that it is
    skipped. *)
Theorem missing_artifact_skips h self kw filename w :
  find_output_file (fnmatch h) (work_directory_name self) (tree h) filename = None →
  dict_lookup "input-file" kw = Some (located h self filename) →
  _execute_assertion_noexcept h self kw w
  = (Ok tt, World (w_log w ++ [skip_record]) (w_files w) (w_docker_cmdline w) (w_spawned w))
  ∧ ∀ n, attempt_spawns h self n kw = [].
Proof.
  intros Hnone Hkw.
  assert (Hskip : skipped kw = true).
  { unfold skipped, dict_mem, dict_get. rewrite Hkw. unfold located. by rewrite Hnone. }
  split.
  - rewrite execute_assertion_noexcept_attempt. unfold attempt, attempt_log, attempt_spawns.
    rewrite Hskip. by rewrite app_nil_r.
  - intros n. unfold attempt_spawns. by rewrite Hskip.
Qed.

(** A run in which the second generator call cannot be started and the
    third exits with code 2: all twelve calls are still made, in order; the
    four that have what they need start the generator, the other eight are
    skipped. *)
Example execute_assertions_sample :
  let r := execute_assertions sample_host sample_runner empty_world in
  fst r = Ok tt
  ∧ map (fun sp => nth 6 (spawn_cmd sp) "") (w_spawned (snd r))
    = ["SecurityScorecard"; "SecurityAdvisory"; "Reproducible"; "ClamAV"]
  ∧ map log_level (w_log (snd r))
    = [INFO; DEBUG; INFO; DEBUG; ERROR; INFO; DEBUG; DEBUG; DEBUG; DEBUG;
       WARNING; WARNING; WARNING; WARNING; WARNING; WARNING; WARNING;
       INFO; DEBUG; WARNING].
Proof. vm_compute. repeat split; reflexivity. Qed.

Lemma missing_artifact_skips_witness :
  _execute_assertion_noexcept sample_host sample_runner
    (artifact_dimension sample_host sample_runner "Metadata" "tool-metadata-native.json")
    empty_world
  = (Ok tt, World [skip_record] [] PNone [])
  ∧ ∀ n, attempt_spawns sample_host sample_runner n
           (artifact_dimension sample_host sample_runner "Metadata" "tool-metadata-native.json")
         = [].
Proof.
  apply (missing_artifact_skips sample_host sample_runner _ "tool-metadata-native.json"
           empty_world); reflexivity.
Defined.

End InvokerFacts.

(** ** The container execution engine *)

Module ContainerFacts.
Import Analyze InvokerSpec.

Lemma for_each_logging (lines : list string) w :
  ∃ w', for_each lines (fun line => logging DEBUG (Str.rstrip line) []) w = (Ok tt, w').
Proof.
  revert w. induction lines as [|line rest IH]; intros w; cbn [for_each].
  - by eexists.
  - unfold bind, logging, log. apply IH.
Qed.

(** A container that exits with a non-zero code makes
    [execute_docker_container] raise a [RuntimeError], and its message is
    the same whatever the container wrote: it ends in [None], the value of
    [res.stderr] for a process opened with [stderr=STDOUT]. *)
Lemma execute_docker_container_raises h self w :
  (∀ cmd, proc_exit (container h cmd) ≠ 0) →
  ∃ w', execute_docker_container h self w
        = (Raise (Exn RuntimeError "Error running docker container: None"), w').
Proof.
  intros Hexit. unfold execute_docker_container.
  unfold bind at 1. unfold logging at 1, log at 1.
  set (cmd0 := ["docker"; "run"; "--rm"; "-t"; "-v"; _; "--env-file"; ".env"; _; _]).
  assert (Hcmd : ∃ cmd,
    ∀ w1 : world, match environ h !! "OMEGA_DOCKER_CPUS" with
          | Some cpus =>
              if negb (String.eqb cpus "") then
                match py_index "-t" cmd0 with
                | Some i => ret (py_insert i ("--cpus=" +:+ cpus) cmd0)
                | None => raise (Exn ValueError "'-t' is not in list")
                end
              else ret cmd0
          | None => ret cmd0
          end w1 = (Ok cmd, w1)).
  { destruct (environ h !! "OMEGA_DOCKER_CPUS") as [cpus|]; [|by eexists].
    destruct (negb (String.eqb cpus "")); by eexists. }
  destruct Hcmd as [cmd Hcmd].
  unfold bind at 1. rewrite Hcmd.
  unfold bind at 1. unfold set_docker_cmdline at 1.
  unfold bind at 1. unfold write_file at 1.
  unfold bind at 1. unfold logging at 1, log at 1.
  unfold bind at 1.
  match goal with |- context [for_each ?ls ?f ?w1] =>
    destruct (for_each_logging ls w1) as [w' Hw'] end.
  rewrite Hw'.
  destruct (Z.eqb_spec (proc_exit (container h cmd)) 0) as [E|_].
  - by apply Hexit in E.
  - by eexists.
Qed.

(** C8, on a run: the container writes an error on its standard error and
    exits with code 1.  [execute_docker_container] raises, but the message
    holds [None] and not what the container wrote, which only reached the
    debug log. *)
Theorem docker_error_message_without_stderr :
  let r := execute_docker_container sample_host sample_runner empty_world in
  fst r = Raise (Exn RuntimeError "Error running docker container: None")
  ∧ contains "image pull failed" "Error running docker container: None" = false
  ∧ w_log (snd r)
    = [Log INFO "Running Omega analysis toolchain" [];
       Log DEBUG "Running command: %s"
         [LCmd ["docker"; "run"; "--rm"; "-t"; "-v"; "/w:/opt/export"; "--env-file"; ".env";
                "openssf/omega-toolshed:latest"; "pkg:npm/left-pad@1.3.0"]];
       Log DEBUG "scanning" [];
       Log DEBUG "fatal: image pull failed" []].
Proof. vm_compute. repeat split; reflexivity. Qed.

End ContainerFacts.

(** ** The policy refresher *)

Module RefresherFacts.
Import Policy RefresherSpec.

(** *** Status normalization *)

Lemma string_length_ind (P : string → Prop) :
  (∀ s, (∀ t, (String.length t < String.length s)%nat → P t) → P s) → ∀ s, P s.
Proof.
  intros H s. remember (String.length s) as n eqn:Hn. revert s Hn.
  induction n as [n IH] using lt_wf_ind. intros s ->. apply H.
  intros t Ht. by apply (IH _ Ht).
Qed.

Lemma append_nil_r (s : string) : s +:+ "" = s.
Proof. induction s as [|c s IH]; cbn [String.append]; congruence. Qed.

Lemma append_assoc (a b c : string) : (a +:+ b) +:+ c = a +:+ (b +:+ c).
Proof. induction a as [|x a IH]; cbn [String.append]; congruence. Qed.

(** The encodings of the white-space characters are apart: one that starts
    a character on two or three bytes is not white space on its own, nor
    the start of a shorter one. *)
Lemma is_space2_first c1 c2 : Str.is_space2 c1 c2 = true → Str.is_space c1 = false.
Proof.
  unfold Str.is_space2, Str.is_space. intros [H1 _]%andb_true_iff.
  apply Nat.eqb_eq in H1. by rewrite H1.
Qed.

Lemma is_space3_first c1 c2 c3 :
  Str.is_space3 c1 c2 c3 = true →
  Str.is_space c1 = false ∧ ∀ x, Str.is_space2 c1 x = false.
Proof.
  unfold Str.is_space3, Str.is_space2, Str.is_space. intros H.
  assert (Hn : nat_of_ascii c1 = 225%nat ∨ nat_of_ascii c1 = 226%nat ∨
               nat_of_ascii c1 = 227%nat).
  { repeat (apply orb_true_iff in H as [H|H]);
      repeat (apply andb_true_iff in H as [H ?]); apply Nat.eqb_eq in H; auto. }
  destruct Hn as [-> | [-> | ->]]; by split.
Qed.

(** No white-space character starts with a character that is [plain_char]. *)
Lemma plain_char_first c :
  plain_char c = true →
  Str.is_space c = false ∧ (∀ x, Str.is_space2 c x = false) ∧
  (∀ x y, Str.is_space3 c x y = false).
Proof.
  unfold plain_char. intros [Hs Hn]%andb_true_iff.
  apply negb_true_iff in Hs. apply Nat.ltb_lt in Hn. split; [exact Hs|].
  unfold Str.is_space2, Str.is_space3.
  assert (H194 : Nat.eqb (nat_of_ascii c) 194 = false) by (apply Nat.eqb_neq; lia).
  assert (H225 : Nat.eqb (nat_of_ascii c) 225 = false) by (apply Nat.eqb_neq; lia).
  assert (H226 : Nat.eqb (nat_of_ascii c) 226 = false) by (apply Nat.eqb_neq; lia).
  assert (H227 : Nat.eqb (nat_of_ascii c) 227 = false) by (apply Nat.eqb_neq; lia).
  split; intros; by rewrite ?H194, ?H225, ?H226, ?H227.
Qed.

Lemma lstrip_1 c r : Str.is_space c = true → Str.lstrip (String c r) = Str.lstrip r.
Proof. intros H. cbn [Str.lstrip]. by rewrite H. Qed.

Lemma lstrip_2 c1 c2 r :
  Str.is_space2 c1 c2 = true → Str.lstrip (String c1 (String c2 r)) = Str.lstrip r.
Proof. intros H. cbn [Str.lstrip]. by rewrite (is_space2_first _ _ H), H. Qed.

Lemma lstrip_3 c1 c2 c3 r :
  Str.is_space3 c1 c2 c3 = true →
  Str.lstrip (String c1 (String c2 (String c3 r))) = Str.lstrip r.
Proof.
  intros H. destruct (is_space3_first _ _ _ H) as [H1 H2]. cbn [Str.lstrip].
  by rewrite H1, H2, H.
Qed.

(** What [lstrip] removes is white space, and what it leaves follows it. *)
Lemma lstrip_split s : ∃ l, white l ∧ s = l +:+ Str.lstrip s.
Proof.
  induction s as [s IH] using string_length_ind.
  destruct s as [|c1 r1]; [exists ""; split; [constructor|done]|].
  destruct (Str.is_space c1) eqn:H1.
  { destruct (IH r1) as (l & Hl & Hr1); [cbn; lia|].
    exists (String c1 l). split; [by constructor|].
    rewrite (lstrip_1 _ _ H1). cbn [String.append]. by rewrite <- Hr1. }
  destruct r1 as [|c2 r2].
  { exists "". split; [constructor|]. cbn [Str.lstrip String.append]. by rewrite H1. }
  destruct (Str.is_space2 c1 c2) eqn:H2.
  { destruct (IH r2) as (l & Hl & Hr2); [cbn; lia|].
    exists (String c1 (String c2 l)). split; [by constructor|].
    rewrite (lstrip_2 _ _ _ H2). cbn [String.append]. by rewrite <- Hr2. }
  destruct r2 as [|c3 r3].
  { exists "". split; [constructor|]. cbn [Str.lstrip String.append]. by rewrite H1, H2. }
  destruct (Str.is_space3 c1 c2 c3) eqn:H3.
  { destruct (IH r3) as (l & Hl & Hr3); [cbn; lia|].
    exists (String c1 (String c2 (String c3 l))). split; [by constructor|].
    rewrite (lstrip_3 _ _ _ _ H3). cbn [String.append]. by rewrite <- Hr3. }
  exists "". split; [constructor|]. cbn [Str.lstrip String.append]. by rewrite H1, H2, H3.
Qed.

Lemma lstrip_white_app l s : white l → Str.lstrip (l +:+ s) = Str.lstrip s.
Proof.
  induction 1 as [|c r H _ IH|c1 c2 r H _ IH|c1 c2 c3 r H _ IH]; cbn [String.append].
  - done.
  - by rewrite (lstrip_1 _ _ H).
  - by rewrite (lstrip_2 _ _ _ H).
  - by rewrite (lstrip_3 _ _ _ _ H).
Qed.

Lemma lstrip_white s : white s → Str.lstrip s = "".
Proof.
  intros H. rewrite <- (append_nil_r s). by rewrite (lstrip_white_app s "" H).
Qed.

Lemma lstrip_empty_white s : Str.lstrip s = "" → white s.
Proof.
  intros H. destruct (lstrip_split s) as (l & Hl & Hs). rewrite H, append_nil_r in Hs.
  by subst.
Qed.

Lemma white_app a b : white a → white b → white (a +:+ b).
Proof.
  induction 1; intros Hb; cbn [String.append];
    [done|apply white_1; auto|apply white_2; auto|apply white_3; auto].
Qed.

Lemma blank_white s : blank s = true ↔ white s.
Proof.
  split.
  - induction s as [s IH] using string_length_ind.
    destruct s as [|c1 r1]; [constructor|]. cbn [blank].
    intros [[H1 Hr]%andb_true_iff|H]%orb_true_iff.
    { constructor; [done|]. apply IH; [cbn; lia|done]. }
    destruct r1 as [|c2 r2]; [done|].
    apply orb_true_iff in H as [[H2 Hr]%andb_true_iff|H].
    { constructor; [done|]. apply IH; [cbn; lia|done]. }
    destruct r2 as [|c3 r3]; [done|].
    apply andb_true_iff in H as [H3 Hr].
    constructor; [done|]. apply IH; [cbn; lia|done].
  - induction 1 as [|c r H _ IH|c1 c2 r H _ IH|c1 c2 c3 r H _ IH]; cbn [blank].
    + done.
    + by rewrite H, IH.
    + rewrite H, IH. cbn [andb]. by rewrite orb_true_r.
    + rewrite H, IH. cbn [andb]. by rewrite !orb_true_r.
Qed.

(** What [rstrip] removes is white space too. *)
Lemma rstrip_split s : ∃ r, white r ∧ s = Str.rstrip s +:+ r.
Proof.
  induction s as [|c s IH]; [exists ""; split; [constructor|done]|].
  cbn [Str.rstrip]. destruct (String.eqb_spec (Str.lstrip (String c s)) "") as [He|Hne].
  - exists (String c s). split; [by apply lstrip_empty_white|done].
  - destruct IH as (r & Hr & Hs). exists r. split; [done|].
    cbn [String.append]. by rewrite <- Hs.
Qed.

Lemma rstrip_white r : white r → Str.rstrip r = "".
Proof.
  intros H. destruct r as [|c r]; [done|]. cbn [Str.rstrip].
  by rewrite (lstrip_white _ H).
Qed.

(** [strip] removes white space on both sides, and nothing else. *)
Lemma strip_split s : ∃ l r, white l ∧ white r ∧ s = l +:+ Str.strip s +:+ r.
Proof.
  destruct (lstrip_split s) as (l & Hl & Hs).
  destruct (rstrip_split (Str.lstrip s)) as (r & Hr & Ht).
  exists l, r. split; [done|]. split; [done|]. unfold Str.strip. by rewrite <- Ht.
Qed.

Lemma strip_empty_white s : Str.strip s = "" ↔ white s.
Proof.
  split.
  - intros He. destruct (strip_split s) as (l & r & Hl & Hr & Hs).
    rewrite He in Hs. cbn [String.append] in Hs. rewrite Hs. by apply white_app.
  - intros H. unfold Str.strip. by rewrite (lstrip_white _ H).
Qed.

(** A word of [plain_char] characters comes out of its padding. *)
Lemma lstrip_plain c y : plain_char c = true → Str.lstrip (String c y) = String c y.
Proof.
  intros (H1 & H2 & H3)%plain_char_first. cbn [Str.lstrip]. rewrite H1.
  destruct y as [|c2 [|c3 y]]; [done|by rewrite H2|by rewrite H2, H3].
Qed.

Lemma rstrip_plain_app w r :
  forallb plain_char (list_ascii_of_string w) = true → white r →
  Str.rstrip (w +:+ r) = w.
Proof.
  intros Hw Hr. induction w as [|c w IH]; cbn [String.append].
  - by apply rstrip_white.
  - cbn [list_ascii_of_string forallb] in Hw. apply andb_true_iff in Hw as [Hc Hw].
    cbn [Str.rstrip]. rewrite (lstrip_plain c (w +:+ r) Hc). cbn [String.eqb].
    by rewrite (IH Hw).
Qed.

Lemma strip_plain_padded l w r :
  white l → white r → w ≠ "" → forallb plain_char (list_ascii_of_string w) = true →
  Str.strip (l +:+ w +:+ r) = w.
Proof.
  intros Hl Hr Hne Hw. unfold Str.strip. rewrite (lstrip_white_app l _ Hl).
  destruct w as [|c w]; [done|]. cbn [String.append].
  cbn [list_ascii_of_string forallb] in Hw. apply andb_true_iff in Hw as Hcw.
  rewrite (lstrip_plain c (w +:+ r) (proj1 Hcw)).
  exact (rstrip_plain_app (String c w) r Hw Hr).
Qed.

(** Lower-casing touches the ASCII letters only: white space stays what it
    is, and where it is. *)
Lemma lower_app a b : Str.lower (a +:+ b) = Str.lower a +:+ Str.lower b.
Proof. induction a as [|c a IH]; cbn [Str.lower String.append]; congruence. Qed.

Lemma lower_app_inv s a b :
  Str.lower s = a +:+ b → ∃ a0 b0, s = a0 +:+ b0 ∧ Str.lower a0 = a ∧ Str.lower b0 = b.
Proof.
  revert s. induction a as [|c a IH]; intros s; cbn [String.append].
  - intros H. by exists "", s.
  - destruct s as [|d s]; [discriminate|]. cbn [Str.lower]. intros [= Hc Hs].
    destruct (IH s Hs) as (a0 & b0 & -> & Ha & Hb).
    exists (String d a0), b0. cbn [Str.lower String.append]. by rewrite Hc, Ha.
Qed.

Lemma lower_ascii_high c :
  (91 ≤ nat_of_ascii c)%nat ∨ (nat_of_ascii c < 65)%nat → Str.lower_ascii c = c.
Proof.
  intros H. unfold Str.lower_ascii.
  destruct (Nat.leb 65 (nat_of_ascii c)) eqn:H1, (Nat.leb (nat_of_ascii c) 90) eqn:H2;
    try done.
  apply Nat.leb_le in H1, H2. lia.
Qed.

Lemma is_space_lower c : Str.is_space (Str.lower_ascii c) = true → Str.lower_ascii c = c.
Proof.
  destruct c as [[] [] [] [] [] [] [] []]; cbv; congruence.
Qed.

Lemma nat_of_lower_ascii c :
  (128 ≤ nat_of_ascii (Str.lower_ascii c))%nat → Str.lower_ascii c = c.
Proof.
  intros H. unfold Str.lower_ascii in *.
  destruct (Nat.leb 65 (nat_of_ascii c) && Nat.leb (nat_of_ascii c) 90)%bool eqn:Hc; [|done].
  apply andb_true_iff in Hc as [H1 H2]. apply Nat.leb_le in H1, H2.
  rewrite nat_ascii_embedding in H by lia. lia.
Qed.

Lemma is_space2_lower c1 c2 :
  Str.is_space2 (Str.lower_ascii c1) (Str.lower_ascii c2) = true →
  Str.lower_ascii c1 = c1 ∧ Str.lower_ascii c2 = c2.
Proof.
  unfold Str.is_space2. intros [H1 H2]%andb_true_iff. apply Nat.eqb_eq in H1.
  split; apply nat_of_lower_ascii; [lia|].
  apply orb_true_iff in H2 as [H2|H2]; apply Nat.eqb_eq in H2; lia.
Qed.

Lemma is_space3_lower c1 c2 c3 :
  Str.is_space3 (Str.lower_ascii c1) (Str.lower_ascii c2) (Str.lower_ascii c3) = true →
  Str.lower_ascii c1 = c1 ∧ Str.lower_ascii c2 = c2 ∧ Str.lower_ascii c3 = c3.
Proof.
  unfold Str.is_space3. intros H.
  assert (Hn : (128 ≤ nat_of_ascii (Str.lower_ascii c1))%nat ∧
               (128 ≤ nat_of_ascii (Str.lower_ascii c2))%nat ∧
               (128 ≤ nat_of_ascii (Str.lower_ascii c3))%nat).
  { repeat (apply orb_true_iff in H as [H|H]);
      repeat match goal with
             | H : (_ && _)%bool = true |- _ => apply andb_true_iff in H as [? ?]
             | H : (_ || _)%bool = true |- _ => apply orb_true_iff in H as [?|?]
             | H : Nat.eqb _ _ = true |- _ => apply Nat.eqb_eq in H
             | H : Nat.leb _ _ = true |- _ => apply Nat.leb_le in H
             end; lia. }
  destruct Hn as (H1 & H2 & H3). by rewrite !nat_of_lower_ascii.
Qed.

Lemma white_lower_eq t : white t → ∀ s, t = Str.lower s → t = s.
Proof.
  induction 1 as [|c r H _ IH|c1 c2 r H _ IH|c1 c2 c3 r H _ IH]; intros s Ht.
  - by destruct s.
  - destruct s as [|d s]; [discriminate|]. cbn [Str.lower] in Ht.
    injection Ht as Hc Hr. subst c. rewrite (is_space_lower _ H). f_equal. by apply IH.
  - destruct s as [|d1 [|d2 s]]; try discriminate. cbn [Str.lower] in Ht.
    injection Ht as Hc1 Hc2 Hr. subst c1 c2. destruct (is_space2_lower _ _ H) as [E1 E2].
    rewrite E1, E2. do 2 f_equal. by apply IH.
  - destruct s as [|d1 [|d2 [|d3 s]]]; try discriminate. cbn [Str.lower] in Ht.
    injection Ht as Hc1 Hc2 Hc3 Hr. subst c1 c2 c3.
    destruct (is_space3_lower _ _ _ H) as (E1 & E2 & E3).
    rewrite E1, E2, E3. do 3 f_equal. by apply IH.
Qed.

Lemma white_lower s : white (Str.lower s) → Str.lower s = s.
Proof. intros H. by apply (white_lower_eq _ H). Qed.

Lemma lower_white s : white s → Str.lower s = s.
Proof.
  induction 1 as [|c r H _ IH|c1 c2 r H _ IH|c1 c2 c3 r H _ IH]; cbn [Str.lower].
  - done.
  - rewrite IH. f_equal. destruct c as [[] [] [] [] [] [] [] []]; cbv in H |- *; congruence.
  - rewrite IH. unfold Str.is_space2 in H. apply andb_true_iff in H as [H1 H2].
    apply Nat.eqb_eq in H1.
    rewrite !lower_ascii_high; [done| |].
    + apply orb_true_iff in H2 as [H2|H2]; apply Nat.eqb_eq in H2; lia.
    + lia.
  - rewrite IH.
    assert (Hn : (128 ≤ nat_of_ascii c1)%nat ∧ (128 ≤ nat_of_ascii c2)%nat ∧
                 (128 ≤ nat_of_ascii c3)%nat).
    { unfold Str.is_space3 in H.
      repeat (apply orb_true_iff in H as [H|H]);
        repeat match goal with
               | H : (_ && _)%bool = true |- _ => apply andb_true_iff in H as [? ?]
               | H : (_ || _)%bool = true |- _ => apply orb_true_iff in H as [?|?]
               | H : Nat.eqb _ _ = true |- _ => apply Nat.eqb_eq in H
               | H : Nat.leb _ _ = true |- _ => apply Nat.leb_le in H
               end; lia. }
    destruct Hn as (H1 & H2 & H3). rewrite !lower_ascii_high by lia. done.
Qed.

(** The text reads [word], a word of [plain_char] characters, once it is
    lower-cased and stripped, exactly when it is that word, in any case of
    its letters, between white space. *)
Lemma normalized_word s word :
  word ≠ "" → forallb plain_char (list_ascii_of_string word) = true →
  Str.strip (Str.lower s) = word ↔
  ∃ l w r, s = l +:+ w +:+ r ∧ blank l = true ∧ blank r = true ∧ Str.lower w = word.
Proof.
  intros Hne Hplain. split.
  - intros Hs. destruct (strip_split (Str.lower s)) as (l' & r' & Hl & Hr & Hsplit).
    rewrite Hs in Hsplit.
    apply lower_app_inv in Hsplit as (l & wr & -> & El & Ewr).
    apply lower_app_inv in Ewr as (w & r & -> & Ew & Er).
    exists l, w, r. split; [done|]. subst l' r'.
    apply white_lower in Hl as Hl', Hr as Hr'. rewrite Hl' in Hl. rewrite Hr' in Hr.
    by rewrite !(proj2 (blank_white _)).
  - intros (l & w & r & -> & Hl%blank_white & Hr%blank_white & Hw).
    rewrite !lower_app, (lower_white l), (lower_white r), Hw by done.
    by apply strip_plain_padded.
Qed.

Lemma normalized_empty s : Str.strip (Str.lower s) = "" ↔ blank s = true.
Proof.
  rewrite strip_empty_white, blank_white. split.
  - intros H. by rewrite <- (white_lower _ H).
  - intros H. by rewrite (lower_white _ H).
Qed.

(** *** The results table *)

Lemma filter_eq_at_most_one (P : evaluation → Prop) `{∀ x, Decision (P x)} table row :
  P row → NoDup (filter P table) →
  filter (fun r => r = row) table = if decide (row ∈ table) then [row] else [].
Proof.
  intros HP. induction table as [|a t IH]; intros Hnd.
  - rewrite decide_False; [done|]. by intros ?%elem_of_nil.
  - rewrite filter_cons. destruct (decide (a = row)) as [->|Hne].
    + rewrite filter_cons_True in Hnd by done. apply NoDup_cons in Hnd as [Hnot Hnd].
      rewrite (decide_True (P := row ∈ row :: t)) by (apply elem_of_cons; by left).
      rewrite (IH Hnd). rewrite decide_False; [done|].
      intros Hin. apply Hnot. by apply list_elem_of_filter.
    + assert (Hnd' : NoDup (filter P t)).
      { rewrite filter_cons in Hnd. destruct (decide (P a)); [|done].
        by apply NoDup_cons in Hnd as [_ ?]. }
      rewrite (IH Hnd'). destruct (decide (row ∈ t)) as [Hin|Hin].
      * rewrite decide_True; [done|]. apply elem_of_cons. by right.
      * rewrite decide_False; [done|]. intros [->|?]%elem_of_cons; done.
Qed.

Lemma filter_insert_new (P : evaluation → Prop) `{∀ x, Decision (P x)} table row :
  P row → filter P (insert_new table row) = insert_new (filter P table) row.
Proof.
  intros HP. unfold insert_new.
  destruct (decide (row ∈ table)) as [Hin|Hin].
  - rewrite decide_True; [done|]. by apply list_elem_of_filter.
  - rewrite decide_False.
    + by rewrite filter_app, filter_cons_True.
    + intros [_ ?]%list_elem_of_filter. done.
Qed.

Lemma filter_upsert_all (P : evaluation → Prop) `{∀ x, Decision (P x)} table rows :
  Forall P rows → filter P (upsert_all table rows) = upsert_all (filter P table) rows.
Proof.
  intros Hrows. revert table. induction Hrows as [|x rows Hx _ IH]; intros table; [done|].
  unfold upsert_all in *. cbn [fold_left]. by rewrite IH, filter_insert_new.
Qed.

Lemma NoDup_insert_new table row : NoDup table → NoDup (insert_new table row).
Proof.
  intros Hnd. unfold insert_new. destruct (decide (row ∈ table)); [done|].
  apply NoDup_app. split; [done|]. split; [|apply NoDup_singleton].
  intros x Hx ->%list_elem_of_singleton. done.
Qed.

Lemma elem_of_insert_new table row x : x ∈ insert_new table row ↔ x ∈ table ∨ x = row.
Proof.
  unfold insert_new. destruct (decide (row ∈ table)) as [Hin|Hin].
  - split; [by left|]. intros [?| ->]; done.
  - by rewrite elem_of_app, list_elem_of_singleton.
Qed.

Lemma NoDup_upsert_all table rows : NoDup table → NoDup (upsert_all table rows).
Proof.
  revert table. induction rows as [|x rows IH]; intros table Hnd; [done|].
  unfold upsert_all in *. cbn [fold_left]. by apply IH, NoDup_insert_new.
Qed.

Lemma elem_of_upsert_all table rows x :
  x ∈ upsert_all table rows ↔ x ∈ table ∨ x ∈ rows.
Proof.
  revert table. induction rows as [|y rows IH]; intros table.
  - cbn. rewrite elem_of_nil. tauto.
  - unfold upsert_all in *. cbn [fold_left]. rewrite IH, elem_of_insert_new, elem_of_cons.
    tauto.
Qed.

Lemma results_of_cleared s table : results_of s (cleared s table) = [].
Proof.
  unfold results_of, cleared. induction table as [|a t IH]; [done|].
  rewrite (filter_cons _ a t). destruct (decide (e_subject a ≠ subject_pk s)); [|done].
  by rewrite filter_cons_False.
Qed.

(** *** The upsert loop *)

(** With at most one copy of each row of the subject in the table,
    [update_or_create] finds nothing and creates the row, or finds the row
    and leaves it. *)
Lemma update_or_create_insert_new s row w :
  e_subject row = subject_pk s → NoDup (results_of s (w_results w)) →
  Results_update_or_create row w
  = (Ok tt,
     World (w_log w) (w_subjects w) (w_assertions w) (w_policies w)
           (insert_new (w_results w) row) (w_db w ++ [UpdateOrCreateResult row])
           (w_fs w) (w_calls w)).
Proof.
  intros Hs Hnd. unfold Results_update_or_create.
  rewrite (filter_eq_at_most_one (fun r => e_subject r = subject_pk s)) by done.
  unfold insert_new. destruct (decide (row ∈ w_results w)); reflexivity.
Qed.

(** The loop once nothing is left to clear. *)
Lemma upsert_results_plain s clear_first already_cleared vs w :
  (clear_first && negb already_cleared)%bool = false →
  NoDup (results_of s (w_results w)) →
  upsert_results s clear_first already_cleared vs w
  = (Ok tt,
     World (w_log w ++ map (verdict_log s) vs) (w_subjects w) (w_assertions w)
           (policies_after (w_policies w) vs)
           (upsert_all (w_results w) (map (row_of s) vs))
           (w_db w ++ upsert_calls s vs) (w_fs w) (w_calls w)).
Proof.
  intros Hflag. revert w. induction vs as [|v vs IH]; intros w Hnd.
  - cbn. rewrite !app_nil_r. by destruct w.
  - cbn [upsert_results]. unfold bind at 1. unfold Policy_get_or_create at 1.
    unfold bind at 1. unfold logging at 1, log at 1, append_log at 1.
    rewrite Hflag. unfold bind at 1. unfold ret at 1.
    unfold bind at 1. cbn [w_log w_subjects w_assertions w_policies w_results w_db w_fs w_calls].
    rewrite (update_or_create_insert_new s) by done.
    cbn [w_log w_subjects w_assertions w_policies w_results w_db w_fs w_calls].
    rewrite IH.
    + cbn [w_log w_subjects w_assertions w_policies w_results w_db w_fs w_calls
           map upsert_calls flat_map policies_after upsert_all fold_left app].
      unfold verdict_log at 2, row_of at 3.
      by rewrite <- !app_assoc.
    + cbn [w_results]. unfold results_of.
      rewrite filter_insert_new by done. by apply NoDup_insert_new.
Qed.

(** The loop with the clear flag set: the rows of the subject are deleted
    after the first policy is looked up and before the first row is
    written, and never again. *)
Lemma upsert_results_clear s v vs w :
  upsert_results s true false (v :: vs) w
  = (Ok tt,
     World (w_log w ++ map (verdict_log s) (v :: vs)) (w_subjects w) (w_assertions w)
           (policies_after (w_policies w) (v :: vs))
           (upsert_all (cleared s (w_results w)) (map (row_of s) (v :: vs)))
           (w_db w ++ [GetOrCreatePolicy (policy_identifier v);
                       DeleteResults (subject_pk s);
                       UpdateOrCreateResult (row_of s v)] ++ upsert_calls s vs)
           (w_fs w) (w_calls w)).
Proof.
  cbn [upsert_results]. unfold bind at 1. unfold Policy_get_or_create at 1.
  unfold bind at 1. unfold logging at 1, log at 1, append_log at 1.
  cbn [andb negb]. unfold bind at 1. unfold bind at 1. unfold Results_delete at 1.
  unfold ret at 1. unfold bind at 1.
  cbn [w_log w_subjects w_assertions w_policies w_results w_db w_fs w_calls].
  assert (Hempty : results_of s (cleared s (w_results w)) = []) by apply results_of_cleared.
  rewrite (update_or_create_insert_new s).
  - cbn [w_log w_subjects w_assertions w_policies w_results w_db w_fs w_calls].
    rewrite upsert_results_plain.
    + cbn [w_log w_subjects w_assertions w_policies w_results w_db w_fs w_calls
           map policies_after upsert_all fold_left app].
      unfold verdict_log at 2, row_of at 4, cleared.
      by rewrite <- !app_assoc.
    + reflexivity.
    + cbn [w_results]. unfold results_of. rewrite filter_insert_new by done.
      fold (cleared s (w_results w)). fold (results_of s (cleared s (w_results w))).
      rewrite Hempty. apply NoDup_insert_new, NoDup_nil_2.
  - reflexivity.
  - cbn [w_results]. fold (cleared s (w_results w)). rewrite Hempty. apply NoDup_nil_2.
Qed.

(** *** One subject *)

Lemma for_each_fs {A} (ev : A → fs_event) (l : list A) w :
  for_each l (fun a => fs (ev a)) w
  = (Ok tt,
     World (w_log w) (w_subjects w) (w_assertions w) (w_policies w) (w_results w) (w_db w)
           (w_fs w ++ map ev l) (w_calls w)).
Proof.
  revert w. induction l as [|a l IH]; intros w.
  - cbn. rewrite app_nil_r. by destruct w.
  - cbn [for_each]. unfold bind. unfold fs at 1. rewrite IH. cbn.
    by rewrite <- app_assoc.
Qed.

(** Up to the evaluator call: the subject is logged, its assertions are
    written to a fresh directory and the evaluator is started. *)
Lemma refresh_policies_subject_unfold h s clear_first w :
  s_type s = SUBJECT_TYPE_PACKAGE_URL →
  refresh_policies_subject h s clear_first w
  = let w1 := evaluated h s w in
    let tmpdir := mkdtemp h (length (w_calls w)) in
    match evaluator h (length (w_calls w)) (evaluation_call h s (length (w_calls w))) with
    | Expired =>
        (Raise (Exn AttributeError "'NoneType' object has no attribute 'stdout'"),
         cleaned tmpdir (log_more [Log WARNING "Timeout evaluating assertion" []] w1))
    | Returned returncode stdout stderr =>
        if returncode =? 0 then
          match out_json stdout with
          | Unparsable msg =>
              (Ok tt,
               cleaned tmpdir
                 (log_more [Log WARNING "Error parsing oaf output: %s"
                              [LVal (PStr msg)]] w1))
          | Parsed results =>
              match upsert_results s clear_first false results w1 with
              | (Raise e, w2) =>
                  if is_TimeoutExpired e
                  then (Raise (Exn AttributeError
                                 "'NoneType' object has no attribute 'stdout'"),
                        cleaned tmpdir
                          (log_more [Log WARNING "Timeout evaluating assertion" []] w2))
                  else (Raise e, cleaned tmpdir w2)
              | (Ok _, w2) => (Ok tt, cleaned tmpdir w2)
              end
          | NotIterable a =>
              (Raise (Exn TypeError ("'" +:+ scalar_name a +:+ "' object is not iterable")),
               cleaned tmpdir w1)
          | Illtyped results next =>
              match (upsert_results s clear_first false results ;;;
                     upsert_misfit next)%py w1 with
              | (Raise e, w2) =>
                  if is_TimeoutExpired e
                  then (Raise (Exn AttributeError
                                 "'NoneType' object has no attribute 'stdout'"),
                        cleaned tmpdir
                          (log_more [Log WARNING "Timeout evaluating assertion" []] w2))
                  else (Raise e, cleaned tmpdir w2)
              | (Ok _, w2) => (Ok tt, cleaned tmpdir w2)
              end
          end
        else
          (Ok tt,
           cleaned tmpdir
             (log_more [Log WARNING "Error evaluating assertion, return code: %d"
                          [LInt returncode];
                        Log WARNING "STDOUT: %s" [LVal (PStr (out_text stdout))];
                        Log WARNING "STDERR: %s" [LVal (PStr stderr)]] w1))
    | Failed e =>
        if is_TimeoutExpired e
        then (Raise (Exn AttributeError "'NoneType' object has no attribute 'stdout'"),
              cleaned tmpdir (log_more [Log WARNING "Timeout evaluating assertion" []] w1))
        else (Raise e, cleaned tmpdir w1)
    end.
Proof.
  intros Hty. unfold refresh_policies_subject. rewrite Hty.
  unfold bind at 1. unfold logging at 1, log at 1, append_log at 1.
  unfold with_TemporaryDirectory. unfold fs at 1.
  cbn [w_log w_subjects w_assertions w_policies w_results w_db w_fs w_calls].
  unfold bind at 1. unfold Assertion_objects_filter at 1.
  cbn [w_log w_subjects w_assertions w_policies w_results w_db w_fs w_calls].
  unfold bind at 1. rewrite for_each_fs.
  cbn [w_log w_subjects w_assertions w_policies w_results w_db w_fs w_calls].
  unfold try_except. unfold bind at 1. unfold subprocess_run at 1.
  cbn [w_log w_subjects w_assertions w_policies w_results w_db w_fs w_calls].
  fold (evaluation_call h s (length (w_calls w))).
  destruct (evaluator h (length (w_calls w)) (evaluation_call h s (length (w_calls w))))
    as [|returncode stdout stderr|e].
  - cbn. unfold cleaned, log_more, evaluated, subject_files. cbn.
    by rewrite <- !app_assoc.
  - destruct (returncode =? 0).
    + destruct (out_json stdout) as [msg|results|a|results next].
      * cbn. unfold cleaned, log_more, evaluated, subject_files. cbn.
        by rewrite <- !app_assoc.
      * unfold evaluated, subject_files. rewrite <- !app_assoc. cbn [app].
        destruct (upsert_results s clear_first false results _) as [[[]|e] w2]; [done|].
        destruct (is_TimeoutExpired e); [|done].
        cbn. unfold cleaned, log_more. cbn. done.
      * cbn. unfold cleaned, log_more, evaluated, subject_files. cbn.
        by rewrite <- !app_assoc.
      * unfold evaluated, subject_files. rewrite <- !app_assoc. cbn [app].
        destruct (bind _ _ _) as [[[]|e] w2]; [done|].
        destruct (is_TimeoutExpired e); [|done].
        cbn. unfold cleaned, log_more. cbn. done.
    + cbn. unfold cleaned, log_more, evaluated, subject_files. cbn.
      by rewrite <- !app_assoc.
  - unfold evaluated, subject_files, cleaned, log_more, logging, log, append_log, bind, getattr,
      raise.
    destruct (is_TimeoutExpired e); cbn; by rewrite <- !app_assoc.
Qed.

(** C3: the stored status is a function of the evaluator's [state] alone.
    A state string gives PASSED exactly when it reads [pass], in any case of
    its letters, between white space (any characters [str.isspace] accepts,
    or none); FAILED exactly when it reads [fail] or [failed] in that way;
    UNKNOWN exactly when it is white space only or empty, as does a
    [state] that is missing; INDETERMINATE in every other case.  A [state]
    that is there but is not a string ([null], a number) is not normalized:
    [.lower()] raises [AttributeError] once the policy has been looked up,
    the error leaves [refresh_policies], and no result is stored for it. *)
Theorem normalize_status_cases :
  (∀ s, normalize_status (Some s) = PASSED ↔
        ∃ l w r, s = l +:+ w +:+ r ∧ blank l = true ∧ blank r = true ∧
                 Str.lower w = "pass") ∧
  (∀ s, normalize_status (Some s) = FAILED ↔
        ∃ l w r, s = l +:+ w +:+ r ∧ blank l = true ∧ blank r = true ∧
                 (Str.lower w = "fail" ∨ Str.lower w = "failed")) ∧
  (∀ st, normalize_status st = UNKNOWN ↔
         st = None ∨ ∃ s, st = Some s ∧ blank s = true) ∧
  (∀ st, normalize_status st = INDETERMINATE ↔
         ∃ s, st = Some s ∧ blank s = false ∧
              ∀ l w r, s = l +:+ w +:+ r → blank l = true → blank r = true →
                       Str.lower w ≠ "pass" ∧ Str.lower w ≠ "fail" ∧
                       Str.lower w ≠ "failed") ∧
  normalize_status (Some "PASS") = PASSED ∧
  normalize_status (Some " Fail ") = FAILED ∧
  normalize_status (Some "timeout") = INDETERMINATE ∧
  normalize_status (Some "") = UNKNOWN ∧
  normalize_status None = UNKNOWN ∧
  normalize_status (Some (nbsp +:+ "Pass" +:+ nel)) = PASSED ∧
  (∀ h s clear_first w policy_identifier policy_name t text err,
     s_type s = SUBJECT_TYPE_PACKAGE_URL →
     evaluator h (length (w_calls w)) (evaluation_call h s (length (w_calls w)))
     = Returned 0 (Output text (Illtyped [] (StateNotString policy_identifier policy_name t)))
                err →
     ∃ w', refresh_policies h (Some s) clear_first w
           = (Raise (Exn AttributeError
                       ("'" +:+ no_lower_name t +:+ "' object has no attribute 'lower'")),
              w') ∧
           w_results w' = w_results w ∧
           w_db w' = w_db w ++ [GetOrCreatePolicy policy_identifier]).
Proof.
  assert (Hpass : ∀ s, normalize_status (Some s) = PASSED ↔
                       Str.strip (Str.lower s) = "pass").
  { intros s. unfold normalize_status, default, from_option, id.
    destruct (String.eqb_spec (Str.strip (Str.lower s)) "pass") as [E|E]; [done|].
    split; [|done].
    repeat match goal with |- context [if ?b then _ else _] => destruct b end; done. }
  assert (Hfail : ∀ s, normalize_status (Some s) = FAILED ↔
                       Str.strip (Str.lower s) = "fail" ∨
                       Str.strip (Str.lower s) = "failed").
  { intros s. unfold normalize_status, default, from_option, id.
    destruct (String.eqb_spec (Str.strip (Str.lower s)) "pass") as [E|E].
    { rewrite E. split; [done|]. by intros [|]. }
    destruct (String.eqb_spec (Str.strip (Str.lower s)) "fail") as [E1|E1];
      [cbn [orb]; tauto|].
    destruct (String.eqb_spec (Str.strip (Str.lower s)) "failed") as [E2|E2];
      [cbn [orb]; tauto|].
    cbn [orb]. split; [|tauto].
    repeat match goal with |- context [if ?b then _ else _] => destruct b end; done. }
  assert (Hunknown : ∀ s, normalize_status (Some s) = UNKNOWN ↔
                          Str.strip (Str.lower s) = "").
  { intros s. unfold normalize_status, default, from_option, id.
    destruct (String.eqb_spec (Str.strip (Str.lower s)) "pass") as [E|E].
    { rewrite E. split; done. }
    destruct (String.eqb_spec (Str.strip (Str.lower s)) "fail") as [E1|E1].
    { rewrite E1. cbn [orb]. split; done. }
    destruct (String.eqb_spec (Str.strip (Str.lower s)) "failed") as [E2|E2].
    { rewrite E2. cbn [orb]. split; done. }
    cbn [orb]. destruct (String.eqb_spec (Str.strip (Str.lower s)) "") as [E3|E3];
      cbn [negb]; split; done. }
  assert (H1 : ∀ s, normalize_status (Some s) = PASSED ↔
                    ∃ l w r, s = l +:+ w +:+ r ∧ blank l = true ∧ blank r = true ∧
                             Str.lower w = "pass").
  { intros s. rewrite Hpass. by apply normalized_word. }
  assert (H2 : ∀ s, normalize_status (Some s) = FAILED ↔
                    ∃ l w r, s = l +:+ w +:+ r ∧ blank l = true ∧ blank r = true ∧
                             (Str.lower w = "fail" ∨ Str.lower w = "failed")).
  { intros s. rewrite Hfail, (normalized_word s "fail"), (normalized_word s "failed") by done.
    split.
    - intros [(l & w & r & H)|(l & w & r & H)]; exists l, w, r; tauto.
    - intros (l & w & r & Hs & Hl & Hr & [Hw|Hw]); [left|right]; by exists l, w, r. }
  assert (H3 : ∀ st, normalize_status st = UNKNOWN ↔
                     st = None ∨ ∃ s, st = Some s ∧ blank s = true).
  { intros [s|].
    - rewrite Hunknown, normalized_empty. split.
      + intros H. right. by exists s.
      + by intros [|(s' & [= <-] & H)].
    - split; [by left|done]. }
  split; [exact H1|]. split; [exact H2|]. split; [exact H3|]. split.
  { intros st. split.
    - intros Hind. destruct st as [s|]; [|discriminate]. exists s. split; [done|]. split.
      + destruct (blank s) eqn:Hb; [|done].
        assert (normalize_status (Some s) = UNKNOWN) by (apply H3; right; by exists s).
        congruence.
      + intros l w r Hs Hl Hr. repeat split; intros Hw.
        * assert (normalize_status (Some s) = PASSED) by (apply H1; by exists l, w, r).
          congruence.
        * assert (normalize_status (Some s) = FAILED)
            by (apply H2; exists l, w, r; tauto).
          congruence.
        * assert (normalize_status (Some s) = FAILED)
            by (apply H2; exists l, w, r; tauto).
          congruence.
    - intros (s & -> & Hb & Hnone).
      destruct (normalize_status (Some s)) eqn:Hst; [| |done|].
      + apply H1 in Hst as (l & w & r & Hs & Hl & Hr & Hw).
        by destruct (Hnone l w r Hs Hl Hr) as (? & _).
      + apply H2 in Hst as (l & w & r & Hs & Hl & Hr & Hw).
        destruct (Hnone l w r Hs Hl Hr) as (_ & ? & ?). by destruct Hw.
      + apply H3 in Hst as [|(s' & [= <-] & Hb')]; congruence. }
  repeat (split; [reflexivity|]).
  intros h s clear_first w identifier name t text err Hty Hev. cbn [refresh_policies].
  rewrite refresh_policies_subject_unfold by done. cbv zeta. rewrite Hev.
  cbn [Z.eqb out_json upsert_results upsert_misfit].
  unfold bind, ret, raise, Policy_get_or_create. cbn [is_TimeoutExpired exn_cls].
  eexists. split; [reflexivity|]. split; reflexivity.
Qed.


Lemma rows_subject s vs : Forall (fun r => e_subject r = subject_pk s) (map (row_of s) vs).
Proof.
  apply Forall_forall. intros r Hr.
  apply list_elem_of_In, in_map_iff in Hr as (v & <- & _). reflexivity.
Qed.

Lemma elem_of_map_row_of s vs row :
  row ∈ map (row_of s) vs ↔ ∃ v, v ∈ vs ∧ row = row_of s v.
Proof.
  rewrite list_elem_of_In, in_map_iff. split.
  - intros (v & <- & Hin). exists v. by rewrite list_elem_of_In.
  - intros (v & Hin & ->). exists v. by rewrite <- list_elem_of_In.
Qed.





(** [update_or_create] that returns has stored the row, unless it was
    there. *)
Lemma update_or_create_returns row w w' :
  Results_update_or_create row w = (Ok tt, w') →
  w_results w' = insert_new (w_results w) row.
Proof.
  unfold Results_update_or_create, insert_new.
  destruct (filter (fun r => r = row) (w_results w)) as [|x [|y l]] eqn:Hf;
    intros [= <-]; cbn [w_results].
  - rewrite decide_False; [done|]. intros Hin.
    assert (Hrow : row ∈ filter (fun r => r = row) (w_results w))
      by (by apply list_elem_of_filter).
    rewrite Hf in Hrow. by apply elem_of_nil in Hrow.
  - rewrite decide_True; [done|].
    assert (Hx : x ∈ filter (fun r => r = row) (w_results w))
      by (rewrite Hf; apply elem_of_cons; by left).
    by apply list_elem_of_filter in Hx as [-> ?].
Qed.

(** The loop that returns has upserted the row of each verdict, after
    clearing the rows of the subject when that was asked for and there is a
    verdict. *)
Lemma upsert_results_returns s clear_first already_cleared vs w w' :
  upsert_results s clear_first already_cleared vs w = (Ok tt, w') →
  w_results w'
  = upsert_all
      match vs with
      | [] => w_results w
      | _ => if (clear_first && negb already_cleared)%bool
             then cleared s (w_results w) else w_results w
      end
      (map (row_of s) vs).
Proof.
  revert already_cleared w. induction vs as [|v vs IH]; intros b w.
  { by intros [= <-]. }
  cbn [upsert_results]. unfold bind at 1. unfold Policy_get_or_create at 1.
  unfold bind at 1. unfold logging at 1, log at 1, append_log at 1.
  cbn [w_log w_subjects w_assertions w_policies w_results w_db w_fs w_calls].
  fold (row_of s v).
  unfold bind at 1. destruct (clear_first && negb b)%bool eqn:Hflag.
  - unfold bind at 1. unfold Results_delete at 1. unfold ret at 1.
    cbn [w_log w_subjects w_assertions w_policies w_results w_db w_fs w_calls].
    fold (cleared s (w_results w)). unfold bind at 1.
    destruct (Results_update_or_create _ _) as [[[]|e] w1] eqn:Hup; [|discriminate].
    apply update_or_create_returns in Hup. cbn [w_results] in Hup.
    intros Hrest. apply IH in Hrest. rewrite Hrest, Hup.
    cbn [map upsert_all fold_left]. rewrite andb_false_r. by destruct vs.
  - unfold ret at 1. unfold bind at 1.
    destruct (Results_update_or_create _ _) as [[[]|e] w1] eqn:Hup; [|discriminate].
    apply update_or_create_returns in Hup. cbn [w_results] in Hup.
    intros Hrest. apply IH in Hrest. rewrite Hrest, Hup, Hflag.
    cbn [map upsert_all fold_left]. by destruct vs.
Qed.

(** The results table after a pass that returns with verdicts. *)
Lemma refresh_returns_table h s clear_first w vs text err w' :
  s_type s = SUBJECT_TYPE_PACKAGE_URL →
  evaluator h (length (w_calls w)) (evaluation_call h s (length (w_calls w)))
  = Returned 0 (Output text (Parsed vs)) err →
  refresh_policies h (Some s) clear_first w = (Ok tt, w') →
  w_results w'
  = upsert_all
      match vs with
      | [] => w_results w
      | _ => if clear_first then cleared s (w_results w) else w_results w
      end
      (map (row_of s) vs).
Proof.
  intros Hty Hev. cbn [refresh_policies].
  rewrite refresh_policies_subject_unfold by done. cbv zeta. rewrite Hev.
  cbn [Z.eqb out_json].
  destruct (upsert_results s clear_first false vs (evaluated h s w)) as [[[]|e] w2] eqn:Hloop.
  - intros [= <-]. apply upsert_results_returns in Hloop. cbn [cleaned w_results].
    rewrite Hloop. cbn [evaluated w_results negb]. by rewrite andb_true_r.
  - by destruct (is_TimeoutExpired e).
Qed.

(** C7, as amended: after a pass that returns with parsed verdicts, the
    row of each verdict is stored; and every row stored for its (policy,
    subject) pair has the status of the verdict exactly when the verdicts of
    the pass give that policy no other status and, for a pass without the
    clear flag, no row stored before for the pair has another status.
    Without the clear flag every row stored before the pass is still stored
    after it: a verdict with another status is stored beside the old row,
    not in its place. *)
Theorem pass_one_status_per_pair h s clear_first w vs text err w' :
  s_type s = SUBJECT_TYPE_PACKAGE_URL →
  evaluator h (length (w_calls w)) (evaluation_call h s (length (w_calls w)))
  = Returned 0 (Output text (Parsed vs)) err →
  refresh_policies h (Some s) clear_first w = (Ok tt, w') →
  (clear_first = false → ∀ r, r ∈ w_results w → r ∈ w_results w') ∧
  ∀ u, u ∈ vs →
    row_of s u ∈ w_results w' ∧
    (pair_has_status (policy_identifier u) s (normalize_status (state u)) (w_results w') ↔
     (∀ u', u' ∈ vs → policy_identifier u' = policy_identifier u →
            normalize_status (state u') = normalize_status (state u)) ∧
     (clear_first = false →
      pair_has_status (policy_identifier u) s (normalize_status (state u)) (w_results w))).
Proof.
  intros Hty Hev Hrun.
  pose proof (refresh_returns_table h s clear_first w vs text err w' Hty Hev Hrun) as Hres.
  split.
  { intros -> r Hr. rewrite Hres. apply elem_of_upsert_all. left. by destruct vs. }
  intros u Hu.
  assert (Hbase : w_results w'
                  = upsert_all (if clear_first then cleared s (w_results w) else w_results w)
                               (map (row_of s) vs)).
  { rewrite Hres. destruct vs; [by apply elem_of_nil in Hu|done]. }
  clear Hres. unfold pair_has_status, results_of_pair. rewrite Hbase. split.
  { apply elem_of_upsert_all. right. apply elem_of_map_row_of. by exists u. }
  split.
  - intros Hone. split.
    + intros u' Hu' Hpol. symmetry. rewrite <- (Hone (row_of s u')); [done|].
      apply list_elem_of_filter. split; [by split|].
      apply elem_of_upsert_all. right. apply elem_of_map_row_of. by exists u'.
    + intros -> r [Hr Hin]%list_elem_of_filter. apply Hone.
      apply list_elem_of_filter. split; [done|]. apply elem_of_upsert_all. by left.
  - intros [Hvs Hold] r [[Hpol Hsub] Hin]%list_elem_of_filter.
    apply elem_of_upsert_all in Hin as [Hin|Hin].
    + destruct clear_first.
      * unfold cleared in Hin. by apply list_elem_of_filter in Hin as [? _].
      * apply Hold; [done|]. by apply list_elem_of_filter.
    + apply elem_of_map_row_of in Hin as (u' & Hu' & ->). by apply Hvs.
Qed.

Lemma pass_one_status_per_pair_witness :
  let w := sample_world [Evaluation "policy.a" 2 FAILED evaluated_by] in
  let h := sample_evaluator [verdict_a "fail"; verdict_b "PASS "] in
  let r := refresh_policies h (Some leftpad) false w in
  fst r = Ok tt ∧
  Evaluation "policy.b" 2 PASSED evaluated_by ∈ w_results (snd r) ∧
  pair_has_status "policy.a" leftpad FAILED (w_results (snd r)).
Proof.
  intros w h r.
  assert (Hrun : refresh_policies h (Some leftpad) false w = (Ok tt, snd r))
    by (vm_compute; reflexivity).
  split; [vm_compute; reflexivity|].
  split.
  - apply (proj2 (pass_one_status_per_pair h leftpad false w
                    [verdict_a "fail"; verdict_b "PASS "] "[...]" "" (snd r) eq_refl eq_refl
                    Hrun) (verdict_b "PASS ")).
    rewrite !elem_of_cons. auto.
  - apply (proj2 (pass_one_status_per_pair h leftpad false w
                    [verdict_a "fail"; verdict_b "PASS "] "[...]" "" (snd r) eq_refl eq_refl
                    Hrun) (verdict_a "fail")); [apply elem_of_cons; by left|].
    split.
    + intros u' Hu' Hpol. rewrite !elem_of_cons, elem_of_nil in Hu'.
      destruct Hu' as [->|[->|[]]]; [reflexivity|discriminate].
    + intros _ x [_ Hx]%list_elem_of_filter. apply list_elem_of_singleton in Hx.
      by subst x.
Defined.

(** C7, as stated, fails: the status is part of the key of the upsert.  A
    pass without the clear flag whose verdict differs from the stored row
    leaves the pair with both rows; and a pass with the clear flag in which
    the evaluator gives one policy two statuses stores both. *)
Lemma refresh_leaves_two_statuses :
  (let w0 := sample_world [Evaluation "policy.a" 2 PASSED evaluated_by] in
   let r := refresh_policies (sample_evaluator [verdict_a "fail"]) (Some leftpad) false w0 in
   one_status_per_pair (w_results w0)
   ∧ fst r = Ok tt
   ∧ w_results (snd r) = [Evaluation "policy.a" 2 PASSED evaluated_by;
                          Evaluation "policy.a" 2 FAILED evaluated_by]
   ∧ ¬ one_status_per_pair (w_results (snd r)))
  ∧
  (let r := refresh_policies (sample_evaluator [verdict_a "pass"; verdict_a "fail"])
              (Some leftpad) true (sample_world three_rows) in
   fst r = Ok tt
   ∧ w_results (snd r) = [Evaluation "policy.a" 2 PASSED evaluated_by;
                          Evaluation "policy.a" 2 FAILED evaluated_by]
   ∧ ¬ one_status_per_pair (w_results (snd r))).
Proof.
  assert (Htwo : ¬ one_status_per_pair [Evaluation "policy.a" 2 PASSED evaluated_by;
                                        Evaluation "policy.a" 2 FAILED evaluated_by]).
  { intros H.
    specialize (H (Evaluation "policy.a" 2 PASSED evaluated_by)
                  (Evaluation "policy.a" 2 FAILED evaluated_by)).
    rewrite !elem_of_cons in H. discriminate H; auto. }
  split.
  - intros w0 r.
    assert (Hres : w_results (snd r) = [Evaluation "policy.a" 2 PASSED evaluated_by;
                                        Evaluation "policy.a" 2 FAILED evaluated_by])
      by (vm_compute; reflexivity).
    split; [|split; [vm_compute; reflexivity|split; [exact Hres|by rewrite Hres]]].
    intros r1 r2 H1%list_elem_of_singleton H2%list_elem_of_singleton _ _. by subst.
  - intros r.
    assert (Hres : w_results (snd r) = [Evaluation "policy.a" 2 PASSED evaluated_by;
                                        Evaluation "policy.a" 2 FAILED evaluated_by])
      by (vm_compute; reflexivity).
    split; [vm_compute; reflexivity|split; [exact Hres|by rewrite Hres]].
Qed.

(** *** The fan-out *)

(** A subject whose evaluation runs out of time: the handler logs the
    timeout and then reads [res.stdout] of a [res] that is still [None];
    the [AttributeError] leaves the function, with no row written. *)
Lemma refresh_policies_subject_timeout h s clear_first w :
  s_type s = SUBJECT_TYPE_PACKAGE_URL →
  evaluator h (length (w_calls w)) (evaluation_call h s (length (w_calls w))) = Expired →
  refresh_policies_subject h s clear_first w
  = (Raise (Exn AttributeError "'NoneType' object has no attribute 'stdout'"),
     cleaned (mkdtemp h (length (w_calls w)))
       (log_more [Log WARNING "Timeout evaluating assertion" []] (evaluated h s w))).
Proof.
  intros Hty Hev. rewrite refresh_policies_subject_unfold by done. cbv zeta.
  by rewrite Hev.
Qed.

(** In a fan-out the error ends the loop over the subjects: those after the
    one that timed out are not evaluated. *)
Lemma fanout_stops_at_timeout h clear_first w s rest :
  w_subjects w = s :: rest →
  s_type s = SUBJECT_TYPE_PACKAGE_URL →
  evaluator h (length (w_calls w)) (evaluation_call h s (length (w_calls w))) = Expired →
  let r := refresh_policies h None clear_first w in
  fst r = Raise (Exn AttributeError "'NoneType' object has no attribute 'stdout'")
  ∧ w_calls (snd r) = w_calls w ++ [evaluation_call h s (length (w_calls w))]
  ∧ w_results (snd r) = w_results w
  ∧ w_db (snd r) = w_db w.
Proof.
  intros Hsub Hty Hev r. subst r.
  set (w0 := append_log (Log DEBUG "Refreshing policies for all subjects" []) w).
  assert (Hrun : refresh_policies h None clear_first w
                 = (Raise (Exn AttributeError "'NoneType' object has no attribute 'stdout'"),
                    cleaned (mkdtemp h (length (w_calls w0)))
                      (log_more [Log WARNING "Timeout evaluating assertion" []]
                         (evaluated h s w0)))).
  { cbn [refresh_policies]. unfold bind, logging, log, Subject_objects_all. fold w0.
    replace (w_subjects w0) with (s :: rest) by (symmetry; exact Hsub).
    cbn [for_each]. unfold bind.
    rewrite (refresh_policies_subject_timeout h s clear_first w0 Hty Hev). reflexivity. }
  rewrite Hrun. repeat split.
Qed.

(** C1, on a run: two subjects, the evaluation of the first runs out of
    time.  The timeout is logged and no row is written for the first
    subject, but the fan-out ends there with an [AttributeError]: the second
    subject, which refreshes without error on its own, is never evaluated. *)
Theorem fanout_timeout_aborts_remaining :
  let h := sample_evaluator [verdict_a "pass"] in
  let r := refresh_policies h None false (sample_world []) in
  fst r = Raise (Exn AttributeError "'NoneType' object has no attribute 'stdout'")
  ∧ w_log (snd r)
    = [Log DEBUG "Refreshing policies for all subjects" [];
       Log DEBUG "Refreshing policies for %s" [LVal (PStr "pkg:npm/slow@1.0.0")];
       Log WARNING "Timeout evaluating assertion" []]
  ∧ w_db (snd r) = [] ∧ w_results (snd r) = []
  ∧ w_calls (snd r) = [evaluation_call h slow 0]
  ∧ (let alone := refresh_policies h (Some leftpad) false (sample_world []) in
     fst alone = Ok tt
     ∧ w_results (snd alone) = [Evaluation "policy.a" 2 PASSED evaluated_by]).
Proof. vm_compute. repeat split; reflexivity. Qed.

End RefresherFacts.

(** * Further properties of the code *)

(** ** Whole passes of the policy refresher *)

Module PassFacts.
Import Policy RefresherSpec RefresherFacts PassSpec.

Lemma same_outside_bind {A B} (m : M world A) (k : A → M world B) w :
  (∀ w0, same_outside w0 (snd (m w0))) →
  (∀ a w0, same_outside w0 (snd (k a w0))) →
  same_outside w (snd (bind m k w)).
Proof.
  intros Hm Hk. unfold bind. specialize (Hm w). destruct (m w) as [[a|e] w1]; [|exact Hm].
  specialize (Hk a w1). destruct Hm as (H1 & H2 & H3 & H4), Hk as (K1 & K2 & K3 & K4).
  cbn [snd] in *. unfold same_outside. by rewrite K1, K2, K3, K4.
Qed.

Lemma same_outside_update_or_create row w :
  same_outside w (snd (Results_update_or_create row w)).
Proof.
  unfold Results_update_or_create. by destruct (filter _ _) as [|x [|y l]].
Qed.

(** The upsert loop writes to the Policy and PolicyEvaluationResult tables
    and to the log only, whether it ends or raises. *)
Lemma upsert_results_frame s clear_first already_cleared vs w :
  same_outside w (snd (upsert_results s clear_first already_cleared vs w)).
Proof.
  revert already_cleared w. induction vs as [|v vs IH]; intros b w; [by cbn|].
  cbn [upsert_results]. apply same_outside_bind; [done|]. intros policy w1.
  apply same_outside_bind; [done|]. intros _ w2.
  apply same_outside_bind.
  - intros w3. destruct (clear_first && negb b)%bool; [|done].
    apply same_outside_bind; done.
  - intros b' w3. apply same_outside_bind; [apply same_outside_update_or_create|].
    intros _ w4. apply IH.
Qed.

(** The same for output with an item the loop cannot handle. *)
Lemma upsert_misfit_frame s clear_first results next w :
  same_outside w (snd ((upsert_results s clear_first false results ;;;
                        upsert_misfit next)%py w)).
Proof.
  apply same_outside_bind; [intros; apply upsert_results_frame|].
  intros _ w1. destruct next as [t|identifier name t]; [done|].
  cbn [upsert_misfit]. apply same_outside_bind; done.
Qed.

(** The upsert loop of a pass that meets no row twice. *)
Lemma upsert_results_pass s clear_first vs w :
  (clear_first = false → NoDup (results_of s (w_results w))) →
  upsert_results s clear_first false vs w
  = (Ok tt,
     World (w_log w ++ map (verdict_log s) vs) (w_subjects w) (w_assertions w)
           (policies_after (w_policies w) vs)
           (pass_table clear_first s vs (w_results w))
           (w_db w ++ pass_calls clear_first s vs) (w_fs w) (w_calls w)).
Proof.
  intros Hnd. destruct vs as [|v vs].
  - cbn. rewrite !app_nil_r. by destruct w.
  - destruct clear_first.
    + by rewrite upsert_results_clear.
    + rewrite upsert_results_plain by auto. reflexivity.
Qed.

(** A pass in which the evaluator returns verdicts. *)
Lemma refresh_subject_pass h s clear_first vs text err w :
  s_type s = SUBJECT_TYPE_PACKAGE_URL →
  evaluator h (length (w_calls w)) (evaluation_call h s (length (w_calls w)))
  = Returned 0 (Output text (Parsed vs)) err →
  (clear_first = false → NoDup (results_of s (w_results w))) →
  refresh_policies_subject h s clear_first w = (Ok tt, passed h s clear_first vs w).
Proof.
  intros Hty Hev Hnd. rewrite refresh_policies_subject_unfold by done. cbv zeta.
  rewrite Hev. cbn [Z.eqb out_json]. rewrite upsert_results_pass by exact Hnd.
  unfold passed, cleaned, evaluated, pass_files. cbn.
  by rewrite <- !app_assoc.
Qed.

Lemma upsert_all_absorb table rows :
  (∀ row, row ∈ rows → row ∈ table) → upsert_all table rows = table.
Proof.
  induction rows as [|x rows IH]; intros Hin; [done|].
  unfold upsert_all in *. cbn [fold_left]. unfold insert_new at 2.
  rewrite decide_True by (apply Hin, elem_of_cons; by left).
  apply IH. intros row Hrow. apply Hin, elem_of_cons. by right.
Qed.

Lemma policies_after_lookup (m : gmap string string) vs k :
  policies_after m vs !! k
  = match m !! k with Some name => Some name | None => first_name k vs end.
Proof.
  revert m. induction vs as [|v vs IH]; intros m; [cbn; by destruct (m !! k)|].
  unfold policies_after in *. cbn [fold_left first_name]. rewrite IH.
  destruct (m !! policy_identifier v) as [n|] eqn:Hv.
  - destruct (m !! k) as [n'|] eqn:Hk; [done|].
    destruct (String.eqb_spec (policy_identifier v) k) as [E|]; [congruence|done].
  - destruct (String.eqb_spec (policy_identifier v) k) as [E|Hne].
    + rewrite E in *. by rewrite lookup_insert_eq, Hv.
    + by rewrite lookup_insert_ne.
Qed.

Lemma pass_table_without_clear s vs table :
  pass_table false s vs table = upsert_all table (map (row_of s) vs).
Proof. by destruct vs. Qed.

Lemma upsert_all_extends table rows : ∃ l, upsert_all table rows = table ++ l.
Proof.
  revert table. induction rows as [|x rows IH]; intros table.
  - exists []. cbn. by rewrite app_nil_r.
  - unfold upsert_all in *. cbn [fold_left]. destruct (IH (insert_new table x)) as [l ->].
    unfold insert_new. destruct (decide (x ∈ table)); [by exists l|].
    exists (x :: l). by rewrite <- app_assoc.
Qed.

Lemma upsert_calls_no_delete s vs : Forall (fun c => is_delete c = false) (upsert_calls s vs).
Proof.
  unfold upsert_calls. induction vs as [|v vs IH]; cbn [flat_map app]; [constructor|].
  by repeat constructor.
Qed.

(** X1: a pass without the clear flag never deletes: every stored row
    stays where it is, the rows of the verdicts that are not stored yet are
    appended, and the store is only asked to look up policies and to write
    rows. *)
Theorem refresh_without_clear_keeps_rows h s vs text err w :
  s_type s = SUBJECT_TYPE_PACKAGE_URL →
  evaluator h (length (w_calls w)) (evaluation_call h s (length (w_calls w)))
  = Returned 0 (Output text (Parsed vs)) err →
  NoDup (results_of s (w_results w)) →
  ∃ w', refresh_policies h (Some s) false w = (Ok tt, w') ∧
        (∃ added, w_results w' = w_results w ++ added) ∧
        (∀ row, row ∈ w_results w' ↔
                row ∈ w_results w ∨ ∃ v, v ∈ vs ∧ row = row_of s v) ∧
        w_db w' = w_db w ++ upsert_calls s vs ∧
        Forall (fun c => is_delete c = false) (upsert_calls s vs).
Proof.
  intros Hty Hev Hnd. exists (passed h s false vs w). split.
  - cbn [refresh_policies]. by apply refresh_subject_pass with text err.
  - cbn [passed w_results w_db]. rewrite pass_table_without_clear. split; [|split; [|split]].
    + apply upsert_all_extends.
    + intros row. by rewrite elem_of_upsert_all, elem_of_map_row_of.
    + by destruct vs.
    + apply upsert_calls_no_delete.
Qed.

Lemma refresh_without_clear_keeps_rows_witness :
  ∃ w', refresh_policies (answering (Returned 0 (Output "[...]" (Parsed verdicts_ab)) ""))
          (Some leftpad) false mixed_world = (Ok tt, w') ∧
        w_results w' = three_rows ++ [Evaluation "policy.a" 2 FAILED evaluated_by].
Proof.
  destruct (refresh_without_clear_keeps_rows
              (answering (Returned 0 (Output "[...]" (Parsed verdicts_ab)) "")) leftpad
              verdicts_ab "[...]" "" mixed_world eq_refl eq_refl)
    as (w' & Hrun & _).
  - vm_compute. repeat constructor; rewrite ?elem_of_cons, ?elem_of_nil; intuition discriminate.
  - exists w'. split; [exact Hrun|].
    assert (Hw : snd (refresh_policies
                        (answering (Returned 0 (Output "[...]" (Parsed verdicts_ab)) ""))
                        (Some leftpad) false mixed_world) = w') by (by rewrite Hrun).
    rewrite <- Hw. vm_compute. reflexivity.
Defined.

Lemma results_of_pass_NoDup s clear_first vs table :
  NoDup (results_of s table) → NoDup (results_of s (pass_table clear_first s vs table)).
Proof.
  intros Hnd. destruct vs as [|v vs]; [done|]. unfold pass_table, results_of.
  rewrite filter_upsert_all by apply rows_subject. apply NoDup_upsert_all.
  destruct clear_first; [|done].
  fold (results_of s (cleared s table)). rewrite results_of_cleared. apply NoDup_nil_2.
Qed.

Lemma policies_after_twice (m : gmap string string) vs :
  policies_after (policies_after m vs) vs = policies_after m vs.
Proof.
  apply map_eq. intros k. rewrite !policies_after_lookup.
  destruct (m !! k); [done|]. by destruct (first_name k vs).
Qed.

(** X2: without the clear flag a pass is idempotent on the store: when the
    evaluator returns the same verdicts again, the second pass leaves the
    PolicyEvaluationResult and Policy tables as the first one left them. *)
Theorem refresh_twice_same_tables h s vs text err w :
  s_type s = SUBJECT_TYPE_PACKAGE_URL →
  evaluator h (length (w_calls w)) (evaluation_call h s (length (w_calls w)))
  = Returned 0 (Output text (Parsed vs)) err →
  evaluator h (S (length (w_calls w))) (evaluation_call h s (S (length (w_calls w))))
  = Returned 0 (Output text (Parsed vs)) err →
  NoDup (results_of s (w_results w)) →
  ∃ w1 w2, refresh_policies h (Some s) false w = (Ok tt, w1) ∧
           refresh_policies h (Some s) false w1 = (Ok tt, w2) ∧
           w_results w2 = w_results w1 ∧ w_policies w2 = w_policies w1.
Proof.
  intros Hty Hev1 Hev2 Hnd.
  exists (passed h s false vs w), (passed h s false vs (passed h s false vs w)).
  assert (Hlen : length (w_calls (passed h s false vs w)) = S (length (w_calls w))).
  { cbn [passed w_calls]. rewrite length_app. cbn. lia. }
  split; [|split; [|split]].
  - cbn [refresh_policies]. by apply refresh_subject_pass with text err.
  - cbn [refresh_policies]. apply refresh_subject_pass with text err; [done| |].
    + by rewrite Hlen.
    + intros _. cbn [passed w_results]. by apply results_of_pass_NoDup.
  - cbn [passed w_results]. rewrite !pass_table_without_clear.
    apply upsert_all_absorb. intros row Hrow. apply elem_of_upsert_all. by right.
  - cbn [passed w_policies]. apply policies_after_twice.
Qed.

Lemma refresh_twice_same_tables_witness :
  ∃ w1 w2,
    refresh_policies (answering (Returned 0 (Output "[...]" (Parsed verdicts_ab)) ""))
      (Some leftpad) false mixed_world = (Ok tt, w1) ∧
    refresh_policies (answering (Returned 0 (Output "[...]" (Parsed verdicts_ab)) ""))
      (Some leftpad) false w1 = (Ok tt, w2) ∧
    w_results w2 = w_results w1 ∧ w_policies w2 = w_policies w1.
Proof.
  apply (refresh_twice_same_tables
           (answering (Returned 0 (Output "[...]" (Parsed verdicts_ab)) "")) leftpad
           verdicts_ab "[...]" "" mixed_world eq_refl eq_refl eq_refl).
  vm_compute. repeat constructor; rewrite ?elem_of_cons, ?elem_of_nil; intuition discriminate.
Defined.

(** X3: a policy is named once: after a pass, a policy that was stored
    keeps the name it had, whatever name the evaluator gives it now; a
    policy that was not stored is created with the name of the first
    verdict about it; and no other policy appears. *)
Theorem policy_names_set_once h s clear_first vs text err w :
  s_type s = SUBJECT_TYPE_PACKAGE_URL →
  evaluator h (length (w_calls w)) (evaluation_call h s (length (w_calls w)))
  = Returned 0 (Output text (Parsed vs)) err →
  (clear_first = false → NoDup (results_of s (w_results w))) →
  ∃ w', refresh_policies h (Some s) clear_first w = (Ok tt, w') ∧
        ∀ identifier,
          w_policies w' !! identifier
          = match w_policies w !! identifier with
            | Some name => Some name
            | None => first_name identifier vs
            end.
Proof.
  intros Hty Hev Hnd. exists (passed h s clear_first vs w). split.
  - cbn [refresh_policies]. by apply refresh_subject_pass with text err.
  - intros k. cbn [passed w_policies]. apply policies_after_lookup.
Qed.

Lemma policy_names_set_once_witness :
  ∃ w', refresh_policies (answering (Returned 0 (Output "[...]" (Parsed verdicts_ab)) ""))
          (Some leftpad) true mixed_world = (Ok tt, w') ∧
        w_policies w' !! "policy.a" = Some "Old name" ∧
        w_policies w' !! "policy.b" = Some "Policy B" ∧
        w_policies w' !! "policy.c" = None.
Proof.
  destruct (policy_names_set_once
              (answering (Returned 0 (Output "[...]" (Parsed verdicts_ab)) "")) leftpad true
              verdicts_ab "[...]" "" mixed_world eq_refl eq_refl)
    as (w' & Hrun & Hnames); [discriminate|].
  exists w'. split; [exact Hrun|].
  rewrite (Hnames "policy.a"), (Hnames "policy.b"), (Hnames "policy.c").
  vm_compute. repeat split.
Defined.

(** X4: when the evaluator gives no verdict, because it exits with a
    non-zero code, because its output does not parse, or because the array
    is empty, the pass returns normally and changes neither table and calls
    no object manager, with the clear flag or without: in particular the
    clear flag alone deletes nothing. *)
Theorem no_verdicts_leave_store h s clear_first w :
  s_type s = SUBJECT_TYPE_PACKAGE_URL →
  no_verdicts (evaluator h (length (w_calls w)) (evaluation_call h s (length (w_calls w)))) →
  ∃ w', refresh_policies h (Some s) clear_first w = (Ok tt, w') ∧
        w_results w' = w_results w ∧ w_policies w' = w_policies w ∧ w_db w' = w_db w.
Proof.
  intros Hty Hno. cbn [refresh_policies].
  rewrite refresh_policies_subject_unfold by done. cbv zeta.
  destruct (evaluator h _ _) as [|returncode stdout stderr|e]; [done| |done].
  destruct (Z.eqb_spec returncode 0) as [->|Hrc].
  - destruct Hno as [Hno|[[msg Hmsg]|Hempty]]; [done| |].
    + rewrite Hmsg. by eexists.
    + rewrite Hempty. cbn [upsert_results]. unfold ret. by eexists.
  - by eexists.
Qed.

Lemma no_verdicts_leave_store_witness :
  ∃ w', refresh_policies (answering (Returned 0 (Output "[]" (Parsed [])) ""))
          (Some leftpad) true mixed_world = (Ok tt, w') ∧
        w_results w' = three_rows ∧ w_policies w' = {[ "policy.a" := "Old name" ]} ∧
        w_db w' = [].
Proof.
  apply (no_verdicts_leave_store (answering (Returned 0 (Output "[]" (Parsed [])) ""))
           leftpad true mixed_world eq_refl).
  right. right. reflexivity.
Defined.

(** X5: whatever the evaluator does and however the pass ends, a pass for
    a package-URL subject writes one file per assertion of the subject,
    named by its uuid, into a fresh directory, calls the evaluator once and
    removes the directory; the Subject and Assertion tables are not
    written. *)
Theorem refresh_subject_files_and_frame h s clear_first w :
  s_type s = SUBJECT_TYPE_PACKAGE_URL →
  let r := refresh_policies h (Some s) clear_first w in
  w_fs (snd r) = w_fs w ++ pass_files h s w ∧
  w_calls (snd r) = w_calls w ++ [evaluation_call h s (length (w_calls w))] ∧
  w_subjects (snd r) = w_subjects w ∧ w_assertions (snd r) = w_assertions w.
Proof.
  intros Hty r. subst r. cbn [refresh_policies].
  rewrite refresh_policies_subject_unfold by done. cbv zeta.
  assert (Hfs : ∀ w1, w_fs w1 = w_fs (evaluated h s w) →
            w_fs w1 ++ [Cleanup (mkdtemp h (length (w_calls w)))]
            = w_fs w ++ pass_files h s w).
  { intros w1 ->. unfold evaluated, pass_files. cbn. by rewrite <- !app_assoc. }
  destruct (evaluator h _ _) as [|returncode stdout stderr|e0].
  - split; [by apply Hfs|done].
  - destruct (returncode =? 0); [|split; [by apply Hfs|done]].
    destruct (out_json stdout) as [msg|results|a|results next];
      [split; [by apply Hfs|done]| |split; [by apply Hfs|done]|].
    + pose proof (upsert_results_frame s clear_first false results (evaluated h s w))
        as (H1 & H2 & H3 & H4).
      destruct (upsert_results s clear_first false results (evaluated h s w)) as [[[]|e] w2];
        cbn [snd] in *.
      * split; [by apply Hfs|]. cbn. by rewrite H2, H3, H4.
      * destruct (is_TimeoutExpired e); (split; [by apply Hfs|]); cbn; by rewrite H2, H3, H4.
    + pose proof (upsert_misfit_frame s clear_first results next (evaluated h s w))
        as (H1 & H2 & H3 & H4).
      destruct (bind _ _ _) as [[[]|e] w2]; cbn [snd] in *.
      * split; [by apply Hfs|]. cbn. by rewrite H2, H3, H4.
      * destruct (is_TimeoutExpired e); (split; [by apply Hfs|]); cbn; by rewrite H2, H3, H4.
  - destruct (is_TimeoutExpired e0); (split; [by apply Hfs|done]).
Qed.

Lemma refresh_subject_files_and_frame_witness :
  let r := refresh_policies (answering Expired) (Some leftpad) true mixed_world in
  w_fs (snd r) = [MkTemp "/tmp/tmpq1w2e3";
                  WriteFile "/tmp/tmpq1w2e3/2c3d.json" "{}";
                  WriteFile "/tmp/tmpq1w2e3/4e5f.json" "[]";
                  Cleanup "/tmp/tmpq1w2e3"] ∧
  w_calls (snd r) = [evaluation_call (answering Expired) leftpad 0] ∧
  w_subjects (snd r) = [leftpad; github_subject; slow] ∧
  w_assertions (snd r) = w_assertions mixed_world.
Proof.
  exact (refresh_subject_files_and_frame (answering Expired) leftpad true mixed_world eq_refl).
Defined.

(** One subject of a fan-out whose evaluator calls complete. *)
Lemma refresh_subject_step h s clear_first w :
  (∀ n c, completes (evaluator h n c)) →
  NoDup (w_results w) →
  ∃ w', refresh_policies_subject h s clear_first w = (Ok tt, w') ∧
        NoDup (w_results w') ∧
        w_calls w' = w_calls w ++ fanout_calls h (length (w_calls w)) [s].
Proof.
  intros Hev Hnd. cbn [fanout_calls]. destruct (s_type s) as [|code] eqn:Hty.
  - rewrite refresh_policies_subject_unfold by done. cbv zeta.
    specialize (Hev (length (w_calls w)) (evaluation_call h s (length (w_calls w)))).
    destruct (evaluator h _ _) as [|returncode stdout stderr|e]; [done| |done].
    destruct (Z.eqb_spec returncode 0) as [->|Hrc]; [|by eexists].
    destruct Hev as [Hev|Hev]; [done|].
    destruct (out_json stdout) as [msg|results|a|results next] eqn:Hout;
      [by eexists| |done|done].
    rewrite upsert_results_pass.
    + eexists. split; [reflexivity|]. cbn. split; [|done].
      destruct results as [|v vs]; [done|]. cbn [pass_table].
      apply NoDup_upsert_all. destruct clear_first; [by apply NoDup_filter|done].
    + intros _. by apply NoDup_filter.
  - unfold refresh_policies_subject. rewrite Hty. unfold bind, logging, log, append_log.
    eexists. split; [reflexivity|]. cbn. by rewrite app_nil_r.
Qed.

Lemma fanout_calls_cons h n s rest :
  fanout_calls h n (s :: rest)
  = fanout_calls h n [s] ++ fanout_calls h (n + length (fanout_calls h n [s])) rest.
Proof.
  cbn [fanout_calls]. destruct (s_type s); cbn [app length].
  - by rewrite Nat.add_1_r.
  - by rewrite Nat.add_0_r.
Qed.

Lemma for_each_subjects h clear_first subjects w :
  (∀ n c, completes (evaluator h n c)) →
  NoDup (w_results w) →
  ∃ w', for_each subjects (fun s => refresh_policies_subject h s clear_first) w = (Ok tt, w') ∧
        NoDup (w_results w') ∧
        w_calls w' = w_calls w ++ fanout_calls h (length (w_calls w)) subjects.
Proof.
  intros Hev. revert w. induction subjects as [|s rest IH]; intros w Hnd.
  - exists w. cbn. by rewrite app_nil_r.
  - destruct (refresh_subject_step h s clear_first w Hev Hnd) as (w1 & Hrun & Hnd1 & Hcalls).
    destruct (IH w1 Hnd1) as (w' & Hrest & Hnd' & Hcalls').
    exists w'. cbn [for_each]. unfold bind. rewrite Hrun. split; [exact Hrest|].
    split; [exact Hnd'|].
    rewrite Hcalls', Hcalls, length_app, (fanout_calls_cons h _ s rest).
    by rewrite <- app_assoc.
Qed.

(** X6: when every evaluator call returns a completed process whose
    output, on exit code 0, does not parse or is an array of verdicts, and
    the results table holds no row twice, a refresh with no subject
    argument ends normally after one evaluator call per package-URL
    subject, in the order of the Subject table; subjects of other types are
    passed over without a call. *)
Theorem fanout_visits_every_subject_in_order h clear_first w :
  (∀ n c, completes (evaluator h n c)) →
  NoDup (w_results w) →
  ∃ w', refresh_policies h None clear_first w = (Ok tt, w') ∧
        w_calls w' = w_calls w ++ fanout_calls h (length (w_calls w)) (w_subjects w) ∧
        NoDup (w_results w').
Proof.
  intros Hev Hnd. cbn [refresh_policies]. unfold bind, logging, log, Subject_objects_all.
  destruct (for_each_subjects h clear_first (w_subjects w)
              (append_log (Log DEBUG "Refreshing policies for all subjects" []) w) Hev Hnd)
    as (w' & Hrun & Hnd' & Hcalls).
  exists w'. cbn [append_log w_subjects] in *. rewrite Hrun. done.
Qed.

Lemma fanout_visits_every_subject_in_order_witness :
  ∃ w', refresh_policies (answering (Returned 0 (Output "[...]" (Parsed verdicts_ab)) ""))
          None true mixed_world = (Ok tt, w') ∧
        map (fun c => List.last (call_cmd c) "") (w_calls w')
        = ["pkg:npm/left-pad@1.3.0"; "pkg:npm/slow@1.0.0"].
Proof.
  destruct (fanout_visits_every_subject_in_order
              (answering (Returned 0 (Output "[...]" (Parsed verdicts_ab)) "")) true mixed_world)
    as (w' & Hrun & Hcalls & _).
  - intros n c. by right.
  - vm_compute. repeat constructor; rewrite ?elem_of_cons, ?elem_of_nil; intuition discriminate.
  - exists w'. split; [exact Hrun|]. rewrite Hcalls. reflexivity.
Defined.

(** X7: a row stored twice stops a pass without the clear flag: the lookup
    of [update_or_create] finds both copies and raises, the handler for
    timeouts does not catch it, the table is left as it was and the temporary
    directory is still removed.  (With the clear flag the copies are deleted
    first.) *)
Theorem duplicate_row_stops_pass h s v vs text err w :
  s_type s = SUBJECT_TYPE_PACKAGE_URL →
  evaluator h (length (w_calls w)) (evaluation_call h s (length (w_calls w)))
  = Returned 0 (Output text (Parsed (v :: vs))) err →
  (2 ≤ length (filter (fun r => r = row_of s v) (w_results w)))%nat →
  ∃ e w', refresh_policies h (Some s) false w = (Raise e, w') ∧
          exn_cls e = MultipleObjectsReturned ∧
          w_results w' = w_results w ∧
          w_fs w' = w_fs w ++ pass_files h s w.
Proof.
  intros Hty Hev Hdup. cbn [refresh_policies].
  rewrite refresh_policies_subject_unfold by done. cbv zeta. rewrite Hev.
  cbn [Z.eqb out_json upsert_results].
  unfold bind, Policy_get_or_create, logging, log, append_log, ret, Results_update_or_create.
  cbn [andb w_log w_subjects w_assertions w_policies w_results w_db w_fs w_calls evaluated].
  fold (row_of s v).
  destruct (filter (fun r => r = row_of s v) (w_results w)) as [|x [|y l]];
    [cbn in Hdup; lia | cbn in Hdup; lia |].
  cbn [is_TimeoutExpired exn_cls]. do 2 eexists. split; [reflexivity|].
  split; [done|]. split; [done|]. unfold pass_files. cbn. by rewrite <- !app_assoc.
Qed.

Lemma duplicate_row_stops_pass_witness :
  let doubled := [Evaluation "policy.a" 2 FAILED evaluated_by;
                  Evaluation "policy.a" 2 FAILED evaluated_by] in
  ∃ e w', refresh_policies (answering (Returned 0 (Output "[...]" (Parsed verdicts_ab)) ""))
            (Some leftpad) false (sample_world doubled) = (Raise e, w') ∧
          exn_cls e = MultipleObjectsReturned ∧
          w_results w' = doubled.
Proof.
  destruct (duplicate_row_stops_pass
              (answering (Returned 0 (Output "[...]" (Parsed verdicts_ab)) "")) leftpad
              (verdict_a "fail") [verdict_b "PASS "] "[...]" ""
              (sample_world [Evaluation "policy.a" 2 FAILED evaluated_by;
                             Evaluation "policy.a" 2 FAILED evaluated_by])
              eq_refl eq_refl)
    as (e & w' & Hrun & Hcls & Hres & _).
  - vm_compute. lia.
  - exists e, w'. split; [exact Hrun|]. split; [exact Hcls|exact Hres].
Defined.

(** *** What a pass never touches *)

Lemma store_kept_refl s w : store_kept s w w.
Proof. by split. Qed.

Lemma store_kept_trans s w1 w2 w3 :
  store_kept s w1 w2 → store_kept s w2 w3 → store_kept s w1 w3.
Proof.
  intros [H1 H2] [K1 K2]. split; [by rewrite K1|]. intros k name Hk. by apply K2, H2.
Qed.

Lemma store_kept_bind {A B} s (m : M world A) (k : A → M world B) w :
  (∀ w0, store_kept s w0 (snd (m w0))) →
  (∀ a w0, store_kept s w0 (snd (k a w0))) →
  store_kept s w (snd (bind m k w)).
Proof.
  intros Hm Hk. unfold bind. specialize (Hm w). destruct (m w) as [[a|e] w1]; [|exact Hm].
  exact (store_kept_trans _ _ _ _ Hm (Hk a w1)).
Qed.

Lemma cleared_app_own s table row :
  e_subject row = subject_pk s → cleared s (table ++ [row]) = cleared s table.
Proof.
  intros Hrow. unfold cleared. rewrite filter_app, filter_cons, decide_False by tauto.
  by rewrite filter_nil, app_nil_r.
Qed.

Lemma cleared_idemp s table : cleared s (cleared s table) = cleared s table.
Proof.
  unfold cleared. induction table as [|r table IH]; [done|].
  rewrite filter_cons. destruct (decide (e_subject r ≠ subject_pk s)) as [Hr|Hr]; [|exact IH].
  rewrite filter_cons, decide_True by exact Hr. by rewrite IH.
Qed.

Lemma store_kept_get_or_create s identifier name w :
  store_kept s w (snd (Policy_get_or_create identifier name w)).
Proof.
  split; [done|]. intros k n Hk. cbn.
  destruct (w_policies w !! identifier) eqn:Hid; [exact Hk|].
  rewrite lookup_insert_ne; [exact Hk|]. intros ->. congruence.
Qed.

Lemma store_kept_update_or_create s row w :
  e_subject row = subject_pk s →
  store_kept s w (snd (Results_update_or_create row w)).
Proof.
  intros Hrow. unfold Results_update_or_create.
  destruct (filter _ _) as [|x [|y l]]; (split; [|done]); [|done|done].
  cbn. by apply cleared_app_own.
Qed.

(** The upsert loop keeps the rows of the other subjects and the policies,
    whether it ends or raises. *)
Lemma upsert_results_kept s clear_first already_cleared vs w :
  store_kept s w (snd (upsert_results s clear_first already_cleared vs w)).
Proof.
  revert already_cleared w. induction vs as [|v vs IH]; intros b w; [by split|].
  cbn [upsert_results]. apply store_kept_bind; [apply store_kept_get_or_create|].
  intros policy w1. apply store_kept_bind; [done|]. intros _ w2.
  apply store_kept_bind.
  - intros w3. destruct (clear_first && negb b)%bool; [|by split].
    apply store_kept_bind; [|done].
    intros w4. split; [|done]. cbn. apply cleared_idemp.
  - intros b' w3. apply store_kept_bind; [intros w4; by apply store_kept_update_or_create|].
    intros _ w4. apply IH.
Qed.

(** A pass for a subject, whatever its outcome; a subject that is not a
    package URL leaves the whole table. *)
Lemma refresh_subject_kept h s clear_first w :
  store_kept s w (snd (refresh_policies_subject h s clear_first w)) ∧
  (s_type s ≠ SUBJECT_TYPE_PACKAGE_URL →
   w_results (snd (refresh_policies_subject h s clear_first w)) = w_results w).
Proof.
  destruct (s_type s) as [|code] eqn:Hty.
  - split; [|done]. rewrite refresh_policies_subject_unfold by done. cbv zeta.
    destruct (evaluator h _ _) as [|returncode stdout stderr|e0]; [by split| |].
    2:{ by destruct (is_TimeoutExpired e0). }
    destruct (returncode =? 0); [|by split].
    destruct (out_json stdout) as [msg|results|a|results next]; [by split| |by split|].
    + pose proof (upsert_results_kept s clear_first false results (evaluated h s w)) as Hkept.
      destruct (upsert_results s clear_first false results (evaluated h s w)) as [[[]|e] w2];
        cbn [snd] in *; [exact Hkept|].
      destruct (is_TimeoutExpired e); exact Hkept.
    + assert (Hkept : store_kept s (evaluated h s w)
                        (snd ((upsert_results s clear_first false results ;;;
                               upsert_misfit next)%py (evaluated h s w)))).
      { apply store_kept_bind; [intros; apply upsert_results_kept|].
        intros _ w1. destruct next as [t|identifier name t]; [by split|].
        cbn [upsert_misfit]. apply store_kept_bind; [apply store_kept_get_or_create|done]. }
      destruct (bind _ _ _) as [[[]|e] w2]; cbn [snd] in *; [exact Hkept|].
      destruct (is_TimeoutExpired e); exact Hkept.
  - unfold refresh_policies_subject. rewrite Hty. split; [by split|done].
Qed.

Lemma elem_of_package_url_keys s subjects :
  s ∈ subjects → s_type s = SUBJECT_TYPE_PACKAGE_URL →
  subject_pk s ∈ package_url_keys subjects.
Proof.
  intros Hin Hty. induction subjects as [|x rest IH]; [by apply elem_of_nil in Hin|].
  apply elem_of_cons in Hin as [<-|Hin]; cbn [package_url_keys].
  - rewrite Hty. by left.
  - destruct (s_type x); [right|]; by apply IH.
Qed.

Lemma rows_outside_cleared keys s table :
  subject_pk s ∈ keys → rows_outside keys (cleared s table) = rows_outside keys table.
Proof.
  intros Hkey. unfold rows_outside, cleared. induction table as [|r table IH]; [done|].
  rewrite (filter_cons _ r table).
  destruct (decide (e_subject r ≠ subject_pk s)) as [Hr|Hr].
  - rewrite !filter_cons. destruct (decide (e_subject r ∉ keys)); by rewrite IH.
  - rewrite IH, filter_cons, decide_False; [done|].
    intros Hout. apply Hout. destruct (decide (e_subject r = subject_pk s)) as [->|]; tauto.
Qed.

(** The passes of a fan-out, however far it gets. *)
Lemma for_each_subjects_kept h clear_first keys subjects w :
  (∀ s, s ∈ subjects → s_type s = SUBJECT_TYPE_PACKAGE_URL → subject_pk s ∈ keys) →
  let w' := snd (for_each subjects (fun s => refresh_policies_subject h s clear_first) w) in
  rows_outside keys (w_results w') = rows_outside keys (w_results w) ∧
  (∀ k name, w_policies w !! k = Some name → w_policies w' !! k = Some name).
Proof.
  revert w. induction subjects as [|s rest IH]; intros w Hkeys; [done|].
  cbn [for_each]. unfold bind.
  destruct (refresh_subject_kept h s clear_first w) as [[Hrows Hpol] Hother].
  assert (Hstep : rows_outside keys (w_results (snd (refresh_policies_subject h s clear_first w)))
                  = rows_outside keys (w_results w)).
  { destruct (s_type s) as [|code] eqn:Hty.
    - assert (Hkey : subject_pk s ∈ keys) by (apply Hkeys; [by left|done]).
      rewrite <- (rows_outside_cleared keys s _ Hkey), Hrows.
      by apply rows_outside_cleared.
    - by rewrite Hother. }
  destruct (refresh_policies_subject h s clear_first w) as [[[]|e] w1]; cbn [snd] in *.
  - destruct (IH w1) as [Hrows' Hpol'].
    { intros s' Hin. apply Hkeys. by right. }
    cbv zeta in *. split; [by rewrite Hrows'|]. intros k name Hk. by apply Hpol', Hpol.
  - by split.
Qed.

(** X12: a pass for one subject never touches what is stored for another:
    whatever the evaluator answers and however the pass ends, with the clear
    flag or without, the rows of the other subjects are the same rows in the
    same order, and no policy is removed or renamed. *)
Theorem pass_keeps_other_subjects h s clear_first w :
  let r := refresh_policies h (Some s) clear_first w in
  cleared s (w_results (snd r)) = cleared s (w_results w) ∧
  ∀ k name, w_policies w !! k = Some name → w_policies (snd r) !! k = Some name.
Proof.
  cbv zeta. cbn [refresh_policies]. exact (proj1 (refresh_subject_kept h s clear_first w)).
Qed.

(** X13: a refresh with no subject argument, however far it gets, leaves
    the rows of every subject that is not a package-URL subject of the
    Subject table as they are, and removes or renames no policy. *)
Theorem fanout_keeps_other_rows h clear_first w :
  let r := refresh_policies h None clear_first w in
  rows_outside (package_url_keys (w_subjects w)) (w_results (snd r))
  = rows_outside (package_url_keys (w_subjects w)) (w_results w) ∧
  ∀ k name, w_policies w !! k = Some name → w_policies (snd r) !! k = Some name.
Proof.
  cbv zeta. cbn [refresh_policies]. unfold bind, logging, log, Subject_objects_all.
  exact (for_each_subjects_kept h clear_first (package_url_keys (w_subjects w)) (w_subjects w)
           (append_log (Log DEBUG "Refreshing policies for all subjects" []) w)
           (fun s => elem_of_package_url_keys s (w_subjects w))).
Qed.

End PassFacts.

(** ** The analysis run *)

Module RunFacts.
Import Analyze InvokerSpec InvokerFacts LocatorSpec LocatorFacts Run RunSpec.

(** *** The locator on literal names *)

Lemma fnmatch_wild_literal pat name :
  literal pat = true → Str.fnmatch_wild name pat = true → name = pat.
Proof.
  unfold Str.fnmatch_wild. revert name.
  induction pat as [|p pat IH]; intros name Hlit; cbn [Str.fnmatch_wild_pat].
  - intros H. by apply String.eqb_eq in H.
  - cbn [literal] in Hlit. apply andb_true_iff in Hlit as [Hp Hlit].
    apply andb_true_iff in Hp as [Hstar Hquest].
    apply negb_true_iff in Hstar, Hquest. rewrite Hstar, Hquest.
    destruct name as [|c name]; [discriminate|].
    intros [Hc Hrest]%andb_true_iff. apply Ascii.eqb_eq in Hc. subst c.
    f_equal. by apply IH.
Qed.

(** X8: for a query that the matcher accepts only as itself, as it does a
    name without wildcards, [find_output_file] returns the file of that
    name in the first directory, in walk order, that holds it, and [None]
    when no directory does: for such queries an exact match anywhere in the
    tree is always what is returned. *)
Theorem literal_query_finds_exact_name fnmatch top t filename :
  (∀ file, fnmatch file filename = true → file = filename) →
  match find_output_file fnmatch top t filename with
  | Some path =>
      ∃ before root files after,
        walk top t = before ++ (root, files) :: after ∧
        (∀ r fs, (r, fs) ∈ before → filename ∉ fs) ∧
        filename ∈ files ∧ path = Str.path_join root filename
  | None => ∀ r fs, (r, fs) ∈ walk top t → filename ∉ fs
  end
  ∧ exact_preferred_tree_wide fnmatch top t filename.
Proof.
  intros Hlit.
  assert (Hshape :
    match find_output_file fnmatch top t filename with
    | Some path =>
        ∃ before root files after,
          walk top t = before ++ (root, files) :: after ∧
          (∀ r fs, (r, fs) ∈ before → filename ∉ fs) ∧
          filename ∈ files ∧ path = Str.path_join root filename
    | None => ∀ r fs, (r, fs) ∈ walk top t → filename ∉ fs
    end).
  { rewrite find_output_file_first_walk.
    destruct (first_walk fnmatch filename (walk top t)) as [path|] eqn:H.
    - apply first_walk_Some in H as (before & root & files & after & Hw & Hno & Hres).
      exists before, root, files, after. split; [done|]. split.
      + intros r fs Hin Hf. by destruct (Hno r fs filename Hin Hf).
      + destruct Hres as [[Hq ->]|[Hq (l1 & file & l2 & -> & Hm & _ & _)]]; [done|].
        apply Hlit in Hm. subst file. exfalso. apply Hq.
        rewrite elem_of_app, elem_of_cons. auto.
    - apply first_walk_None in H. intros r fs Hin Hf.
      by destruct (H r fs filename Hin Hf). }
  split; [exact Hshape|].
  intros (root0 & files0 & Hin0 & Hq0).
  destruct (find_output_file fnmatch top t filename) as [path|].
  - destruct Hshape as (before & root & files & after & Hw & _ & Hq & ->).
    exists root, files. split; [|done]. rewrite Hw, elem_of_app, elem_of_cons. auto.
  - exfalso. by apply (Hshape root0 files0).
Qed.

Lemma literal_query_finds_exact_name_witness :
  match find_output_file Str.fnmatch_wild "/w" (tree limited_host) "tool-clamscan.txt" with
  | Some path =>
      ∃ before root files after,
        walk "/w" (tree limited_host) = before ++ (root, files) :: after ∧
        (∀ r fs, (r, fs) ∈ before → "tool-clamscan.txt" ∉ fs) ∧
        "tool-clamscan.txt" ∈ files ∧ path = Str.path_join root "tool-clamscan.txt"
  | None => ∀ r fs, (r, fs) ∈ walk "/w" (tree limited_host) → "tool-clamscan.txt" ∉ fs
  end
  ∧ exact_preferred_tree_wide Str.fnmatch_wild "/w" (tree limited_host) "tool-clamscan.txt".
Proof.
  apply (literal_query_finds_exact_name Str.fnmatch_wild "/w" (tree limited_host)
           "tool-clamscan.txt").
  intros file. apply fnmatch_wild_literal. reflexivity.
Defined.

(** *** Paths *)

Lemma startswith_trans a b c :
  Str.startswith a b = true → Str.startswith b c = true → Str.startswith a c = true.
Proof.
  revert b c. induction a as [|x a IH]; intros b c; [done|].
  destruct b as [|y b]; [done|]. destruct c as [|z c]; [done|].
  cbn [Str.startswith]. intros [Hxy Hab]%andb_true_iff [Hyz Hbc]%andb_true_iff.
  apply Ascii.eqb_eq in Hxy, Hyz. subst. rewrite Ascii.eqb_refl. cbn [andb].
  by apply IH with b.
Qed.

Lemma startswith_refl a : Str.startswith a a = true.
Proof.
  induction a as [|x a IH]; cbn [Str.startswith]; [done|].
  by rewrite Ascii.eqb_refl, IH.
Qed.

Lemma plain_no_leading_slash name : plain name = true → Str.startswith "/" name = false.
Proof.
  unfold plain. destruct name as [|c name]; [done|].
  cbn [list_ascii_of_string existsb Str.startswith].
  destruct (Ascii.eqb "/" c); [discriminate|done].
Qed.

(** Joining a plain name to a directory gives a path below it. *)
Lemma path_join_below a name :
  plain name = true → Str.startswith a (Str.path_join a name) = true.
Proof.
  intros Hplain. unfold Str.path_join. rewrite (plain_no_leading_slash _ Hplain).
  destruct (String.eqb a "" || Str.endswith_char "/" a)%bool; apply prefix_app_l.
Qed.

(** Every directory of the walk lies below the top, and holds plain names. *)
Lemma walk_below :
  ∀ t top root files,
    plain_names t = true → (root, files) ∈ walk top t →
    Str.startswith top root = true ∧ forallb plain files = true.
Proof.
  fix IH 1. intros [files0 subdirs] top root files Hplain Hin.
  cbn [plain_names] in Hplain. apply andb_true_iff in Hplain as [Hfiles Hsubs].
  cbn [walk] in Hin. apply elem_of_cons in Hin as [Heq|Hin].
  - injection Heq as -> ->. split; [|done]. apply startswith_refl.
  - induction subdirs as [|[name sub] rest IHrest]; [by apply elem_of_nil in Hin|].
    apply andb_true_iff in Hsubs as [Hhead Hrest].
    apply andb_true_iff in Hhead as [Hname Hsub].
    apply elem_of_app in Hin as [Hin|Hin].
    + destruct (IH sub (Str.path_join top name) root files Hsub Hin) as [Hroot Hfs].
      split; [|done]. apply startswith_trans with (Str.path_join top name); [|done].
      by apply path_join_below.
    + by apply IHrest.
Qed.

(** X9: in a work directory whose file and directory names hold no slash,
    whatever [find_output_file] returns is a path below the work
    directory. *)
Theorem found_path_below_work_directory fnmatch top t filename path :
  plain_names t = true →
  find_output_file fnmatch top t filename = Some path →
  Str.startswith top path = true.
Proof.
  intros Hplain. rewrite find_output_file_first_walk. intros H.
  apply first_walk_Some in H as (before & root & files & after & Hw & _ & Hres).
  assert (Hin : (root, files) ∈ walk top t).
  { rewrite Hw, elem_of_app, elem_of_cons. auto. }
  destruct (walk_below t top root files Hplain Hin) as [Hroot Hfiles].
  rewrite forallb_forall in Hfiles.
  assert (Hfile : ∃ file, file ∈ files ∧ path = Str.path_join root file).
  { destruct Hres as [[Hq ->]|[_ (l1 & file & l2 & -> & _ & _ & ->)]]; [by eexists|].
    exists file. split; [|done]. rewrite elem_of_app, elem_of_cons. auto. }
  destruct Hfile as (file & Hfile & ->).
  apply startswith_trans with root; [done|]. apply path_join_below.
  by apply Hfiles, list_elem_of_In.
Qed.

Lemma found_path_below_work_directory_witness :
  Str.startswith "/w" "/w/out/tool-clamscan.txt" = true.
Proof.
  apply (found_path_below_work_directory Str.fnmatch_wild "/w" (tree limited_host)
           "tool-*.txt" "/w/out/tool-clamscan.txt"); reflexivity.
Defined.

(** *** The container run *)




(** The command lines of the two kinds of run. *)
Example docker_command_with_limit :
  docker_command (environ limited_host) sample_runner
  = ["docker"; "run"; "--rm"; "--cpus=2"; "-t"; "-v"; "/w:/opt/export";
     "--env-file"; ".env"; "openssf/omega-toolshed:latest"; "pkg:npm/left-pad@1.3.0"]
  ∧ docker_command {[ "OMEGA_DOCKER_CPUS" := "" ]} sample_runner
    = docker_command ∅ sample_runner.
Proof. split; reflexivity. Qed.

(** *** The run as a whole *)

Lemma execute_assertions_run h self w :
  execute_assertions h self w
  = (Ok tt,
     let tr := attempts h self (length (w_spawned w)) (declared h self) in
     World (w_log w ++ fst tr) (w_files w) (w_docker_cmdline w) (w_spawned w ++ snd tr)).
Proof.
  rewrite execute_assertions_for_each.
  pose proof (for_each_attempts h self (fun kw => kw) (declared h self) w) as H.
  rewrite map_id in H. exact H.
Qed.


(** *** The generator processes *)

Lemma attempts_started_count h self n kws :
  length (snd (attempts h self n kws))
  = length (List.filter (fun kw => negb (skipped kw)) kws).
Proof.
  revert n. induction kws as [|kw rest IH]; intros n; [done|].
  cbn [attempts snd List.filter]. rewrite length_app, IH. unfold attempt_spawns.
  by destruct (skipped kw).
Qed.

Lemma skipped_plain_dimension self name : skipped (plain_dimension self name) = false.
Proof. reflexivity. Qed.

Lemma skipped_sarif_dimension h self filename :
  skipped (sarif_dimension h self filename) = negb (found h self filename).
Proof. reflexivity. Qed.

Lemma skipped_artifact_dimension h self name filename :
  skipped (artifact_dimension h self name filename) = negb (found h self filename).
Proof. reflexivity. Qed.

Lemma length_filter_cons {A} (p : A → bool) x l :
  length (List.filter p (x :: l)) = ((if p x then 1 else 0) + length (List.filter p l))%nat.
Proof. cbn [List.filter]. by destruct (p x). Qed.

(** X14: [execute_assertions] calls the generator, through
    [subprocess.run], once for each of the three assertions that take no
    input file and once for each of the nine other calls whose artifact
    [find_output_file] found: three calls at least, twelve at most,
    whatever the calls answer.  (A call that raises before a process
    exists counts as a call.) *)
Theorem generator_called_per_found_artifact h self w :
  let r := execute_assertions h self w in
  ∃ calls,
    w_spawned (snd r) = w_spawned w ++ calls ∧
    length calls = (3 + length (List.filter (found h self) artifact_names))%nat ∧
    (3 ≤ length calls ≤ 12)%nat.
Proof.
  cbv zeta. rewrite execute_assertions_run. cbn [snd w_spawned].
  eexists. split; [reflexivity|].
  assert (Hcount : length (snd (attempts h self (length (w_spawned w)) (declared h self)))
                   = (3 + length (List.filter (found h self) artifact_names))%nat).
  { rewrite attempts_started_count. unfold declared, artifact_names.
    rewrite !length_filter_cons, !skipped_plain_dimension, !skipped_sarif_dimension,
      !skipped_artifact_dimension, !negb_involutive.
    cbn [negb List.filter length]. lia. }
  split; [exact Hcount|]. rewrite Hcount. unfold artifact_names.
  rewrite !length_filter_cons. cbn [List.filter length].
  repeat match goal with |- context [found h self ?f] => destruct (found h self f) end; lia.
Qed.

Lemma attempts_invocations h self n kws :
  Forall (fun sp => ∃ m kw, sp = invocation h self m kw) (snd (attempts h self n kws)).
Proof.
  revert n. induction kws as [|kw rest IH]; intros n; [constructor|].
  cbn [attempts snd]. apply Forall_app. split; [|apply IH].
  unfold attempt_spawns. destruct (skipped kw); repeat constructor. by eexists _, _.
Qed.

(** X15: every call of the generator that [execute_assertions] makes runs
    [python oaf.py --verbose generate ...] in the process environment
    updated with the values of [.env]: a variable that both set reaches the
    generator with the value of [.env]. *)
Theorem generator_command_and_environment h self w :
  let r := execute_assertions h self w in
  ∃ started,
    w_spawned (snd r) = w_spawned w ++ started ∧
    Forall (fun sp =>
              take 4 (spawn_cmd sp) = ["python"; "oaf.py"; "--verbose"; "generate"] ∧
              ∀ k, spawn_env sp !! k = generator_variable h self k) started.
Proof.
  cbv zeta. rewrite execute_assertions_run. cbn [snd w_spawned].
  eexists. split; [reflexivity|].
  eapply Forall_impl; [apply attempts_invocations|].
  intros sp (m & kw & ->). unfold invocation. cbn [spawn_cmd spawn_env]. split.
  - rewrite command_shape. reflexivity.
  - intros k. unfold generator_variable. rewrite lookup_union.
    by destruct (env self !! k), (environ h !! k).
Qed.

(** X16: a signer that is not set, [None] or the empty string, is still
    passed: the command line has no [--signer=...] argument, but the flag
    loop writes [--signer] followed by the empty string; for keyword
    arguments that are [tidy] it is the only argument that passes the
    option. *)
Theorem unset_signer_passed_empty now kw k1 v k2 :
  binds kw k1 "signer" v k2 →
  truthy v = false →
  let cmd := snd (assertion_command now kw) in
  cmd = base_command ++ inline_expiration kw ++ flags k1 ++ ["--signer"; ""] ++ flags k2 ++
        default_expiration now kw
  ∧ (tidy kw → emissions "signer" cmd = 1%nat).
Proof.
  intros Hb Hv cmd. subst cmd.
  assert (Hval : flag_value v = "").
  { destruct v as [|s]; [done|]. cbn in Hv. apply negb_false_iff, String.eqb_eq in Hv.
    by subst s. }
  assert (Hinline : inline_signer kw = []).
  { unfold inline_signer, dict_get. by rewrite (dict_lookup_binds _ _ _ _ _ Hb), Hv. }
  assert (Hcmd : snd (assertion_command now kw)
                 = base_command ++ inline_expiration kw ++ flags k1 ++ ["--signer"; ""] ++
                   flags k2 ++ default_expiration now kw).
  { rewrite command_shape, Hinline. destruct Hb as [-> _]. rewrite flags_app.
    change (flags (("signer", v) :: k2)) with (flag_pair ("signer", v) ++ flags k2).
    unfold flag_pair. cbn [fst snd]. rewrite Hval. cbn [app].
    rewrite <- !app_assoc. reflexivity. }
  split; [exact Hcmd|]. intros Ht. rewrite Hcmd.
  destruct (tidy_binds _ _ _ _ _ Ht Hb) as (H1 & H2 & Hk1 & Hk2 & Hflag).
  rewrite !emissions_app, emissions_inline_expiration_signer,
    emissions_default_expiration_signer, !emissions_flags_other by done.
  reflexivity.
Qed.

Lemma unset_signer_passed_empty_witness :
  snd (assertion_command (19723 * Datetime.usec_per_day)
         (plain_dimension unsigned_runner "SecurityScorecard"))
  = ["python"; "oaf.py"; "--verbose"; "generate";
     "--assertion"; "SecurityScorecard"; "--subject"; "pkg:npm/left-pad@1.3.0";
     "--repository"; "dir:/assertions"; "--signer"; "";
     "--expiration"; "2025-12-31T00:00:00.000000Z"].
Proof.
  refine (proj1 (unset_signer_passed_empty (19723 * Datetime.usec_per_day)
                   (plain_dimension unsigned_runner "SecurityScorecard")
                   [("assertion", PStr "SecurityScorecard");
                    ("subject", PStr "pkg:npm/left-pad@1.3.0");
                    ("repository", PStr "dir:/assertions")]
                   PNone [] _ eq_refl)).
  split; [reflexivity|]. cbn. rewrite !elem_of_cons, elem_of_nil. intuition discriminate.
Defined.

End RunFacts.

(** ** The runner's life cycle *)

Module SetupFacts.
Import Setup SetupSpec.

Lemma check_available h command w :
  is_command_available h command = Ok true →
  check h command w = (Ok tt, World (w_log w) (w_calls w ++ [IsCommandAvailable command])).
Proof. intros H. unfold check, bind, call. by rewrite H. Qed.

Lemma check_unavailable h command w :
  is_command_available h command ≠ Ok true →
  ∃ e, check h command w
       = (Raise e, World (w_log w) (w_calls w ++ [IsCommandAvailable command])) ∧
       (is_command_available h command = Ok false →
        e = Exn OSError ("Required command " +:+ py_repr_list h command +:+
                         " is not available.")).
Proof.
  intros H. unfold check, bind, call.
  destruct (is_command_available h command) as [[|]|e]; [done| |]; eexists; split;
    try reflexivity; done.
Qed.

(** The loop over the required commands when all are there. *)
Lemma for_each_check_available h commands w :
  Forall (fun c => is_command_available h c = Ok true) commands →
  for_each commands (check h) w
  = (Ok tt, World (w_log w) (w_calls w ++ map IsCommandAvailable commands)).
Proof.
  intros Hall. revert w. induction Hall as [|c rest Hc _ IH]; intros w.
  - cbn. rewrite app_nil_r. by destruct w.
  - cbn [for_each map]. unfold bind. rewrite check_available by done.
    rewrite IH. cbn. by rewrite <- app_assoc.
Qed.

(** The loop stops at the first command that is not. *)
Lemma for_each_check_stops h before c after w :
  Forall (fun c' => is_command_available h c' = Ok true) before →
  is_command_available h c ≠ Ok true →
  ∃ e, for_each (before ++ c :: after) (check h) w
       = (Raise e, World (w_log w) (w_calls w ++ map IsCommandAvailable (before ++ [c]))) ∧
       (is_command_available h c = Ok false →
        e = Exn OSError ("Required command " +:+ py_repr_list h c +:+ " is not available.")).
Proof.
  intros Hall Hc. revert w. induction Hall as [|c' rest Hc' _ IH]; intros w.
  - cbn [app for_each map]. unfold bind.
    destruct (check_unavailable h c w Hc) as (e & -> & He). by exists e.
  - cbn [app for_each map]. unfold bind. rewrite check_available by done.
    destruct (IH (World (w_log w) (w_calls w ++ [IsCommandAvailable c']))) as (e & -> & He).
    exists e. cbn. by rewrite <- app_assoc.
Qed.

(** A list of commands is all there, or has a first one that is not. *)
Lemma first_unavailable h commands :
  Forall (fun c => is_command_available h c = Ok true) commands ∨
  ∃ before c after,
    commands = before ++ c :: after ∧
    Forall (fun c' => is_command_available h c' = Ok true) before ∧
    is_command_available h c ≠ Ok true.
Proof.
  induction commands as [|c rest IH]; [by left|].
  destruct (is_command_available h c) as [[|]|e] eqn:Hc.
  - destruct IH as [IH|(before & c' & after & -> & Hall & Hc')].
    + left. by constructor.
    + right. exists (c :: before), c', after. split; [done|]. split; [by constructor|done].
  - right. exists [], c, rest. split; [done|]. split; [constructor|]. by rewrite Hc.
  - right. exists [], c, rest. split; [done|]. split; [constructor|]. by rewrite Hc.
Qed.

(** The constructor, once the loop over the required commands is over. *)
Lemma init_loop_raises h a w e w' :
  for_each (required_commands (arg_docker_container a)) (check h) w = (Raise e, w') →
  __init__ h a w = (Raise e, w').
Proof.
  intros H. unfold __init__. cbv zeta. unfold bind at 1.
  change (for_each (required_commands (arg_docker_container a)) _ w)
    with (for_each (required_commands (arg_docker_container a)) (check h) w).
  by rewrite H.
Qed.

(** The constructor, once every required command was found. *)
Ltac init_after_loop h Hall :=
  unfold __init__; cbv zeta; unfold bind at 1;
  change (for_each (required_commands (arg_docker_container ?a)) _ ?w)
    with (for_each (required_commands (arg_docker_container a)) (check h) w);
  rewrite (for_each_check_available _ _ _ Hall);
  unfold bind, call, logging, log, append_log, raise, ret; cbn [w_log w_calls].

Lemma probes_touch_nothing commands :
  Forall (fun c => touches_disk c = false) (map IsCommandAvailable commands).
Proof. induction commands; by constructor. Qed.

(** X17: the constructor tries the required commands in their order and
    stops at the first that is not available: it raises [EnvironmentError]
    with that command in the message, has tried no command after it, has
    logged nothing and has asked for nothing else. *)
Theorem init_stops_at_first_unavailable_command h a w before c after :
  required_commands (arg_docker_container a) = before ++ c :: after →
  Forall (fun c' => is_command_available h c' = Ok true) before →
  is_command_available h c = Ok false →
  __init__ h a w
  = (Raise (Exn OSError ("Required command " +:+ py_repr_list h c +:+ " is not available.")),
     World (w_log w) (w_calls w ++ map IsCommandAvailable (before ++ [c]))).
Proof.
  intros Hsplit Hall Hc.
  destruct (for_each_check_stops h before c after w Hall) as (e & Hrun & He).
  { by rewrite Hc. }
  rewrite <- Hsplit in Hrun. rewrite (init_loop_raises _ _ _ _ _ Hrun).
  by rewrite (He Hc).
Qed.

Lemma init_stops_at_first_unavailable_command_witness :
  __init__ (machine ["docker"] true []) (sample_arguments PNone) empty_world
  = (Raise (Exn OSError "Required command ['docker', '--help'] is not available."),
     World [] [IsCommandAvailable ["python"; "-V"]; IsCommandAvailable ["dotnet"; "--info"];
               IsCommandAvailable ["RecursiveExtractor"; "--help"];
               IsCommandAvailable ["docker"; "--help"]]).
Proof.
  refine (init_stops_at_first_unavailable_command (machine ["docker"] true [])
            (sample_arguments PNone) empty_world
            [["python"; "-V"]; ["dotnet"; "--info"]; ["RecursiveExtractor"; "--help"]]
            ["docker"; "--help"]
            [["docker"; "image"; "inspect"; "openssf/omega-toolshed:latest"];
             ["oss-find-source"; "--help"]] eq_refl _ eq_refl).
  repeat constructor.
Defined.

(** A constructor for which everything is in order. *)
Lemma init_ready h a w self :
  ready h a self → __init__ h a w = (Ok self, set_up a self w).
Proof.
  intros (Hall & Hfile & Hwd & Hmk & Hls & env & package_url & Henv & Hurl & Hself).
  init_after_loop h Hall. rewrite Hfile, Henv, Hurl. cbv beta iota delta [negb].
  unfold set_up, init_calls.
  destruct (truthy (arg_work_directory a)).
  - rewrite Hwd in *. cbn [name_of w_log w_calls] in *. cbv beta iota.
    rewrite Hmk, Hls. cbv beta iota. cbn [w_log w_calls]. rewrite Hself.
    cbn [work_directory name_of]. by rewrite <- !app_assoc.
  - destruct Hwd as (name & Htmp & Hwd). rewrite Hwd in *. cbn [name_of] in *.
    rewrite Htmp. cbv beta iota. cbn [name_of w_log w_calls]. rewrite Hmk, Hls.
    cbv beta iota. rewrite Hself. cbn [work_directory name_of w_log w_calls].
    by rewrite <- !app_assoc.
Qed.

(** X18: the constructor returns exactly when every required command is
    available, [.env] is a file that can be read, the package URL gets its
    version, the work directory (the one given, or a new temporary one when
    none or the empty string is given) can be made and is listed as empty.
    It then leaves the fields as given, has logged the directory once and
    has made its calls in the order of the source. *)
Theorem init_returns_iff_ready h a w self w' :
  __init__ h a w = (Ok self, w') ↔ ready h a self ∧ w' = set_up a self w.
Proof.
  split.
  - intros Hrun.
    destruct (first_unavailable h (required_commands (arg_docker_container a)))
      as [Hall|(before & c & after & Hsplit & Hall & Hc)].
    2:{ destruct (for_each_check_stops h before c after w Hall Hc) as (e & Hstop & _).
        rewrite <- Hsplit in Hstop. rewrite (init_loop_raises _ _ _ _ _ Hstop) in Hrun.
        discriminate. }
    revert Hrun. init_after_loop h Hall.
    destruct (isfile h ".env") eqn:Hfile; cbv beta iota delta [negb]; [|discriminate].
    destruct (dotenv_values h ".env") as [env|e] eqn:Henv; [|discriminate].
    destruct (get_package_url_with_version h (arg_package_url a)) as [package_url|e] eqn:Hurl;
      [|discriminate].
    unfold ready, set_up, init_calls.
    destruct (truthy (arg_work_directory a)) eqn:Hwd; cbv beta iota.
    + cbn [name_of w_log w_calls].
      destruct (makedirs h _) as [[]|e] eqn:Hmk; [|discriminate].
      destruct (listdir h _) as [[|x l]|e] eqn:Hls; [|discriminate|discriminate].
      intros [= <- <-]. cbn [work_directory name_of w_log w_calls].
      split; [|by rewrite <- !app_assoc].
      repeat split; try done. by exists env, package_url.
    + destruct (mkdtemp h "omega-") as [name|e] eqn:Htmp; [|discriminate].
      cbv beta iota. cbn [name_of w_log w_calls].
      destruct (makedirs h _) as [[]|e] eqn:Hmk; [|discriminate].
      destruct (listdir h _) as [[|x l]|e] eqn:Hls; [|discriminate|discriminate].
      intros [= <- <-]. cbn [work_directory name_of w_log w_calls].
      split; [|by rewrite <- !app_assoc].
      repeat split; try done; [by exists name|by exists env, package_url].
  - intros [Hready ->]. by apply init_ready.
Qed.

(** X19: when a required command, the [.env] file or the package URL is
    not in order, the constructor raises without a log record and without
    making a directory: no temporary directory is left behind by a failed
    check. *)
Theorem failed_precondition_touches_nothing h a w :
  ¬ preconditions h a →
  ∃ e calls,
    __init__ h a w = (Raise e, World (w_log w) (w_calls w ++ calls)) ∧
    Forall (fun c => touches_disk c = false) calls.
Proof.
  intros Hnot.
  destruct (first_unavailable h (required_commands (arg_docker_container a)))
    as [Hall|(before & c & after & Hsplit & Hall & Hc)].
  2:{ destruct (for_each_check_stops h before c after w Hall Hc) as (e & Hstop & _).
      rewrite <- Hsplit in Hstop. exists e, (map IsCommandAvailable (before ++ [c])).
      split; [by apply init_loop_raises|apply probes_touch_nothing]. }
  init_after_loop h Hall.
  destruct (isfile h ".env") eqn:Hfile; cbv beta iota delta [negb].
  2:{ exists (Exn OSError "Missing .env file."),
        (map IsCommandAvailable (required_commands (arg_docker_container a)) ++ [IsFile ".env"]).
      split; [cbn [w_log w_calls]; by rewrite <- !app_assoc|].
      apply Forall_app. split; [apply probes_touch_nothing|by repeat constructor]. }
  destruct (dotenv_values h ".env") as [env|e] eqn:Henv.
  2:{ exists e,
        (map IsCommandAvailable (required_commands (arg_docker_container a)) ++
         [IsFile ".env"; DotenvValues ".env"]).
      split; [cbn [w_log w_calls]; by rewrite <- !app_assoc|].
      apply Forall_app. split; [apply probes_touch_nothing|by repeat constructor]. }
  destruct (get_package_url_with_version h (arg_package_url a)) as [package_url|e] eqn:Hurl.
  { exfalso. apply Hnot. split; [done|]. split; [done|]. split; [by exists env|].
    by exists package_url. }
  exists e,
    (map IsCommandAvailable (required_commands (arg_docker_container a)) ++
     [IsFile ".env"; DotenvValues ".env"; GetPackageUrlWithVersion (arg_package_url a)]).
  split; [cbn [w_log w_calls]; by rewrite <- !app_assoc|].
  apply Forall_app. split; [apply probes_touch_nothing|by repeat constructor].
Qed.

Lemma failed_precondition_touches_nothing_witness :
  ∃ e calls,
    __init__ (machine [] false []) (sample_arguments (PStr "/w")) empty_world
    = (Raise e, World [] calls) ∧
    Forall (fun c => touches_disk c = false) calls.
Proof.
  apply (failed_precondition_touches_nothing (machine [] false [])
           (sample_arguments (PStr "/w")) empty_world).
  intros (_ & Hfile & _). discriminate.
Defined.

Lemma exit_run h self w :
  ∃ w', __exit__ h self w = (Ok tt, w') ∧ w_calls w' = w_calls w ++ exit_calls self ∧
        (exit_calls self = [] → w' = w).
Proof.
  unfold __exit__, exit_calls. destruct (work_directory self) as [path|name].
  - exists w. by rewrite app_nil_r.
  - unfold try_except, call, logging, log, append_log.
    destruct (cleanup h name) as [[]|e]; eexists; (split; [reflexivity|done]).
Qed.

(** X20: in [with AnalysisRunner(...) as runner: body], once the
    constructor has returned, the outcome of the statement is the outcome
    of the body: [__exit__] never raises, also when the clean-up fails.  It
    removes the temporary directory the constructor made, after a body that
    returned and after one that raised, and asks for nothing when the work
    directory was given. *)
Theorem with_runner_cleans_what_it_made {A} h a (body : instance → M world A) self w :
  ready h a self →
  let r := with_AnalysisRunner h a body w in
  let b := body self (set_up a self w) in
  fst r = fst b ∧
  w_calls (snd r) = w_calls (snd b) ++ exit_calls self ∧
  (truthy (arg_work_directory a) = true → snd r = snd b).
Proof.
  intros Hready r b. subst r b. unfold with_AnalysisRunner, bind.
  rewrite (init_ready h a w self Hready).
  unfold __enter__.
  destruct (body self (set_up a self w)) as [res w1]. cbn [fst snd].
  destruct (exit_run h self w1) as (w2 & -> & Hcalls & Hsame).
  cbn [fst snd]. split; [done|]. split; [done|]. intros Hgiven. apply Hsame.
  unfold exit_calls. destruct Hready as (_ & _ & Hwd & _). rewrite Hgiven in Hwd.
  by rewrite Hwd.
Qed.

Lemma with_runner_cleans_what_it_made_witness :
  let failing : instance → M world unit :=
    fun _ => raise (Exn RuntimeError "Error running docker container: None") in
  let r := with_AnalysisRunner (machine [] true []) (sample_arguments (PStr "")) failing
             empty_world in
  fst r = Raise (Exn RuntimeError "Error running docker container: None") ∧
  w_calls (snd r)
  = map IsCommandAvailable (required_commands "openssf/omega-toolshed:latest") ++
    [IsFile ".env"; DotenvValues ".env"; GetPackageUrlWithVersion "pkg:npm/left-pad";
     NewTemporaryDirectory "omega-"; MakeDirs "/tmp/omega-k3j2x9"; ListDir "/tmp/omega-k3j2x9";
     Cleanup "/tmp/omega-k3j2x9"].
Proof.
  intros failing.
  assert (Hready : ready (machine [] true []) (sample_arguments (PStr ""))
            (Instance (Analyze.Runner "openssf/omega-toolshed:latest" "pkg:npm/left-pad@1.3.0"
                         "dir:/assertions" (PStr "alice") "/tmp/omega-k3j2x9"
                         {[ "GITHUB_TOKEN" := "from-dotenv" ]})
                      (TemporaryDirectory "/tmp/omega-k3j2x9") PNone)).
  { split; [repeat constructor|]. split; [reflexivity|]. split; [by eexists|].
    split; [reflexivity|]. split; [reflexivity|]. by eexists _, _. }
  destruct (with_runner_cleans_what_it_made (machine [] true []) (sample_arguments (PStr ""))
              failing _ empty_world Hready) as (Hout & Hcalls & _).
  split; [exact Hout|exact Hcalls].
Defined.

End SetupFacts.
